(** * agent-comm-hub: the message broker and its per-agent history

    A shallow embedding of [internal/services/messaging/message_broker.go],
    of the [Send] handler of [internal/handlers/message.go] and of
    [AgentRegistry.Get], over an explicit model of the two Redis clients the
    broker talks to.  Go functions that return [(value, error)] become
    state-passing functions that return a [result]; the Redis server, the
    UUID generator and the clock live in a [World] that is threaded through
    every call. *)

From stdpp Require Import base option list gmap strings pretty.

Open Scope Z_scope.

(** ** models *)

(** A decoded JSON document, the shape [encoding/json] gives an
    [interface{}] payload.  Numbers keep their literal text. *)
#[warnings="-register-all"]
Inductive JSON : Type :=
  | JNull
  | JBool (b : bool)
  | JNumber (literal : string)
  | JString (s : string)
  | JArray (items : list JSON)
  | JObject (fields : list (string * JSON)).

(** [type MessageType string] *)
Definition MessageType : Type := string.

Definition MessageTypeRequest : MessageType := "request".
Definition MessageTypeResponse : MessageType := "response".
Definition MessageTypeEvent : MessageType := "event".
Definition MessageTypeMessage : MessageType := "message".

(** [models.Message]; [Timestamp] is in nanoseconds since the epoch. *)
Record Message : Type := {
  ID : string;
  FromAgent : string;
  ToAgent : string;
  Type_ : MessageType;
  Payload : JSON;
  CorrelationID : string;
  Timestamp : Z;
  TTL : Z
}.

(** [models.SendMessageRequest] *)
Record SendMessageRequest : Type := {
  req_ToAgent : string;
  req_Type : MessageType;
  req_Payload : JSON;
  req_CorrelationID : string;
  req_TTL : Z
}.

(** [models.SendMessageResponse] *)
Record SendMessageResponse : Type := {
  resp_MessageID : string;
  resp_Timestamp : Z;
  resp_Channel : string
}.

(** [models.Agent] *)
Record Agent : Type := {
  agent_ID : string;
  agent_Name : string;
  agent_Type : string;
  agent_Capabilities : list string;
  agent_Endpoint : string;
  agent_Status : string;
  agent_Metadata : gmap string string;
  agent_CreatedAt : Z;
  agent_LastSeen : Z
}.

(** ** errors *)

(** Go error values.  The sentinels are compared by identity in the source
    ([err == redis.Nil], [errors.Is]); [Errorf] is [fmt.Errorf] with a
    [%w] verb, which wraps its cause. *)
Inductive error : Type :=
  | redis_Nil
  | redis_Failure
  | json_Failure
  | ErrAgentNotFound
  | ErrInvalidRecipient
  | Errorf (prefix : string) (cause : error).

(** A Go [(value, error)] pair: either the value with a nil error, or an
    error. *)
Inductive result (A : Type) : Type :=
  | Ok (a : A)
  | Err (e : error).
Arguments Ok {A} a.
Arguments Err {A} e.

Definition is_sentinel (target e : error) : bool :=
  match target, e with
  | redis_Nil, redis_Nil => true
  | ErrAgentNotFound, ErrAgentNotFound => true
  | ErrInvalidRecipient, ErrInvalidRecipient => true
  | _, _ => false
  end.

(** [errors.Is]: walks the chain of wrapped causes. *)
Fixpoint errors_Is (e target : error) : bool :=
  is_sentinel target e ||
  match e with
  | Errorf _ cause => errors_Is cause target
  | _ => false
  end.

(** ** the world outside the process *)

(** The Redis commands the code issues. *)
Inductive RedisCmd : Type :=
  | PUBLISH (channel data : string)
  | LPUSH (key data : string)
  | LTRIM (key : string) (start stop : Z)
  | EXPIRE (key : string) (ttl : Z)
  | LRANGE (key : string) (start stop : Z)
  | GET (key : string).

Record World : Type := {
  (** every Redis command sent so far, oldest first, failed ones included *)
  w_trace : list RedisCmd;
  (** pub/sub server: the (channel, payload) pairs accepted, oldest first *)
  w_published : list (string * string);
  (** standard server: list keys, head of the list first *)
  w_lists : gmap string (list string);
  (** standard server: string keys *)
  w_strings : gmap string string;
  (** standard server: time to live last set on a key, in nanoseconds *)
  w_expire : gmap string Z;
  (** how many UUIDs the process has drawn *)
  w_uuids : nat;
  (** the wall clock *)
  w_now : Z;
  (** lines written to standard output: format and error argument *)
  w_stdout : list (string * error)
}.

Definition set_trace (f : list RedisCmd → list RedisCmd) (w : World) : World :=
  {| w_trace := f (w_trace w); w_published := w_published w;
     w_lists := w_lists w; w_strings := w_strings w; w_expire := w_expire w;
     w_uuids := w_uuids w; w_now := w_now w; w_stdout := w_stdout w |}.

Definition set_published (f : list (string * string) → list (string * string))
    (w : World) : World :=
  {| w_trace := w_trace w; w_published := f (w_published w);
     w_lists := w_lists w; w_strings := w_strings w; w_expire := w_expire w;
     w_uuids := w_uuids w; w_now := w_now w; w_stdout := w_stdout w |}.

Definition set_lists (f : gmap string (list string) → gmap string (list string))
    (w : World) : World :=
  {| w_trace := w_trace w; w_published := w_published w;
     w_lists := f (w_lists w); w_strings := w_strings w; w_expire := w_expire w;
     w_uuids := w_uuids w; w_now := w_now w; w_stdout := w_stdout w |}.

Definition set_expire (f : gmap string Z → gmap string Z) (w : World) : World :=
  {| w_trace := w_trace w; w_published := w_published w;
     w_lists := w_lists w; w_strings := w_strings w; w_expire := f (w_expire w);
     w_uuids := w_uuids w; w_now := w_now w; w_stdout := w_stdout w |}.

Definition set_uuids (f : nat → nat) (w : World) : World :=
  {| w_trace := w_trace w; w_published := w_published w;
     w_lists := w_lists w; w_strings := w_strings w; w_expire := w_expire w;
     w_uuids := f (w_uuids w); w_now := w_now w; w_stdout := w_stdout w |}.

Definition set_stdout (f : list (string * error) → list (string * error))
    (w : World) : World :=
  {| w_trace := w_trace w; w_published := w_published w;
     w_lists := w_lists w; w_strings := w_strings w; w_expire := w_expire w;
     w_uuids := w_uuids w; w_now := w_now w; w_stdout := f (w_stdout w) |}.

(** What the code cannot decide for itself: the JSON codec of the standard
    library, the UUID generator, and which Redis round trips fail.
    [redis_fails n] tells whether the [n]-th command ever sent (counting
    from 0) comes back with an error; a command that fails leaves the
    server as it was. *)
Class Runtime : Type := {
  json_Marshal : Message → option string;
  json_Unmarshal : string → option Message;
  json_UnmarshalAgent : string → option Agent;
  uuid_String : nat → string;
  redis_fails : nat → bool
}.

(** The line feed that ends the warnings [SendMessage] prints. *)
Definition LF : string := String (Ascii.ascii_of_nat 10) EmptyString.

(** ** a state monad over the world *)

Definition IO (A : Type) : Type := World → A * World.

#[global] Instance IO_ret : MRet IO := λ A a w, (a, w).
#[global] Instance IO_bind : MBind IO :=
  λ A B f m w, let '(a, w') := m w in f a w'.

(** The list stored under [key]; a missing key is the empty list. *)
Definition list_at (key : string) (w : World) : list string :=
  default [] (w_lists w !! key).

(** The elements with index [start] to [stop], both included, with Redis'
    conventions: negative indices count from the tail, out of range
    indices are clipped. *)
Definition redis_range (l : list string) (start stop : Z) : list string :=
  let len := Z.of_nat (length l) in
  let start := if bool_decide (start < 0) then Z.max 0 (start + len) else start in
  let stop := if bool_decide (stop < 0) then stop + len else stop in
  let stop := Z.min stop (len - 1) in
  if bool_decide (stop < start) then []
  else take (Z.to_nat (stop - start + 1)) (drop (Z.to_nat start) l).

(** Stores a list under a key; Redis removes a key whose list is empty. *)
Definition store_list (key : string) (l : list string)
    (m : gmap string (list string)) : gmap string (list string) :=
  match l with
  | [] => delete key m
  | _ => <[key := l]> m
  end.

Section Broker.
Context `{Runtime}.

(** Sends one command: records it and tells whether it failed. *)
Definition redis_send (c : RedisCmd) : IO bool :=
  λ w, (redis_fails (length (w_trace w)), set_trace (λ t, t ++ [c]) w).

Definition modify (f : World → World) : IO unit := λ w, ((), f w).

(** [uuid.New().String()] *)
Definition uuid_New : IO string :=
  λ w, (uuid_String (w_uuids w), set_uuids S w).

(** [time.Now()] *)
Definition time_Now : IO Z := λ w, (w_now w, w).

(** [fmt.Printf(format, err)] *)
Definition fmt_Printf (format : string) (err : error) : IO unit :=
  modify (set_stdout (λ out, out ++ [(format, err)])).

(** [client.Publish(ctx, channel, data).Err()] *)
Definition Publish (channel data : string) : IO (option error) :=
  failed ← redis_send (PUBLISH channel data);
  if failed : bool then mret (Some redis_Failure)
  else
    _ ← modify (set_published (λ p, p ++ [(channel, data)]));
    mret None.

(** [client.LPush(ctx, key, data).Err()] *)
Definition LPush (key data : string) : IO (option error) :=
  failed ← redis_send (LPUSH key data);
  if failed : bool then mret (Some redis_Failure)
  else
    _ ← modify (λ w, set_lists (store_list key (data :: list_at key w)) w);
    mret None.

(** [client.LTrim(ctx, key, start, stop).Err()] *)
Definition LTrim (key : string) (start stop : Z) : IO (option error) :=
  failed ← redis_send (LTRIM key start stop);
  if failed : bool then mret (Some redis_Failure)
  else
    _ ← modify (λ w,
          set_lists (store_list key (redis_range (list_at key w) start stop)) w);
    mret None.

(** [client.Expire(ctx, key, ttl).Err()]: a key that does not exist gets
    no time to live, and that is no error. *)
Definition Expire (key : string) (ttl : Z) : IO (option error) :=
  failed ← redis_send (EXPIRE key ttl);
  if failed : bool then mret (Some redis_Failure)
  else
    _ ← modify (λ w,
          match w_lists w !! key, w_strings w !! key with
          | None, None => w
          | _, _ => set_expire <[key := ttl]> w
          end);
    mret None.

(** [client.LRange(ctx, key, start, stop).Result()] *)
Definition LRange (key : string) (start stop : Z) : IO (result (list string)) :=
  failed ← redis_send (LRANGE key start stop);
  if failed : bool then mret (Err redis_Failure)
  else λ w, (Ok (redis_range (list_at key w) start stop), w).

(** [client.Get(ctx, key).Bytes()] *)
Definition Get_Bytes (key : string) : IO (result string) :=
  failed ← redis_send (GET key);
  if failed : bool then mret (Err redis_Failure)
  else λ w,
    match w_strings w !! key with
    | Some data => (Ok data, w)
    | None => (Err redis_Nil, w)
    end.

(** ** messaging/message_broker.go *)

Definition directMessageChannelPrefix : string := "agent:message:".
Definition broadcastChannel : string := "agent:broadcast".
Definition messageHistoryPrefix : string := "agent:history:".
(** [24 * time.Hour]: a [time.Duration] counts nanoseconds *)
Definition messageHistoryTTL : Z := 24 * 3600000000000.
Definition messageHistoryMax : Z := 100.

(** The "Determine channel" step of [SendMessage]. *)
Definition resolveChannel (toAgent : string) : string :=
  if String.eqb toAgent "broadcast" then broadcastChannel
  else directMessageChannelPrefix +:+ toAgent.

Definition storeMessageHistory (agentID : string) (msg : Message)
    : IO (option error) :=
  let key := messageHistoryPrefix +:+ agentID in
  match json_Marshal msg with
  | None => mret (Some (Errorf "failed to marshal message: " json_Failure))
  | Some data =>
    e ← LPush key data;
    match e with
    | Some err => mret (Some (Errorf "failed to push message to history: " err))
    | None =>
      e ← LTrim key 0 (messageHistoryMax - 1);
      match e with
      | Some err => mret (Some (Errorf "failed to trim message history: " err))
      | None =>
        e ← Expire key messageHistoryTTL;
        match e with
        | Some err =>
            mret (Some (Errorf "failed to set message history TTL: " err))
        | None => mret None
        end
      end
    end
  end.

(** The "Create message" literal of [SendMessage], given the values of
    [uuid.New().String()] and [time.Now()]. *)
Definition newMessage (id : string) (now : Z) (fromAgentID : string)
    (req : SendMessageRequest) : Message :=
  {| ID := id;
     FromAgent := fromAgentID;
     ToAgent := req_ToAgent req;
     Type_ := req_Type req;
     Payload := req_Payload req;
     CorrelationID := req_CorrelationID req;
     Timestamp := now;
     TTL := req_TTL req |}.

Definition SendMessage (fromAgentID : string) (req : SendMessageRequest)
    : IO (result Message) :=
  id ← uuid_New;
  now ← time_Now;
  let msg := newMessage id now fromAgentID req in
  match json_Marshal msg with
  | None => mret (Err (Errorf "failed to marshal message: " json_Failure))
  | Some data =>
    let channel := resolveChannel (req_ToAgent req) in
    e ← Publish channel data;
    match e with
    | Some err => mret (Err (Errorf "failed to publish message: " err))
    | None =>
      e ← storeMessageHistory fromAgentID msg;
      _ ← match e with
          | Some err =>
              fmt_Printf
                ("Warning: failed to store sender message history: %v" +:+ LF)
                err
          | None => mret ()
          end;
      _ ← (if negb (String.eqb (req_ToAgent req) "broadcast") then
             e ← storeMessageHistory (req_ToAgent req) msg;
             match e with
             | Some err =>
                 fmt_Printf
                   ("Warning: failed to store receiver message history: %v"
                      +:+ LF) err
             | None => mret ()
             end
           else mret ());
      mret (Ok msg)
    end
  end.

(** The parsing loop of [GetMessageHistory]:
    [for i := len(messages) - 1; i >= 0; i--], entered with [n = i + 1]. *)
Fixpoint parseNewestLast (messages : list string) (n : nat)
    (acc : list Message) : list Message :=
  match n with
  | O => acc
  | S i =>
    match messages !! i with
    | None => acc
    | Some raw =>
      match json_Unmarshal raw with
      | None => parseNewestLast messages i acc
      | Some msg => parseNewestLast messages i (acc ++ [msg])
      end
    end
  end.

Definition GetMessageHistory (agentID : string) (limit : Z)
    : IO (result (list Message)) :=
  let limit :=
    if bool_decide (limit ≤ 0 ∨ limit > messageHistoryMax)
    then messageHistoryMax else limit in
  let key := messageHistoryPrefix +:+ agentID in
  r ← LRange key 0 (limit - 1);
  match r with
  | Err err => mret (Err (Errorf "failed to get message history: " err))
  | Ok messages =>
    if bool_decide (length messages = 0%nat) then mret (Ok [])
    else mret (Ok (parseNewestLast messages (length messages) []))
  end.

(** ** registry/agent_registry.go *)

Definition agentKeyPrefix : string := "agent:".

Definition AgentRegistry_Get (agentID : string) : IO (result Agent) :=
  let agentKey := agentKeyPrefix +:+ agentID in
  r ← Get_Bytes agentKey;
  match r with
  | Err redis_Nil => mret (Err ErrAgentNotFound)
  | Err err => mret (Err (Errorf "failed to get agent: " err))
  | Ok data =>
    match json_UnmarshalAgent data with
    | None => mret (Err (Errorf "failed to unmarshal agent: " json_Failure))
    | Some agent => mret (Ok agent)
    end
  end.

(** ** handlers/message.go *)

(** What the handler reads of a request: the [id] path parameter and the
    body, [None] when it does not decode into a [SendMessageRequest]. *)
Record Request : Type := {
  URLParam_id : string;
  Body : option SendMessageRequest
}.

(** The text handed to [http.Error]: a literal or [err.Error()]. *)
Inductive ErrorText : Type :=
  | Literal (s : string)
  | Error_of (err : error).

Inductive Response : Type :=
  | http_Error (text : ErrorText) (code : Z)
  | http_JSON (code : Z) (body : SendMessageResponse).

Definition StatusBadRequest : Z := 400.
Definition StatusNotFound : Z := 404.
Definition StatusInternalServerError : Z := 500.
Definition StatusAccepted : Z := 202.

(** The "Set default message type" step of [Send]. *)
Definition withDefaultType (req : SendMessageRequest) : SendMessageRequest :=
  if String.eqb (req_Type req) "" then
    {| req_ToAgent := req_ToAgent req;
       req_Type := MessageTypeMessage;
       req_Payload := req_Payload req;
       req_CorrelationID := req_CorrelationID req;
       req_TTL := req_TTL req |}
  else req.

Definition Send (r : Request) : IO Response :=
  let fromAgentID := URLParam_id r in
  g ← AgentRegistry_Get fromAgentID;
  match g with
  | Err err =>
    if errors_Is err ErrAgentNotFound
    then mret (http_Error (Literal "sender agent not found") StatusNotFound)
    else mret (http_Error (Error_of err) StatusInternalServerError)
  | Ok _ =>
    match Body r with
    | None => mret (http_Error (Literal "invalid request body") StatusBadRequest)
    | Some req =>
      if String.eqb (req_ToAgent req) ""
      then mret (http_Error (Literal "to_agent is required") StatusBadRequest)
      else
        let req := withDefaultType req in
        s ← SendMessage fromAgentID req;
        match s with
        | Err err => mret (http_Error (Error_of err) StatusInternalServerError)
        | Ok msg =>
          mret (http_JSON StatusAccepted
                  {| resp_MessageID := ID msg;
                     resp_Timestamp := Timestamp msg;
                     resp_Channel := "agent:message:" +:+ req_ToAgent req |})
        end
    end
  end.

(** ** scenarios *)


(** No Redis command fails from the [t]-th on. *)
Definition healthy_from (t : nat) : Prop :=
  ∀ n, (t ≤ n)%nat → redis_fails n = false.

(** The [LPUSH] commands of a trace, as (key, element) pairs. *)
Definition lpushes (trace : list RedisCmd) : list (string * string) :=
  omap (λ c, match c with LPUSH key data => Some (key, data) | _ => None end)
       trace.

(** The effect of one successful history append on the list keys:
    [LPUSH key data] followed by [LTRIM key 0 99]. *)
Definition appended (key data : string) (m : gmap string (list string))
    : gmap string (list string) :=
  <[key := take (Z.to_nat messageHistoryMax) (data :: default [] (m !! key))]> m.

(** The limit [GetMessageHistory] works with. *)
Definition clamp (limit : Z) : Z :=
  if bool_decide (limit ≤ 0 ∨ limit > messageHistoryMax)
  then messageHistoryMax else limit.

(** What [SendMessage] does once the message is published: the two history
    appends and the return. *)
Definition recordHistories (fromAgentID : string) (req : SendMessageRequest)
    (msg : Message) : IO (result Message) :=
  e ← storeMessageHistory fromAgentID msg;
  _ ← match e with
      | Some err =>
          fmt_Printf
            ("Warning: failed to store sender message history: %v" +:+ LF) err
      | None => mret ()
      end;
  _ ← (if negb (String.eqb (req_ToAgent req) "broadcast") then
         e ← storeMessageHistory (req_ToAgent req) msg;
         match e with
         | Some err =>
             fmt_Printf
               ("Warning: failed to store receiver message history: %v"
                  +:+ LF) err
         | None => mret ()
         end
       else mret ());
  mret (Ok msg).

(** The histories an accepted message is appended to: the sender's, and
    the recipient's unless the message is a broadcast. *)
Definition history_targets (fromAgentID toAgent : string) : list string :=
  if bool_decide (toAgent = "broadcast") then [fromAgentID]
  else [fromAgentID; toAgent].

End Broker.

(** ** fixtures

    A runtime and worlds to run the definitions on.  The codec of the
    fixture writes a message as its identifier and reads any non-empty
    entry back as a message with that identifier and nothing else. *)
Module Fixture.

Definition blank (id : string) : Message :=
  {| ID := id; FromAgent := ""; ToAgent := ""; Type_ := ""; Payload := JNull;
     CorrelationID := ""; Timestamp := 0; TTL := 0 |}.

Definition agent (id : string) : Agent :=
  {| agent_ID := id; agent_Name := "worker"; agent_Type := "test";
     agent_Capabilities := []; agent_Endpoint := ""; agent_Status := "online";
     agent_Metadata := ∅; agent_CreatedAt := 0; agent_LastSeen := 0 |}.

(** Redis always answers. *)
Definition runtime : Runtime :=
  {| json_Marshal msg := Some (ID msg);
     json_Unmarshal raw := if String.eqb raw "" then None else Some (blank raw);
     json_UnmarshalAgent raw := Some (agent raw);
     uuid_String n := "id-" +:+ pretty n;
     redis_fails n := false |}.

(** Redis answers the first command and fails every later one. *)
Definition flaky : Runtime :=
  {| json_Marshal msg := Some (ID msg);
     json_Unmarshal raw := if String.eqb raw "" then None else Some (blank raw);
     json_UnmarshalAgent raw := Some (agent raw);
     uuid_String n := "id-" +:+ pretty n;
     redis_fails n := negb (Nat.eqb n 0) |}.

(** Redis fails every command. *)
Definition down : Runtime :=
  {| json_Marshal msg := Some (ID msg);
     json_Unmarshal raw := if String.eqb raw "" then None else Some (blank raw);
     json_UnmarshalAgent raw := Some (agent raw);
     uuid_String n := "id-" +:+ pretty n;
     redis_fails n := true |}.

(** An empty server, with agent [a1] registered. *)
Definition world : World :=
  {| w_trace := []; w_published := []; w_lists := ∅;
     w_strings := {[ "agent:a1" := "a1" ]}; w_expire := ∅;
     w_uuids := 0; w_now := 1700000000000000000; w_stdout := [] |}.

(** The history of [a1] holds one entry between two that do not parse. *)
Definition corrupted : World :=
  set_lists <[ "agent:history:a1" := [""; "m2"; ""] ]> world.

(** The history of [a1] holds [m3], [m2], [m1], the newest first. *)
Definition three_sent : World :=
  set_lists <[ "agent:history:a1" := ["m3"; "m2"; "m1"] ]> world.

Definition request (toAgent : string) (type : MessageType)
    : SendMessageRequest :=
  {| req_ToAgent := toAgent; req_Type := type;
     req_Payload := JObject [("x", JNumber "1")];
     req_CorrelationID := ""; req_TTL := 0 |}.

(** [count] messages [m1], [m2], ... *)
Definition messages (count : nat) : list Message :=
  (λ n, blank ("m" +:+ pretty n)) <$> seq 1 count.

End Fixture.

(** * The rest of the message handlers and of the broker *)

(** ** strconv.Atoi

    The decimal integer a string spells: an optional sign, then digits
    only, at least one; [None] stands for the error of [Atoi], which it
    also returns when the value does not fit an [int] (64 bits). *)

Definition digit_value (c : Ascii.ascii) : option Z :=
  let n := Z.of_N (Ascii.N_of_ascii c) in
  if bool_decide (48 ≤ n ≤ 57) then Some (n - 48) else None.

Fixpoint parse_digits (s : string) (acc : Z) : option Z :=
  match s with
  | EmptyString => Some acc
  | String c rest =>
    match digit_value c with
    | None => None
    | Some d => parse_digits rest (10 * acc + d)
    end
  end.

Definition minus_sign : Ascii.ascii := Ascii.ascii_of_nat 45.
Definition plus_sign : Ascii.ascii := Ascii.ascii_of_nat 43.

Definition strconv_Atoi (s : string) : option Z :=
  let '(negative, digits) :=
    match s with
    | String c rest =>
      if Ascii.eqb c minus_sign then (true, rest)
      else if Ascii.eqb c plus_sign then (false, rest)
      else (false, s)
    | EmptyString => (false, s)
    end in
  match digits with
  | EmptyString => None
  | _ =>
    match parse_digits digits 0 with
    | None => None
    | Some n =>
      let v := if negative : bool then - n else n in
      if bool_decide (- 2 ^ 63 ≤ v ≤ 2 ^ 63 - 1) then Some v else None
    end
  end.

(** ** handlers/message.go: List *)

(** [models.MessageListResponse] *)
Record MessageListResponse : Type := {
  list_Messages : list Message;
  list_Count : Z
}.

(** What [List] reads of a request: the [id] path parameter and the
    [limit] query parameter, empty when the query has none. *)
Record ListRequest : Type := {
  list_URLParam_id : string;
  Query_limit : string
}.

Inductive ListResponse : Type :=
  | list_Error (text : ErrorText) (code : Z)
  | list_JSON (code : Z) (body : MessageListResponse).

Definition StatusOK : Z := 200.

(** The "Get limit from query param" step of [List]. *)
Definition queryLimit (limitStr : string) : Z :=
  let limit := 50 in
  if String.eqb limitStr "" then limit
  else
    match strconv_Atoi limitStr with
    | Some l => if bool_decide (l > 0) then l else limit
    | None => limit
    end.

(** The number of entries [List] asks Redis for. *)
Definition servedLimit (limitStr : string) : Z :=
  match strconv_Atoi limitStr with
  | Some l => if bool_decide (l > 0) then Z.min l 100 else 50
  | None => 50
  end.

(** ** messaging/message_broker.go: subscriptions *)

(** A [*redis.PubSub], as the channels it is subscribed to; the connection
    behind it is not modelled. *)
Record PubSub : Type := { ps_channels : list string }.

(** [client.Subscribe(ctx, channels...)] *)
Definition redis_Subscribe (channels : list string) : PubSub :=
  {| ps_channels := channels |}.

Definition Subscribe (agentID : string) : PubSub :=
  let channel := directMessageChannelPrefix +:+ agentID in
  redis_Subscribe [channel].

Definition SubscribeToBroadcast : PubSub :=
  redis_Subscribe [broadcastChannel].

(** The payloads a subscription is sent out of a run of publications:
    those published on one of its channels, in order. *)
Definition feed (ps : PubSub) (published : list (string * string))
    : list string :=
  snd <$> filter (λ p, p.1 ∈ ps_channels ps) published.

(** What a call published: the publications of [w'] that [w] had not. *)
Definition published_since (w w' : World) : list (string * string) :=
  drop (length (w_published w)) (w_published w').

(** A computation leaves a component of the world as it finds it. *)
Definition preserves {A B : Type} (field : World → B) (m : IO A) : Prop :=
  ∀ w, field (m w).2 = field w.

Section Listing.
Context `{Runtime}.

Definition MessageHandler_List (r : ListRequest) : IO ListResponse :=
  let agentID := list_URLParam_id r in
  g ← AgentRegistry_Get agentID;
  match g with
  | Err err =>
    if errors_Is err ErrAgentNotFound
    then mret (list_Error (Literal "agent not found") StatusNotFound)
    else mret (list_Error (Error_of err) StatusInternalServerError)
  | Ok _ =>
    let limit := queryLimit (Query_limit r) in
    m ← GetMessageHistory agentID limit;
    match m with
    | Err err => mret (list_Error (Error_of err) StatusInternalServerError)
    | Ok messages =>
      mret (list_JSON StatusOK
              {| list_Messages := messages;
                 list_Count := Z.of_nat (length messages) |})
    end
  end.

(** The standard server is down from the [t]-th command on. *)
Definition down_from (t : nat) : Prop :=
  ∀ n, (t ≤ n)%nat → redis_fails n = true.

End Listing.

(** ** more fixtures *)
Module Scenario.
Import Fixture.

(** The codec of the fixtures, reading the entry ["id-0"] back as [msg]. *)
Definition reading (msg : Message) (fails : nat → bool) : Runtime :=
  {| json_Marshal m := Some (ID m);
     json_Unmarshal raw :=
       if String.eqb raw "id-0" then Some msg
       else if String.eqb raw "" then None else Some (blank raw);
     json_UnmarshalAgent raw := Some (agent raw);
     uuid_String n := "id-" +:+ pretty n;
     redis_fails := fails |}.

(** Redis answers every command but the [k]-th. *)
Definition failing_at (k : nat) : Runtime :=
  {| json_Marshal m := Some (ID m);
     json_Unmarshal raw := if String.eqb raw "" then None else Some (blank raw);
     json_UnmarshalAgent raw := Some (agent raw);
     uuid_String n := "id-" +:+ pretty n;
     redis_fails n := Nat.eqb n k |}.

Definition always (n : nat) : bool := false.

(** Redis answers the first two commands and fails every later one. *)
Definition flaky_after_publish : Runtime :=
  {| json_Marshal m := Some (ID m);
     json_Unmarshal raw := if String.eqb raw "" then None else Some (blank raw);
     json_UnmarshalAgent raw := Some (agent raw);
     uuid_String n := "id-" +:+ pretty n;
     redis_fails n := negb (Nat.leb n 1) |}.

(** The message [a1] sends first in [world]. *)
Definition first_message (toAgent : string) (type : MessageType) : Message :=
  newMessage "id-0" (w_now world) "a1" (request toAgent type).

Definition send_request (toAgent : string) (type : MessageType) : Request :=
  {| URLParam_id := "a1"; Body := Some (request toAgent type) |}.

End Scenario.

(** * The agent registry *)

(** ** models/agent.go *)

Definition StatusOnline : string := "online".
Definition StatusOffline : string := "offline".
Definition StatusBusy : string := "busy".

(** [models.RegisterAgentRequest] *)
Record RegisterAgentRequest : Type := {
  reg_Name : string;
  reg_Type : string;
  reg_Capabilities : list string;
  reg_Endpoint : string;
  reg_Metadata : gmap string string
}.

(** [models.RegisterAgentResponse] *)
Record RegisterAgentResponse : Type := {
  regresp_ID : string;
  regresp_Status : string
}.

(** [models.UpdateAgentRequest]; a nil [Metadata] map is [None]. *)
Record UpdateAgentRequest : Type := {
  upd_Name : string;
  upd_Type : string;
  upd_Capabilities : list string;
  upd_Endpoint : string;
  upd_Status : string;
  upd_Metadata : option (gmap string string)
}.

(** [models.AgentListResponse] *)
Record AgentListResponse : Type := {
  agents_Agents : list Agent;
  agents_Count : Z
}.

(** ** the standard server, further *)

(** The commands of the registry that the broker does not use. *)
Inductive StoreCmd : Type :=
  | SET (key value : string) (expiration : Z)
  | SADD (key member : string)
  | SREM (key member : string)
  | SMEMBERS (key : string)
  | DEL (key : string).

(** The world with the set keys of the standard server and the registry's
    own commands; a set is the list of its members, without repetition. *)
Record Store : Type := {
  st_world : World;
  st_sets : gmap string (list string);
  st_cmds : list StoreCmd
}.

Definition set_world (f : World → World) (s : Store) : Store :=
  {| st_world := f (st_world s); st_sets := st_sets s; st_cmds := st_cmds s |}.

Definition set_sets (f : gmap string (list string) → gmap string (list string))
    (s : Store) : Store :=
  {| st_world := st_world s; st_sets := f (st_sets s); st_cmds := st_cmds s |}.

Definition set_cmds (f : list StoreCmd → list StoreCmd) (s : Store) : Store :=
  {| st_world := st_world s; st_sets := st_sets s; st_cmds := f (st_cmds s) |}.

Definition set_strings (f : gmap string string → gmap string string)
    (w : World) : World :=
  {| w_trace := w_trace w; w_published := w_published w;
     w_lists := w_lists w; w_strings := f (w_strings w); w_expire := w_expire w;
     w_uuids := w_uuids w; w_now := w_now w; w_stdout := w_stdout w |}.

Definition set_now (f : Z → Z) (w : World) : World :=
  {| w_trace := w_trace w; w_published := w_published w;
     w_lists := w_lists w; w_strings := w_strings w; w_expire := w_expire w;
     w_uuids := w_uuids w; w_now := f (w_now w); w_stdout := w_stdout w |}.

(** What the registry cannot decide for itself, beside the [Runtime]: the
    encoder of agents, which of its own commands fail ([store_fails n] for
    the [n]-th of them), and how far the clock has moved at the next
    reading. *)
Class RegistryRuntime : Type := {
  json_MarshalAgent : Agent → option string;
  store_fails : nat → bool;
  clock_next : Z → Z
}.

(** Two worlds that differ at most by the keys of the standard server. *)
Definition same_process (w w' : World) : Prop :=
  w_trace w' = w_trace w ∧ w_uuids w' = w_uuids w ∧ w_now w' = w_now w ∧
  w_published w' = w_published w ∧ w_stdout w' = w_stdout w.

Definition RIO (A : Type) : Type := Store → A * Store.

#[global] Instance RIO_ret : MRet RIO := λ A a s, (a, s).
#[global] Instance RIO_bind : MBind RIO :=
  λ A B f m s, let '(a, s') := m s in f a s'.

(** Runs a computation of the broker's world in the store. *)
Definition lift {A : Type} (m : IO A) : RIO A :=
  λ s, let '(a, w') := m (st_world s) in (a, set_world (λ _, w') s).

(** The members of the set stored under [key]; a missing key is the empty
    set. *)
Definition members_at (key : string) (s : Store) : list string :=
  default [] (st_sets s !! key).

Definition store_set (key : string) (l : list string)
    (m : gmap string (list string)) : gmap string (list string) :=
  match l with
  | [] => delete key m
  | _ => <[key := l]> m
  end.

Section Registry.
Context `{Runtime} `{RegistryRuntime}.

Definition store_send (c : StoreCmd) : RIO bool :=
  λ s, (store_fails (length (st_cmds s)), set_cmds (λ t, t ++ [c]) s).

Definition modify_store (f : Store → Store) : RIO unit := λ s, ((), f s).

(** [time.Now()], after which the clock has moved. *)
Definition registry_Now : RIO Z :=
  λ s, (w_now (st_world s), set_world (set_now clock_next) s).

(** [client.Set(ctx, key, value, expiration).Err()]: the key becomes a
    string key, whatever it held, with the expiration given, none for 0. *)
Definition Set_ (key value : string) (expiration : Z) : RIO (option error) :=
  failed ← store_send (SET key value expiration);
  if failed : bool then mret (Some redis_Failure)
  else
    _ ← modify_store (λ s,
          set_sets (delete key)
            (set_world (λ w,
               set_expire (if bool_decide (expiration = 0) then delete key
                           else <[key := expiration]>)
                 (set_lists (delete key)
                    (set_strings <[key := value]> w))) s));
    mret None.

(** [client.SAdd(ctx, key, member).Err()] *)
Definition SAdd (key member : string) : RIO (option error) :=
  failed ← store_send (SADD key member);
  if failed : bool then mret (Some redis_Failure)
  else
    _ ← modify_store (λ s,
          if bool_decide (member ∈ members_at key s) then s
          else set_sets <[key := members_at key s ++ [member]]> s);
    mret None.

(** [client.SRem(ctx, key, member).Err()] *)
Definition SRem (key member : string) : RIO (option error) :=
  failed ← store_send (SREM key member);
  if failed : bool then mret (Some redis_Failure)
  else
    _ ← modify_store (λ s,
          set_sets
            (store_set key (filter (λ m, m ≠ member) (members_at key s))) s);
    mret None.

(** [client.SMembers(ctx, key).Result()] *)
Definition SMembers (key : string) : RIO (result (list string)) :=
  failed ← store_send (SMEMBERS key);
  if failed : bool then mret (Err redis_Failure)
  else λ s, (Ok (members_at key s), s).

(** [client.Del(ctx, key).Err()] *)
Definition Del (key : string) : RIO (option error) :=
  failed ← store_send (DEL key);
  if failed : bool then mret (Some redis_Failure)
  else
    _ ← modify_store (λ s,
          set_sets (delete key)
            (set_world (λ w,
               set_expire (delete key)
                 (set_lists (delete key)
                    (set_strings (delete key) w))) s));
    mret None.

(** ** registry/agent_registry.go *)

Definition agentIndexKey : string := "agents:index".
(** [5 * time.Minute], in nanoseconds *)
Definition agentHeartbeatTTL : Z := 5 * 60000000000.

(** [t.Unix()] of a time in nanoseconds since the epoch. *)
Definition Unix (t : Z) : Z := t `div` 1000000000.

Definition with_LastSeen (agent : Agent) (t : Z) : Agent :=
  {| agent_ID := agent_ID agent; agent_Name := agent_Name agent;
     agent_Type := agent_Type agent;
     agent_Capabilities := agent_Capabilities agent;
     agent_Endpoint := agent_Endpoint agent;
     agent_Status := agent_Status agent;
     agent_Metadata := agent_Metadata agent;
     agent_CreatedAt := agent_CreatedAt agent;
     agent_LastSeen := t |}.

Definition updateHeartbeat (agentID : string) : RIO (option error) :=
  let heartbeatKey := "agent:heartbeat:" +:+ agentID in
  t ← registry_Now;
  e ← Set_ heartbeatKey (pretty (Unix t)) agentHeartbeatTTL;
  match e with
  | Some err => mret (Some (Errorf "failed to update heartbeat: " err))
  | None =>
    let agentKey := agentKeyPrefix +:+ agentID in
    r ← lift (Get_Bytes agentKey);
    match r with
    | Err err => mret (Some (Errorf "failed to get agent for heartbeat: " err))
    | Ok data =>
      match json_UnmarshalAgent data with
      | None => mret (Some (Errorf "failed to unmarshal agent: " json_Failure))
      | Some agent =>
        now ← registry_Now;
        let agent := with_LastSeen agent now in
        match json_MarshalAgent agent with
        | None => mret (Some (Errorf "failed to marshal agent: " json_Failure))
        | Some updatedData =>
          e ← Set_ agentKey updatedData 0;
          match e with
          | Some err =>
              mret (Some (Errorf "failed to save agent after heartbeat: " err))
          | None => mret None
          end
        end
      end
    end
  end.

(** The agent [Register] builds. *)
Definition newAgent (agentID : string) (now : Z) (req : RegisterAgentRequest)
    : Agent :=
  {| agent_ID := agentID;
     agent_Name := reg_Name req;
     agent_Type := reg_Type req;
     agent_Capabilities := reg_Capabilities req;
     agent_Endpoint := reg_Endpoint req;
     agent_Status := StatusOnline;
     agent_Metadata := reg_Metadata req;
     agent_CreatedAt := now;
     agent_LastSeen := now |}.

Definition AgentRegistry_Register (req : RegisterAgentRequest)
    : RIO (result Agent) :=
  agentID ← lift uuid_New;
  now ← registry_Now;
  let agent := newAgent agentID now req in
  let agentKey := agentKeyPrefix +:+ agentID in
  match json_MarshalAgent agent with
  | None => mret (Err (Errorf "failed to marshal agent: " json_Failure))
  | Some data =>
    e ← Set_ agentKey data 0;
    match e with
    | Some err => mret (Err (Errorf "failed to store agent: " err))
    | None =>
      e ← SAdd agentIndexKey agentID;
      match e with
      | Some err => mret (Err (Errorf "failed to add agent to index: " err))
      | None =>
        e ← updateHeartbeat agentID;
        match e with
        | Some err => mret (Err err)
        | None => mret (Ok agent)
        end
      end
    end
  end.

(** The loop of [List]: looks each id up and skips those it cannot get. *)
Fixpoint getEach (agentIDs : list string) (agents : list Agent)
    : RIO (list Agent) :=
  match agentIDs with
  | [] => mret agents
  | agentID :: rest =>
    r ← lift (AgentRegistry_Get agentID);
    match r with
    | Err _ => getEach rest agents
    | Ok agent => getEach rest (agents ++ [agent])
    end
  end.

Definition AgentRegistry_List : RIO (result (list Agent)) :=
  r ← SMembers agentIndexKey;
  match r with
  | Err err => mret (Err (Errorf "failed to get agent index: " err))
  | Ok agentIDs =>
    if bool_decide (length agentIDs = 0%nat) then mret (Ok [])
    else
      agents ← getEach agentIDs [];
      mret (Ok agents)
  end.

(** The "Update fields if provided" block of [Update]. *)
Definition applyUpdate (agent : Agent) (req : UpdateAgentRequest) : Agent :=
  {| agent_ID := agent_ID agent;
     agent_Name :=
       if negb (String.eqb (upd_Name req) "") then upd_Name req
       else agent_Name agent;
     agent_Type :=
       if negb (String.eqb (upd_Type req) "") then upd_Type req
       else agent_Type agent;
     agent_Capabilities :=
       if bool_decide (0 < length (upd_Capabilities req))%nat
       then upd_Capabilities req else agent_Capabilities agent;
     agent_Endpoint :=
       if negb (String.eqb (upd_Endpoint req) "") then upd_Endpoint req
       else agent_Endpoint agent;
     agent_Status :=
       if negb (String.eqb (upd_Status req) "") then upd_Status req
       else agent_Status agent;
     agent_Metadata :=
       match upd_Metadata req with
       | Some metadata => metadata
       | None => agent_Metadata agent
       end;
     agent_CreatedAt := agent_CreatedAt agent;
     agent_LastSeen := agent_LastSeen agent |}.

Definition AgentRegistry_Update (agentID : string) (req : UpdateAgentRequest)
    : RIO (result Agent) :=
  r ← lift (AgentRegistry_Get agentID);
  match r with
  | Err err => mret (Err err)
  | Ok agent =>
    let agent := applyUpdate agent req in
    let agentKey := agentKeyPrefix +:+ agentID in
    match json_MarshalAgent agent with
    | None => mret (Err (Errorf "failed to marshal agent: " json_Failure))
    | Some data =>
      e ← Set_ agentKey data 0;
      match e with
      | Some err => mret (Err (Errorf "failed to update agent: " err))
      | None => mret (Ok agent)
      end
    end
  end.

Definition AgentRegistry_Unregister (agentID : string) : RIO (option error) :=
  r ← lift (AgentRegistry_Get agentID);
  match r with
  | Err err => mret (Some err)
  | Ok _ =>
    e ← SRem agentIndexKey agentID;
    match e with
    | Some err => mret (Some (Errorf "failed to remove agent from index: " err))
    | None =>
      let agentKey := agentKeyPrefix +:+ agentID in
      e ← Del agentKey;
      match e with
      | Some err => mret (Some (Errorf "failed to delete agent: " err))
      | None => mret None
      end
    end
  end.

Definition AgentRegistry_Heartbeat (agentID : string) : RIO (option error) :=
  r ← lift (AgentRegistry_Get agentID);
  match r with
  | Err err => mret (Some err)
  | Ok _ => updateHeartbeat agentID
  end.

(** ** the agent handlers *)

Inductive AgentResponse : Type :=
  | agent_Error (text : ErrorText) (code : Z)
  | agent_Registered (code : Z) (body : RegisterAgentResponse)
  | agent_Listed (code : Z) (body : AgentListResponse)
  | agent_JSON (code : Z) (body : Agent)
  | agent_Empty (code : Z).

Definition StatusCreated : Z := 201.
Definition StatusNoContent : Z := 204.

(** [Register]; the argument is the decoded body, [None] when it does not
    decode. *)
Definition AgentHandler_Register (body : option RegisterAgentRequest)
    : RIO AgentResponse :=
  match body with
  | None =>
      mret (agent_Error (Literal "invalid request body") StatusBadRequest)
  | Some req =>
    if String.eqb (reg_Name req) "" || String.eqb (reg_Type req) ""
    then mret (agent_Error (Literal "name and type are required")
                 StatusBadRequest)
    else
      r ← AgentRegistry_Register req;
      match r with
      | Err err =>
          mret (agent_Error (Error_of err) StatusInternalServerError)
      | Ok agent =>
          mret (agent_Registered StatusCreated
                  {| regresp_ID := agent_ID agent;
                     regresp_Status := agent_Status agent |})
      end
  end.

Definition AgentHandler_List : RIO AgentResponse :=
  r ← AgentRegistry_List;
  match r with
  | Err err => mret (agent_Error (Error_of err) StatusInternalServerError)
  | Ok agents =>
      mret (agent_Listed StatusOK
              {| agents_Agents := agents;
                 agents_Count := Z.of_nat (length agents) |})
  end.

(** How the handlers of one agent answer an error of the registry. *)
Definition agentError (err : error) : AgentResponse :=
  if errors_Is err ErrAgentNotFound
  then agent_Error (Literal "agent not found") StatusNotFound
  else agent_Error (Error_of err) StatusInternalServerError.

Definition AgentHandler_Get (agentID : string) : RIO AgentResponse :=
  r ← lift (AgentRegistry_Get agentID);
  match r with
  | Err err => mret (agentError err)
  | Ok agent => mret (agent_JSON StatusOK agent)
  end.

Definition AgentHandler_Update (agentID : string)
    (body : option UpdateAgentRequest) : RIO AgentResponse :=
  match body with
  | None =>
      mret (agent_Error (Literal "invalid request body") StatusBadRequest)
  | Some req =>
    r ← AgentRegistry_Update agentID req;
    match r with
    | Err err => mret (agentError err)
    | Ok agent => mret (agent_JSON StatusOK agent)
    end
  end.

Definition AgentHandler_Delete (agentID : string) : RIO AgentResponse :=
  e ← AgentRegistry_Unregister agentID;
  match e with
  | Some err => mret (agentError err)
  | None => mret (agent_Empty StatusNoContent)
  end.

Definition AgentHandler_Heartbeat (agentID : string) : RIO AgentResponse :=
  e ← AgentRegistry_Heartbeat agentID;
  match e with
  | Some err => mret (agentError err)
  | None => mret (agent_Empty StatusOK)
  end.

(** None of the registry's own commands fails from the [t]-th on. *)
Definition store_healthy_from (t : nat) : Prop :=
  ∀ n, (t ≤ n)%nat → store_fails n = false.

End Registry.

(** ** fixtures for the registry *)
Module Office.
Import Fixture.

(** A codec for agents: a record is written as the id and the last-seen
    time of the agent, and read back through a table. *)
Definition codec (table : list (string * Agent)) (fails : nat → bool)
    : Runtime :=
  {| json_Marshal m := Some (ID m);
     json_Unmarshal raw := if String.eqb raw "" then None else Some (blank raw);
     json_UnmarshalAgent raw := (list_to_map table : gmap string Agent) !! raw;
     uuid_String n := "id-" +:+ pretty n;
     redis_fails := fails |}.

(** The clock moves by a second between two readings. *)
Definition clerk (fails : nat → bool) : RegistryRuntime :=
  {| json_MarshalAgent a :=
       Some (agent_ID a +:+ "@" +:+ pretty (agent_LastSeen a));
     store_fails := fails;
     clock_next t := t + 1000000000 |}.

Definition never (n : nat) : bool := false.
Definition only (k : nat) (n : nat) : bool := Nat.eqb n k.

(** The registration of a worker. *)
Definition worker : RegisterAgentRequest :=
  {| reg_Name := "worker"; reg_Type := "test"; reg_Capabilities := ["sum"];
     reg_Endpoint := ""; reg_Metadata := ∅ |}.

(** The agent that registration makes in [world], as returned and as
    stored after the heartbeat. *)
Definition hired : Agent := newAgent "id-0" (w_now world) worker.
Definition hired_seen : Agent :=
  with_LastSeen hired (w_now world + 2000000000).

(** The agent [a1] of [world], whose record is ["a1"]. *)
Definition a1 : Agent := agent "a1".
Definition a1_seen : Agent := with_LastSeen a1 (w_now world + 1000000000).

Definition renamed : UpdateAgentRequest :=
  {| upd_Name := "clerk"; upd_Type := ""; upd_Capabilities := [];
     upd_Endpoint := ""; upd_Status := "busy"; upd_Metadata := None |}.

Definition records : list (string * Agent) :=
  [("id-0@1700000000000000000", hired);
   ("id-0@1700000002000000000", hired_seen);
   ("a1", a1);
   ("a1@1700000001000000000", a1_seen);
   ("a1@0", applyUpdate a1 renamed)].

(** The server of [world], where [a1] is registered and indexed. *)
Definition office : Store :=
  {| st_world := world;
     st_sets := {[ "agents:index" := ["a1"] ]};
     st_cmds := [] |}.

End Office.

(** * Properties *)

Section Properties.
Context `{Runtime}.

Implicit Types (w : World) (msg : Message) (key data agentID : string).

(** The history key of an agent. *)
Local Abbreviation history_key agentID := (messageHistoryPrefix +:+ agentID).

(** ** running the monad *)

Lemma bind_run {A B} (m : IO A) (f : A → IO B) w :
  (m ≫= f) w = f (m w).1 (m w).2.
Proof. unfold mbind, IO_bind. by destruct (m w). Qed.

Lemma redis_send_run c w :
  redis_send c w =
    (redis_fails (length (w_trace w)), set_trace (λ t, t ++ [c]) w).
Proof. reflexivity. Qed.

(** ** strings *)

Lemma append_inj_r (p a b : string) : p +:+ a = p +:+ b → a = b.
Proof. induction p as [|c p IH]; simpl; [done | intros [= ?]; auto]. Qed.

Lemma history_key_inj (a b : string) : history_key a = history_key b → a = b.
Proof. apply append_inj_r. Qed.

Lemma eqb_broadcast (s : string) :
  String.eqb s "broadcast" = bool_decide (s = "broadcast").
Proof.
  destruct (String.eqb_spec s "broadcast").
  - by rewrite bool_decide_true.
  - by rewrite bool_decide_false.
Qed.

(** ** Redis ranges *)

Lemma redis_range_prefix (l : list string) (stop : Z) :
  0 ≤ stop → redis_range l 0 stop = take (Z.to_nat (stop + 1)) l.
Proof.
  intros Hstop. unfold redis_range.
  rewrite (bool_decide_false (0 < 0)) by lia.
  rewrite (bool_decide_false (stop < 0)) by lia.
  case_bool_decide as Hempty.
  - destruct l as [|x l]; [by rewrite take_nil | simpl in Hempty; lia].
  - rewrite drop_0.
    destruct (decide (stop ≤ Z.of_nat (length l) - 1)) as [Hle|Hgt].
    + rewrite Z.min_l by lia. f_equal. lia.
    + rewrite Z.min_r by lia. rewrite !take_ge by lia. done.
Qed.

(** ** the parsing loop *)

Lemma parseNewestLast_spec (messages : list string) (n : nat)
    (acc : list Message) :
  (n ≤ length messages)%nat →
  parseNewestLast messages n acc =
    acc ++ omap json_Unmarshal (reverse (take n messages)).
Proof.
  revert acc. induction n as [|i IH]; intros acc Hn; simpl.
  - by rewrite app_nil_r.
  - destruct (lookup_lt_is_Some_2 messages i) as [raw Hraw]; [lia|].
    rewrite Hraw. erewrite take_S_r by done.
    rewrite reverse_app. simpl.
    destruct (json_Unmarshal raw) as [msg|] eqn:Hparse.
    + rewrite IH by lia. by rewrite <- app_assoc.
    + rewrite IH by lia. done.
Qed.

Lemma parse_all (messages : list string) :
  parseNewestLast messages (length messages) [] =
    omap json_Unmarshal (reverse messages).
Proof. rewrite parseNewestLast_spec by done. by rewrite firstn_all. Qed.

(** ** reading a history *)

Lemma clamp_range limit : 0 < clamp limit ≤ messageHistoryMax.
Proof. unfold clamp, messageHistoryMax. case_bool_decide; lia. Qed.

Lemma GetMessageHistory_run agentID limit w :
  GetMessageHistory agentID limit w =
    (if redis_fails (length (w_trace w))
     then Err (Errorf "failed to get message history: " redis_Failure)
     else Ok (omap json_Unmarshal
                (reverse (take (Z.to_nat (clamp limit))
                               (list_at (history_key agentID) w)))),
     set_trace (λ t, t ++ [LRANGE (history_key agentID) 0 (clamp limit - 1)]) w).
Proof.
  pose proof (clamp_range limit) as Hc.
  unfold GetMessageHistory. fold (clamp limit).
  rewrite bind_run. unfold LRange. rewrite bind_run, redis_send_run. simpl.
  destruct (redis_fails (length (w_trace w))); [done|]. simpl.
  change (list_at ?k (set_trace ?f w)) with (list_at k w).
  rewrite redis_range_prefix by lia.
  replace (Z.to_nat (clamp limit - 1 + 1)) with (Z.to_nat (clamp limit)) by lia.
  case_bool_decide as Hlen.
  - apply nil_length_inv in Hlen. by rewrite Hlen.
  - by rewrite parse_all.
Qed.

(** ** the Redis commands, run *)

Ltac world_simpl :=
  unfold mret, IO_ret;
  cbn [w_trace w_published w_lists w_strings w_expire w_uuids w_now w_stdout
       set_trace set_published set_lists set_expire set_uuids set_stdout
       fst snd].

Lemma Publish_run channel data w :
  Publish channel data w =
    let w1 := set_trace (λ t, t ++ [PUBLISH channel data]) w in
    if redis_fails (length (w_trace w)) then (Some redis_Failure, w1)
    else (None, set_published (λ p, p ++ [(channel, data)]) w1).
Proof.
  unfold Publish. rewrite bind_run, redis_send_run. cbn [fst snd].
  by destruct (redis_fails _).
Qed.

Lemma LPush_run key data w :
  LPush key data w =
    let w1 := set_trace (λ t, t ++ [LPUSH key data]) w in
    if redis_fails (length (w_trace w)) then (Some redis_Failure, w1)
    else (None, set_lists (store_list key (data :: list_at key w)) w1).
Proof.
  unfold LPush. rewrite bind_run, redis_send_run. cbn [fst snd].
  by destruct (redis_fails _).
Qed.

Lemma LTrim_run key start stop w :
  LTrim key start stop w =
    let w1 := set_trace (λ t, t ++ [LTRIM key start stop]) w in
    if redis_fails (length (w_trace w)) then (Some redis_Failure, w1)
    else (None,
          set_lists (store_list key (redis_range (list_at key w) start stop)) w1).
Proof.
  unfold LTrim. rewrite bind_run, redis_send_run. cbn [fst snd].
  by destruct (redis_fails _).
Qed.

Lemma Expire_run key ttl w :
  Expire key ttl w =
    let w1 := set_trace (λ t, t ++ [EXPIRE key ttl]) w in
    if redis_fails (length (w_trace w)) then (Some redis_Failure, w1)
    else (None,
          match w_lists w !! key, w_strings w !! key with
          | None, None => w1
          | _, _ => set_expire <[key := ttl]> w1
          end).
Proof.
  unfold Expire. rewrite bind_run, redis_send_run. cbn [fst snd].
  by destruct (redis_fails _).
Qed.

(** ** appending to a history *)

(** [LPUSH] then [LTRIM 0 99] on the list keys. *)
Lemma push_then_trim key data (m : gmap string (list string)) :
  let m1 := store_list key (data :: default [] (m !! key)) m in
  store_list key
    (redis_range (default [] (m1 !! key)) 0 (messageHistoryMax - 1)) m1 =
  appended key data m.
Proof.
  cbn zeta. cbn [store_list]. rewrite lookup_insert_eq.
  change (default [] (Some ?l)) with l.
  rewrite redis_range_prefix by (unfold messageHistoryMax; lia).
  change (Z.to_nat (messageHistoryMax - 1 + 1)) with (S 99).
  unfold appended. change (Z.to_nat messageHistoryMax) with (S 99).
  rewrite !firstn_cons. cbn [store_list]. by rewrite insert_insert_eq.
Qed.

Lemma appended_lookup key data (m : gmap string (list string)) :
  appended key data m !! key =
    Some (take (Z.to_nat messageHistoryMax) (data :: default [] (m !! key))).
Proof. unfold appended. by rewrite lookup_insert_eq. Qed.

Lemma appended_lookup_ne key key' data (m : gmap string (list string)) :
  key ≠ key' → appended key data m !! key' = m !! key'.
Proof. intros. unfold appended. by rewrite lookup_insert_ne. Qed.

Lemma storeMessageHistory_unmarshalable agentID msg w :
  json_Marshal msg = None →
  storeMessageHistory agentID msg w =
    (Some (Errorf "failed to marshal message: " json_Failure), w).
Proof. intros Hm. unfold storeMessageHistory. by rewrite Hm. Qed.

(** With Redis answering, an append is [LPUSH], [LTRIM], [EXPIRE]. *)
Lemma storeMessageHistory_healthy agentID msg data w :
  json_Marshal msg = Some data →
  healthy_from (length (w_trace w)) →
  ∃ w', storeMessageHistory agentID msg w = (None, w') ∧
    w_lists w' = appended (history_key agentID) data (w_lists w) ∧
    w_trace w' = w_trace w ++
      [LPUSH (history_key agentID) data;
       LTRIM (history_key agentID) 0 (messageHistoryMax - 1);
       EXPIRE (history_key agentID) messageHistoryTTL] ∧
    w_expire w' = <[history_key agentID := messageHistoryTTL]> (w_expire w) ∧
    w_published w' = w_published w ∧ w_strings w' = w_strings w ∧
    w_uuids w' = w_uuids w ∧ w_now w' = w_now w ∧ w_stdout w' = w_stdout w.
Proof.
  intros Hm Hh. unfold storeMessageHistory. rewrite Hm.
  rewrite bind_run, LPush_run. cbn zeta.
  rewrite (Hh (length (w_trace w))) by lia. cbn [fst snd].
  rewrite bind_run, LTrim_run. cbn zeta. world_simpl.
  rewrite Hh by (rewrite length_app; lia). cbn [fst snd].
  rewrite bind_run, Expire_run. cbn zeta. world_simpl.
  rewrite Hh by (rewrite !length_app; lia). cbn [fst snd].
  unfold list_at. world_simpl. rewrite push_then_trim.
  rewrite appended_lookup.
  eexists. split; [reflexivity|]. world_simpl.
  split_and!; try done; [apply push_then_trim | by rewrite <- !app_assoc].
Qed.

(** Whatever Redis answers, an append sends one [LPUSH], touches no list
    but the agent's, publishes nothing and draws no UUID. *)
Lemma storeMessageHistory_frame agentID msg data w :
  json_Marshal msg = Some data →
  let w' := (storeMessageHistory agentID msg w).2 in
  (∃ cmds, w_trace w' = w_trace w ++ LPUSH (history_key agentID) data :: cmds ∧
           lpushes cmds = []) ∧
  (∀ key, key ≠ history_key agentID → w_lists w' !! key = w_lists w !! key) ∧
  w_published w' = w_published w ∧ w_uuids w' = w_uuids w ∧
  w_now w' = w_now w.
Proof.
  intros Hm. unfold storeMessageHistory. rewrite Hm.
  assert (Hframe : ∀ key l (m : gmap string (list string)),
    key ≠ history_key agentID →
    store_list (history_key agentID) l m !! key = m !! key).
  { intros key l m Hkey. destruct l; cbn [store_list].
    - by rewrite lookup_delete_ne.
    - by rewrite lookup_insert_ne. }
  rewrite bind_run, LPush_run. cbn zeta.
  destruct (redis_fails (length (w_trace w))); cbn [fst snd].
  { cbn zeta. world_simpl. repeat split; try done. by exists []. }
  rewrite bind_run, LTrim_run. cbn zeta. world_simpl.
  destruct (redis_fails _); cbn [fst snd].
  { cbn zeta. world_simpl. repeat split; try done.
    - eexists [_]. by rewrite <- app_assoc.
    - intros key Hkey. by rewrite Hframe. }
  rewrite bind_run, Expire_run. cbn zeta. world_simpl.
  destruct (redis_fails _); cbn [fst snd].
  - cbn zeta. world_simpl. repeat split; try done.
    + eexists [_; _]. by rewrite <- !app_assoc.
    + intros key Hkey. by rewrite !Hframe.
  - cbn zeta.
    match goal with |- context [match ?a with Some _ => _ | None => _ end] =>
      destruct a end.
    2: match goal with |- context [match ?a with Some _ => _ | None => _ end] =>
      destruct a end.
    all: world_simpl; repeat split; try done.
    all: try (eexists [_; _]; by rewrite <- !app_assoc).
    all: try (intros key Hkey; by rewrite !Hframe).
Qed.

(** ** sending *)

Lemma SendMessage_run fromAgentID req w :
  SendMessage fromAgentID req w =
    let msg := newMessage (uuid_String (w_uuids w)) (w_now w) fromAgentID req in
    let w1 := set_uuids S w in
    match json_Marshal msg with
    | None => (Err (Errorf "failed to marshal message: " json_Failure), w1)
    | Some data =>
      let channel := resolveChannel (req_ToAgent req) in
      let w2 := set_trace (λ t, t ++ [PUBLISH channel data]) w1 in
      if redis_fails (length (w_trace w))
      then (Err (Errorf "failed to publish message: " redis_Failure), w2)
      else recordHistories fromAgentID req msg
             (set_published (λ p, p ++ [(channel, data)]) w2)
    end.
Proof.
  unfold SendMessage. rewrite bind_run. unfold uuid_New at 1 2. cbn [fst snd].
  rewrite bind_run. unfold time_Now at 1 2. cbn [fst snd]. world_simpl.
  cbn zeta. destruct (json_Marshal _) as [data|]; [|done].
  rewrite bind_run, Publish_run. cbn zeta. world_simpl.
  by destruct (redis_fails _).
Qed.

(** Sending returns the message as soon as it is published, whatever
    happens to the appends. *)
Lemma recordHistories_result fromAgentID req msg w :
  (recordHistories fromAgentID req msg w).1 = Ok msg.
Proof.
  unfold recordHistories. rewrite !bind_run. reflexivity.
Qed.

Lemma lpushes_app (t1 t2 : list RedisCmd) :
  lpushes (t1 ++ t2) = lpushes t1 ++ lpushes t2.
Proof. apply omap_app. Qed.

Lemma lpushes_cons key data (t : list RedisCmd) :
  lpushes (LPUSH key data :: t) = (key, data) :: lpushes t.
Proof. reflexivity. Qed.

Lemma recordHistories_frame fromAgentID req msg data w :
  json_Marshal msg = Some data →
  let w' := (recordHistories fromAgentID req msg w).2 in
  (∃ cmds, w_trace w' = w_trace w ++ cmds ∧
     lpushes cmds =
       (λ a, (history_key a, data)) <$>
         history_targets fromAgentID (req_ToAgent req)) ∧
  (∀ key,
     key ∉ (λ a, history_key a) <$>
             history_targets fromAgentID (req_ToAgent req) →
     w_lists w' !! key = w_lists w !! key) ∧
  w_published w' = w_published w ∧ w_uuids w' = w_uuids w.
Proof.
  intros Hm. unfold recordHistories, history_targets.
  rewrite eqb_broadcast.
  rewrite bind_run.
  pose proof (storeMessageHistory_frame fromAgentID msg data w Hm) as Hs.
  destruct (storeMessageHistory fromAgentID msg w) as [e1 w1].
  cbn zeta in Hs. cbn [fst snd] in *.
  destruct Hs as ([c1 [Ht1 Hp1]] & Hl1 & Hpub1 & Hu1 & _).
  rewrite bind_run.
  set (w2 := (match e1 with Some err => fmt_Printf _ err | None => mret () end
                w1).2).
  assert (w_trace w2 = w_trace w1 ∧ w_lists w2 = w_lists w1 ∧
          w_published w2 = w_published w1 ∧ w_uuids w2 = w_uuids w1)
    as (Ht2 & Hl2 & Hpub2 & Hu2) by (subst w2; by destruct e1).
  clearbody w2. rewrite bind_run.
  case_bool_decide as Hb; cbn [negb]; world_simpl.
  - split_and!; [|intros key Hkey|congruence..].
    + exists (LPUSH (history_key fromAgentID) data :: c1).
      split; [congruence|]. by rewrite lpushes_cons, Hp1.
    + rewrite Hl2. apply Hl1. set_solver.
  - rewrite bind_run.
    pose proof (storeMessageHistory_frame (req_ToAgent req) msg data w2 Hm) as Hs.
    destruct (storeMessageHistory (req_ToAgent req) msg w2) as [e3 w3].
    cbn zeta in Hs. cbn [fst snd] in *.
    destruct Hs as ([c3 [Ht3 Hp3]] & Hl3 & Hpub3 & Hu3 & _).
    destruct e3 as [err|]; unfold fmt_Printf, modify; world_simpl.
    all: split_and!; [|intros key Hkey|congruence..].
    all: try (exists (LPUSH (history_key fromAgentID) data :: c1 ++
                      LPUSH (history_key (req_ToAgent req)) data :: c3);
              split;
              [ rewrite Ht3, Ht2, Ht1; by rewrite <- app_assoc
              | by rewrite lpushes_cons, lpushes_app, lpushes_cons, Hp1, Hp3 ]).
    all: rewrite Hl3, Hl2 by set_solver; apply Hl1; set_solver.
Qed.

Lemma recordHistories_healthy fromAgentID req msg data w :
  json_Marshal msg = Some data →
  healthy_from (length (w_trace w)) →
  let w' := (recordHistories fromAgentID req msg w).2 in
  w_lists w' =
    foldl (λ m a, appended (history_key a) data m) (w_lists w)
          (history_targets fromAgentID (req_ToAgent req)) ∧
  w_stdout w' = w_stdout w.
Proof.
  intros Hm Hh. unfold recordHistories, history_targets.
  rewrite eqb_broadcast.
  rewrite bind_run.
  destruct (storeMessageHistory_healthy fromAgentID msg data w Hm Hh)
    as (w1 & -> & Hl1 & Ht1 & _ & _ & _ & _ & _ & Ho1).
  cbn [fst snd]. rewrite bind_run. world_simpl.
  rewrite bind_run.
  case_bool_decide as Hb; cbn [negb]; world_simpl; [done|].
  rewrite bind_run.
  destruct (storeMessageHistory_healthy (req_ToAgent req) msg data w1 Hm)
    as (w2 & -> & Hl2 & _ & _ & _ & _ & _ & _ & Ho2).
  { intros n Hn. apply Hh. rewrite Ht1, length_app in Hn. lia. }
  world_simpl. cbn [foldl]. split; congruence.
Qed.

(** ** the claims about sending *)

(** C1: when publishing the serialized message on the resolved channel
    fails, [SendMessage] returns an error and attempts no history append:
    the only command sent is the [PUBLISH], and the list keys, their times
    to live and the pub/sub log are as before. *)
Theorem SendMessage_publish_failure fromAgentID req data w :
  json_Marshal (newMessage (uuid_String (w_uuids w)) (w_now w) fromAgentID req)
    = Some data →
  redis_fails (length (w_trace w)) = true →
  (SendMessage fromAgentID req w).1 =
    Err (Errorf "failed to publish message: " redis_Failure) ∧
  w_trace (SendMessage fromAgentID req w).2 =
    w_trace w ++ [PUBLISH (resolveChannel (req_ToAgent req)) data] ∧
  lpushes (w_trace (SendMessage fromAgentID req w).2) = lpushes (w_trace w) ∧
  w_lists (SendMessage fromAgentID req w).2 = w_lists w ∧
  w_expire (SendMessage fromAgentID req w).2 = w_expire w ∧
  w_published (SendMessage fromAgentID req w).2 = w_published w.
Proof.
  intros Hm Hfail. rewrite SendMessage_run. cbn zeta. rewrite Hm, Hfail.
  world_simpl. split_and!; try done.
  rewrite lpushes_app. cbn. by rewrite app_nil_r.
Qed.

(** C2: when the publish succeeds, [SendMessage] returns the constructed
    message and a nil error, whichever of the later Redis commands fail:
    the result does not depend on the outcome of the history appends. *)
Theorem SendMessage_history_failure_tolerated fromAgentID req data w :
  json_Marshal (newMessage (uuid_String (w_uuids w)) (w_now w) fromAgentID req)
    = Some data →
  redis_fails (length (w_trace w)) = false →
  (SendMessage fromAgentID req w).1 =
    Ok (newMessage (uuid_String (w_uuids w)) (w_now w) fromAgentID req).
Proof.
  intros Hm Hpub. rewrite SendMessage_run. cbn zeta. rewrite Hm, Hpub.
  apply recordHistories_result.
Qed.

(** C3: a message to ["broadcast"] is published on ["agent:broadcast"] and
    appended to the sender's history only: one [LPUSH], on the sender's
    key, and no list of any other agent changes; in particular, the sender
    being an agent and not the sentinel, the list under
    ["agent:history:broadcast"] is left alone: no append is made on behalf
    of the recipient.  A message to any other recipient is
    published on ["agent:message:" + recipient] and appended to the
    sender's history and to the recipient's, in that order.  With Redis
    answering, the appends take effect as [LPUSH] then [LTRIM]. *)
Theorem SendMessage_history_targets fromAgentID req data w :
  json_Marshal (newMessage (uuid_String (w_uuids w)) (w_now w) fromAgentID req)
    = Some data →
  redis_fails (length (w_trace w)) = false →
  let toAgent := req_ToAgent req in
  let w' := (SendMessage fromAgentID req w).2 in
  let targets :=
    if bool_decide (toAgent = "broadcast") then [fromAgentID]
    else [fromAgentID; toAgent] in
  resolveChannel toAgent =
    (if bool_decide (toAgent = "broadcast") then "agent:broadcast"
     else "agent:message:" +:+ toAgent) ∧
  w_published w' = w_published w ++ [(resolveChannel toAgent, data)] ∧
  (∃ cmds,
     w_trace w' = w_trace w ++ PUBLISH (resolveChannel toAgent) data :: cmds ∧
     lpushes cmds = (λ a, (messageHistoryPrefix +:+ a, data)) <$> targets) ∧
  (∀ a, a ∉ targets →
     list_at (messageHistoryPrefix +:+ a) w' =
     list_at (messageHistoryPrefix +:+ a) w) ∧
  (toAgent = "broadcast" → fromAgentID ≠ "broadcast" →
     list_at "agent:history:broadcast" w' =
     list_at "agent:history:broadcast" w) ∧
  (healthy_from (length (w_trace w)) →
     w_lists w' =
       foldl (λ m a, appended (messageHistoryPrefix +:+ a) data m)
             (w_lists w) targets).
Proof.
  intros Hm Hpub toAgent w' targets.
  assert (Hw' : w' = (recordHistories fromAgentID req
      (newMessage (uuid_String (w_uuids w)) (w_now w) fromAgentID req)
      (set_published (λ p, p ++ [(resolveChannel toAgent, data)])
         (set_trace (λ t, t ++ [PUBLISH (resolveChannel toAgent) data])
            (set_uuids S w)))).2).
  { subst w'. rewrite SendMessage_run. cbn zeta. by rewrite Hm, Hpub. }
  clearbody w'. subst w'.
  split_and!.
  - unfold resolveChannel. by rewrite eqb_broadcast.
  - eapply recordHistories_frame in Hm as (_ & _ & -> & _). done.
  - eapply recordHistories_frame in Hm as ((cmds & -> & Hcmds) & _).
    world_simpl. exists cmds. split; [by rewrite <- app_assoc | done].
  - intros a Ha.
    eapply recordHistories_frame in Hm as (_ & Hl & _).
    unfold list_at. rewrite Hl; [done|].
    intros (b & Hb & Hin)%list_elem_of_fmap.
    apply history_key_inj in Hb as ->. done.
  - intros Hto Hfrom.
    eapply recordHistories_frame in Hm as (_ & Hl & _).
    unfold list_at. rewrite Hl; [done|].
    unfold history_targets. rewrite bool_decide_true by done.
    intros (b & Hb & ->%list_elem_of_singleton)%list_elem_of_fmap.
    apply (history_key_inj "broadcast") in Hb. done.
  - intros Hh. eapply recordHistories_healthy in Hm as [-> _]; [done|].
    world_simpl. intros n Hn. apply Hh. rewrite length_app in Hn. lia.
Qed.

Lemma SendMessage_history_published fromAgentID req data w :
  json_Marshal (newMessage (uuid_String (w_uuids w)) (w_now w) fromAgentID req)
    = Some data →
  redis_fails (length (w_trace w)) = false →
  w_published (SendMessage fromAgentID req w).2 =
    w_published w ++ [(resolveChannel (req_ToAgent req), data)].
Proof.
  intros Hm Hpub. rewrite SendMessage_run. cbn zeta. rewrite Hm, Hpub.
  eapply recordHistories_frame in Hm as (_ & _ & -> & _). done.
Qed.

(** ** the handler *)

Lemma SendMessage_Ok_inv fromAgentID req w msg w' :
  SendMessage fromAgentID req w = (Ok msg, w') →
  msg = newMessage (uuid_String (w_uuids w)) (w_now w) fromAgentID req ∧
  redis_fails (length (w_trace w)) = false ∧
  ∃ data, json_Marshal msg = Some data.
Proof.
  rewrite SendMessage_run. cbn zeta.
  destruct (json_Marshal _) as [data|] eqn:Hm; [|done].
  destruct (redis_fails _) eqn:Hpub; [done|].
  intros Hrun.
  pose proof (recordHistories_result fromAgentID req
    (newMessage (uuid_String (w_uuids w)) (w_now w) fromAgentID req)
    (set_published
       (λ p, p ++ [(resolveChannel (req_ToAgent req), data)])
       (set_trace
          (λ t, t ++ [PUBLISH (resolveChannel (req_ToAgent req)) data])
          (set_uuids S w)))) as Hres.
  rewrite Hrun in Hres. cbn [fst] in Hres. injection Hres as ->.
  split_and!; [done..|]. by exists data.
Qed.

(** Looking an agent up sends one [GET] and changes nothing else. *)
Lemma AgentRegistry_Get_frame agentID w :
  let w' := (AgentRegistry_Get agentID w).2 in
  w_trace w' = w_trace w ++ [GET (agentKeyPrefix +:+ agentID)] ∧
  w_published w' = w_published w ∧ w_lists w' = w_lists w ∧
  w_uuids w' = w_uuids w ∧ w_now w' = w_now w.
Proof.
  unfold AgentRegistry_Get, Get_Bytes. rewrite !bind_run, redis_send_run.
  cbn [fst snd]. destruct (redis_fails _); world_simpl; [done|].
  destruct (w_strings w !! _) as [raw|]; world_simpl; [|done].
  by destruct (json_UnmarshalAgent raw).
Qed.

Lemma withDefaultType_ToAgent req :
  req_ToAgent (withDefaultType req) = req_ToAgent req.
Proof. unfold withDefaultType. by destruct (String.eqb _ _). Qed.

(** A request is accepted only when the sender is registered, the body
    decodes, the recipient is not empty and the broker accepts the request
    with its kind defaulted. *)
Lemma Send_accepted_inv r w code body w' :
  Send r w = (http_JSON code body, w') →
  ∃ req msg,
    Body r = Some req ∧ req_ToAgent req ≠ "" ∧
    SendMessage (URLParam_id r) (withDefaultType req)
      (AgentRegistry_Get (URLParam_id r) w).2 = (Ok msg, w') ∧
    code = StatusAccepted ∧
    body = {| resp_MessageID := ID msg;
              resp_Timestamp := Timestamp msg;
              resp_Channel := "agent:message:" +:+ req_ToAgent req |}.
Proof.
  unfold Send. rewrite bind_run.
  destruct (AgentRegistry_Get (URLParam_id r) w) as [[agent|err] w1];
    cbn [fst snd].
  2: { by destruct (errors_Is err ErrAgentNotFound). }
  destruct (Body r) as [req|]; [|done].
  destruct (String.eqb_spec (req_ToAgent req) ""); [done|].
  rewrite bind_run.
  destruct (SendMessage (URLParam_id r) (withDefaultType req) w1)
    as [[msg|err] w2] eqn:Hsend; cbn [fst snd]; [|done].
  intros [= <- <- <-]. exists req, msg.
  split_and!; try done.
  by rewrite withDefaultType_ToAgent.
Qed.

(** C4, as the code has it: the broker gives the message the next UUID of
    the generator, which it consumes, copies the sender, the recipient, the
    kind, the payload, the correlation id and the time to live from its
    arguments as they are, and stamps the message with the current time;
    it is the [Send] handler that replaces an empty kind by ["message"]
    before it calls the broker, so that a request accepted through the
    handler with an empty kind yields a message of kind ["message"]. *)
Theorem message_construction :
  (∀ fromAgentID req w msg w',
     SendMessage fromAgentID req w = (Ok msg, w') →
     ID msg = uuid_String (w_uuids w) ∧ w_uuids w' = S (w_uuids w) ∧
     ((∀ i j, uuid_String i = uuid_String j → i = j) →
      ∀ n, (w_uuids w' ≤ n)%nat → uuid_String n ≠ ID msg) ∧
     FromAgent msg = fromAgentID ∧ ToAgent msg = req_ToAgent req ∧
     Type_ msg = req_Type req ∧ Payload msg = req_Payload req ∧
     CorrelationID msg = req_CorrelationID req ∧ TTL msg = req_TTL req ∧
     Timestamp msg = w_now w) ∧
  (∀ r w code body w',
     Send r w = (http_JSON code body, w') →
     ∃ req msg w1,
       Body r = Some req ∧
       SendMessage (URLParam_id r) (withDefaultType req) w1 = (Ok msg, w') ∧
       resp_MessageID body = ID msg ∧
       Type_ msg =
         (if bool_decide (req_Type req = "") then MessageTypeMessage
          else req_Type req)).
Proof.
  split.
  - intros fromAgentID req w msg w' Hsend.
    pose proof Hsend as (-> & Hpub & data & Hm)%SendMessage_Ok_inv.
    assert (Hu : w_uuids w' = S (w_uuids w)).
    { rewrite SendMessage_run in Hsend. cbn zeta in Hsend.
      rewrite Hm, Hpub in Hsend.
      eapply recordHistories_frame in Hm as (_ & _ & _ & Hu).
      rewrite Hsend in Hu. exact Hu. }
    split_and!; try done.
    intros Hinj n Hn Heq. apply Hinj in Heq. lia.
  - intros r w code body w' Hsend.
    apply Send_accepted_inv in Hsend as (req & msg & Hbody & _ & Hsend & _ & ->).
    exists req, msg, (AgentRegistry_Get (URLParam_id r) w).2.
    split_and!; try done.
    apply SendMessage_Ok_inv in Hsend as (-> & _). cbn.
    unfold withDefaultType.
    destruct (String.eqb_spec (req_Type req) "") as [Heq|Hne].
    + by rewrite bool_decide_true.
    + by rewrite bool_decide_false.
Qed.

(** C5: a request the [Send] handler accepts is answered with the channel
    ["agent:message:" + recipient], whereas the broker published on the
    resolved channel; for the recipient ["broadcast"] the answer says
    ["agent:message:broadcast"] and the message went out on
    ["agent:broadcast"], and the two agree exactly for the other
    recipients. *)
Theorem Send_reports_direct_channel r w code body w' :
  Send r w = (http_JSON code body, w') →
  ∃ req data,
    Body r = Some req ∧
    resp_Channel body = "agent:message:" +:+ req_ToAgent req ∧
    w_published w' =
      w_published w ++ [(resolveChannel (req_ToAgent req), data)] ∧
    (req_ToAgent req = "broadcast" →
       resp_Channel body = "agent:message:broadcast" ∧
       resolveChannel (req_ToAgent req) = "agent:broadcast") ∧
    (resp_Channel body = resolveChannel (req_ToAgent req) ↔
       req_ToAgent req ≠ "broadcast").
Proof.
  intros (req & msg & Hbody & _ & Hsend & _ & ->)%Send_accepted_inv.
  pose proof Hsend as (-> & Hpub & data & Hm)%SendMessage_Ok_inv.
  exists req, data. cbn [resp_Channel].
  pose proof (AgentRegistry_Get_frame (URLParam_id r) w) as Hget.
  cbn zeta in Hget. destruct Hget as (Htr & Hp & _ & Hu & Hnow).
  rewrite Hu, Hnow in Hm.
  split_and!; try done.
  - pose proof (SendMessage_history_published (URLParam_id r)
      (withDefaultType req) data (AgentRegistry_Get (URLParam_id r) w).2) as Hsp.
    rewrite Hsend, Hu, Hnow, Hp, withDefaultType_ToAgent in Hsp.
    by apply Hsp.
  - by intros ->.
  - unfold resolveChannel.
    destruct (String.eqb_spec (req_ToAgent req) "broadcast") as [->|Hne].
    + split; [discriminate | done].
    + done.
Qed.

(** ** the claims about the history *)


Lemma length_omap_le {A B} (f : A → option B) (l : list A) :
  (length (omap f l) ≤ length l)%nat.
Proof. induction l as [|x l IH]; cbn; [lia|]. destruct (f x); cbn; lia. Qed.

Lemma omap_round_trip (datas : list string) (msgs : list Message) :
  json_Unmarshal <$> datas = Some <$> msgs →
  omap json_Unmarshal datas = msgs.
Proof.
  revert msgs. induction datas as [|d ds IH]; intros [|m ms]; try done.
  intros [= Hd Hds]. cbn. rewrite Hd. f_equal. by apply IH.
Qed.






(** C7: for a limit between 1 and 100, [GetMessageHistory] takes the
    first [limit] stored entries, which are the newest, and returns them
    parsed in the reverse of their stored order.  So when the list holds,
    newest first, the serializations of the messages [sent] in the order
    they were sent, the answer is the [limit] latest of them, the earliest
    first. *)
Theorem GetMessageHistory_chronological agentID limit w :
  0 < limit ≤ messageHistoryMax →
  redis_fails (length (w_trace w)) = false →
  (GetMessageHistory agentID limit w).1 =
    Ok (omap json_Unmarshal
          (reverse (take (Z.to_nat limit)
                         (list_at (messageHistoryPrefix +:+ agentID) w)))) ∧
  ∀ (sent : list Message) (datas older : list string),
    json_Unmarshal <$> datas = Some <$> sent →
    list_at (messageHistoryPrefix +:+ agentID) w = reverse datas ++ older →
    (Z.to_nat limit ≤ length sent)%nat ∨ older = [] →
    (GetMessageHistory agentID limit w).1 =
      Ok (drop (length sent - Z.to_nat limit) sent).
Proof.
  intros Hlimit Hok.
  assert (Hc : clamp limit = limit).
  { unfold clamp. rewrite bool_decide_false; [done | lia]. }
  assert (Hrun : (GetMessageHistory agentID limit w).1 =
    Ok (omap json_Unmarshal
          (reverse (take (Z.to_nat limit) (list_at (history_key agentID) w))))).
  { rewrite GetMessageHistory_run. cbn [fst]. by rewrite Hok, Hc. }
  split; [done|].
  intros sent datas older Hu Hstored Hcase. rewrite Hrun, Hstored. f_equal.
  assert (Hlen : length datas = length sent).
  { pose proof (f_equal length Hu) as Hl. by rewrite !length_fmap in Hl. }
  assert (Htake : take (Z.to_nat limit) (reverse datas ++ older) =
                  take (Z.to_nat limit) (reverse datas)).
  { destruct Hcase as [Hle| ->].
    - rewrite take_app_le; [done | rewrite length_reverse; lia].
    - by rewrite app_nil_r. }
  rewrite Htake, take_reverse, reverse_involutive, Hlen.
  apply omap_round_trip. by rewrite fmap_drop, Hu, fmap_drop.
Qed.

(** C8: a limit that is not between 1 and 100 is replaced by 100: the call
    behaves as the call with limit 100, on the result and on the world, and
    it fails exactly when the [LRANGE] round trip fails. *)
Theorem GetMessageHistory_clamps agentID limit w :
  limit ≤ 0 ∨ limit > 100 →
  GetMessageHistory agentID limit w = GetMessageHistory agentID 100 w ∧
  (redis_fails (length (w_trace w)) = false →
   ∃ msgs, (GetMessageHistory agentID limit w).1 = Ok msgs ∧
           (length msgs ≤ 100)%nat) ∧
  ((∃ err, (GetMessageHistory agentID limit w).1 = Err err) →
   redis_fails (length (w_trace w)) = true).
Proof.
  intros Hout. rewrite !GetMessageHistory_run.
  assert (Hc : clamp limit = clamp 100).
  { unfold clamp, messageHistoryMax.
    rewrite bool_decide_true by done. by rewrite bool_decide_false by lia. }
  rewrite Hc. split_and!; [done| |].
  - intros ->. eexists. split; [done|].
    etransitivity; [apply length_omap_le|].
    rewrite length_reverse, length_take.
    change (Z.to_nat (clamp 100)) with 100%nat. lia.
  - destruct (redis_fails _); [done|]. by intros [err [=]].
Qed.

(** C9: when the [LRANGE] round trip succeeds [GetMessageHistory] returns
    no error, whatever is stored: the answer holds exactly the entries of
    the window that parse, each unparseable entry being left out, and it
    is empty when no stored entry parses. *)
Theorem GetMessageHistory_skips_malformed agentID limit w :
  redis_fails (length (w_trace w)) = false →
  ∃ msgs,
    (GetMessageHistory agentID limit w).1 = Ok msgs ∧
    msgs =
      omap json_Unmarshal
        (reverse (take (Z.to_nat (clamp limit))
                       (list_at (messageHistoryPrefix +:+ agentID) w))) ∧
    (∀ msg, msg ∈ msgs ↔
       ∃ raw, raw ∈ take (Z.to_nat (clamp limit))
                        (list_at (messageHistoryPrefix +:+ agentID) w) ∧
              json_Unmarshal raw = Some msg) ∧
    (Forall (λ raw, json_Unmarshal raw = None)
            (list_at (messageHistoryPrefix +:+ agentID) w) → msgs = []).
Proof.
  intros Hok. eexists. rewrite GetMessageHistory_run. cbn [fst]. rewrite Hok.
  split_and!; [done..| |].
  - intros msg. rewrite list_elem_of_omap.
    by setoid_rewrite elem_of_reverse.
  - intros Hall.
    assert (Hwin : Forall (λ raw, json_Unmarshal raw = None)
              (reverse (take (Z.to_nat (clamp limit))
                             (list_at (history_key agentID) w)))).
    { apply Forall_reverse. by apply Forall_take. }
    induction Hwin as [|raw l Hraw _ IH]; [done|]. cbn. by rewrite Hraw.
Qed.

(** C10: two distinct recipients other than ["broadcast"] resolve to
    distinct channels, ["agent:message:"] followed by the recipient, none
    of which is the broadcast channel; and ["broadcast"] resolves to
    ["agent:broadcast"], by a function of the recipient alone. *)
Theorem resolveChannel_injective (a b : string) :
  a ≠ "broadcast" → b ≠ "broadcast" → a ≠ b →
  resolveChannel a ≠ resolveChannel b ∧
  resolveChannel a = "agent:message:" +:+ a ∧
  resolveChannel a ≠ broadcastChannel ∧
  resolveChannel "broadcast" = broadcastChannel.
Proof.
  intros Ha Hb Hab. unfold resolveChannel.
  rewrite !eqb_broadcast, !bool_decide_false by done.
  split_and!; [|done|done|done].
  intros Heq. by apply append_inj_r in Heq.
Qed.

End Properties.

(** * The properties at work

    Each statement below runs the definitions on a fixture and applies the
    corresponding theorem there. *)

Section Runs.
Import Fixture.

(** The publish fails on a server that is down: an error, and no list. *)
Lemma SendMessage_publish_failure_witness :
  let req := request "b1" "message" in
  @json_Marshal down
    (newMessage (@uuid_String down (w_uuids world)) (w_now world) "a1" req)
    = Some "id-0" ∧
  @redis_fails down (length (w_trace world)) = true ∧
  (@SendMessage down "a1" req world).1 =
    Err (Errorf "failed to publish message: " redis_Failure) ∧
  w_lists (@SendMessage down "a1" req world).2 = w_lists world.
Proof.
  intros req.
  assert (Hm : @json_Marshal down
    (newMessage (@uuid_String down (w_uuids world)) (w_now world) "a1" req)
    = Some "id-0") by reflexivity.
  assert (Hf : @redis_fails down (length (w_trace world)) = true)
    by reflexivity.
  destruct (SendMessage_publish_failure (H:=down) "a1" req "id-0" world Hm Hf)
    as (Hr & _ & _ & Hl & _).
  exact (conj Hm (conj Hf (conj Hr Hl))).
Defined.

(** The publish succeeds and every later command fails: the message is
    returned all the same. *)
Lemma SendMessage_history_failure_tolerated_witness :
  let req := request "b1" "message" in
  @json_Marshal flaky
    (newMessage (@uuid_String flaky (w_uuids world)) (w_now world) "a1" req)
    = Some "id-0" ∧
  @redis_fails flaky (length (w_trace world)) = false ∧
  @redis_fails flaky 1 = true ∧
  (@SendMessage flaky "a1" req world).1 =
    Ok (newMessage "id-0" 1700000000000000000 "a1" req).
Proof.
  intros req.
  assert (Hm : @json_Marshal flaky
    (newMessage (@uuid_String flaky (w_uuids world)) (w_now world) "a1" req)
    = Some "id-0") by reflexivity.
  assert (Hp : @redis_fails flaky (length (w_trace world)) = false)
    by reflexivity.
  exact (conj Hm (conj Hp (conj eq_refl
    (SendMessage_history_failure_tolerated (H:=flaky)
       "a1" req "id-0" world Hm Hp)))).
Defined.

(** A broadcast of [a1]: published on the broadcast channel, one [LPUSH],
    and the history keyed by ["broadcast"] stays empty. *)
Lemma SendMessage_history_targets_witness :
  let req := request "broadcast" "event" in
  let w' := (@SendMessage runtime "a1" req world).2 in
  @json_Marshal runtime
    (newMessage (@uuid_String runtime (w_uuids world)) (w_now world) "a1" req)
    = Some "id-0" ∧
  @redis_fails runtime (length (w_trace world)) = false ∧
  w_published w' = [("agent:broadcast", "id-0")] ∧
  list_at "agent:history:broadcast" w' = [].
Proof.
  intros req w'.
  assert (Hm : @json_Marshal runtime
    (newMessage (@uuid_String runtime (w_uuids world)) (w_now world) "a1" req)
    = Some "id-0") by reflexivity.
  assert (Hp : @redis_fails runtime (length (w_trace world)) = false)
    by reflexivity.
  destruct (SendMessage_history_targets (H:=runtime) "a1" req "id-0" world Hm Hp)
    as (_ & Hpub & _ & _ & Hkey & _).
  refine (conj Hm (conj Hp (conj Hpub _))).
  apply Hkey; [reflexivity | discriminate].
Defined.

(** C4, as stated, fails on the broker: called with an empty kind it
    returns a message whose kind is empty, not ["message"]. *)
Lemma SendMessage_keeps_empty_kind :
  let req := request "b1" "" in
  ∃ msg,
    (@SendMessage runtime "a1" req world).1 = Ok msg ∧
    req_Type req = "" ∧ Type_ msg = "" ∧ Type_ msg ≠ MessageTypeMessage.
Proof.
  intros req. eexists. split; [reflexivity|]. by split_and!.
Qed.

(** Through the handler the same request comes out with kind
    ["message"]. *)
Lemma message_construction_witness :
  let r := {| URLParam_id := "a1"; Body := Some (request "b1" "") |} in
  (@Send runtime r world).1 =
    http_JSON 202
      {| resp_MessageID := "id-0"; resp_Timestamp := 1700000000000000000;
         resp_Channel := "agent:message:b1" |} ∧
  ∃ req msg w1,
    Body r = Some req ∧
    @SendMessage runtime "a1" (withDefaultType req) w1 =
      (Ok msg, (@Send runtime r world).2) ∧
    Type_ msg = "message".
Proof.
  intros r.
  assert (Hrun : @Send runtime r world =
    (http_JSON 202
       {| resp_MessageID := "id-0"; resp_Timestamp := 1700000000000000000;
          resp_Channel := "agent:message:b1" |},
     (@Send runtime r world).2)).
  { rewrite (surjective_pairing (@Send runtime r world)) at 1.
    apply pair_equal_spec. split; [vm_compute; reflexivity | reflexivity]. }
  split; [by rewrite Hrun|].
  destruct (proj2 (message_construction (H:=runtime)) r world _ _ _ Hrun)
    as (req & msg & w1 & Hbody & Hsend & _ & Htype).
  exists req, msg, w1. split_and!; [done..|].
  injection Hbody as <-. exact Htype.
Defined.

(** A broadcast through the handler: the answer names
    ["agent:message:broadcast"], the message went out on
    ["agent:broadcast"]. *)
Lemma Send_reports_direct_channel_witness :
  let r := {| URLParam_id := "a1";
              Body := Some (request "broadcast" "event") |} in
  (@Send runtime r world).1 =
    http_JSON 202
      {| resp_MessageID := "id-0"; resp_Timestamp := 1700000000000000000;
         resp_Channel := "agent:message:broadcast" |} ∧
  ∃ data,
    w_published (@Send runtime r world).2 = [("agent:broadcast", data)].
Proof.
  intros r.
  assert (Hrun : @Send runtime r world =
    (http_JSON 202
       {| resp_MessageID := "id-0"; resp_Timestamp := 1700000000000000000;
          resp_Channel := "agent:message:broadcast" |},
     (@Send runtime r world).2)).
  { rewrite (surjective_pairing (@Send runtime r world)) at 1.
    apply pair_equal_spec. split; [vm_compute; reflexivity | reflexivity]. }
  split; [by rewrite Hrun|].
  destruct (Send_reports_direct_channel (H:=runtime) r world _ _ _ Hrun)
    as (req & data & Hbody & _ & Hpub & _).
  exists data. injection Hbody as <-. exact Hpub.
Defined.


(** Three entries stored newest first, the two latest asked for: [m2]
    then [m3]. *)
Lemma GetMessageHistory_chronological_witness :
  0 < 2 ≤ messageHistoryMax ∧
  @redis_fails runtime (length (w_trace three_sent)) = false ∧
  (@GetMessageHistory runtime "a1" 2 three_sent).1 =
    Ok [blank "m2"; blank "m3"].
Proof.
  assert (Hl : 0 < 2 ≤ messageHistoryMax) by (unfold messageHistoryMax; lia).
  assert (Hok : @redis_fails runtime (length (w_trace three_sent)) = false)
    by reflexivity.
  refine (conj Hl (conj Hok _)).
  exact (proj1 (GetMessageHistory_chronological (H:=runtime)
                  "a1" 2 three_sent Hl Hok)).
Defined.

(** A limit of 100000 is served as a limit of 100. *)
Lemma GetMessageHistory_clamps_witness :
  (100000 ≤ 0 ∨ 100000 > 100) ∧
  @GetMessageHistory runtime "a1" 100000 three_sent =
    @GetMessageHistory runtime "a1" 100 three_sent.
Proof.
  assert (Hout : 100000 ≤ 0 ∨ 100000 > 100) by (right; lia).
  exact (conj Hout
    (proj1 (GetMessageHistory_clamps (H:=runtime) "a1" 100000 three_sent Hout))).
Defined.

(** One entry parses between two that do not: it is the answer. *)
Lemma GetMessageHistory_skips_malformed_witness :
  @redis_fails runtime (length (w_trace corrupted)) = false ∧
  ∃ msgs,
    (@GetMessageHistory runtime "a1" 10 corrupted).1 = Ok msgs ∧
    msgs = [blank "m2"].
Proof.
  assert (Hok : @redis_fails runtime (length (w_trace corrupted)) = false)
    by reflexivity.
  split; [exact Hok|].
  destruct (GetMessageHistory_skips_malformed (H:=runtime) "a1" 10 corrupted Hok)
    as (msgs & Hget & Hmsgs & _).
  exists msgs. split; [exact Hget|]. rewrite Hmsgs. reflexivity.
Defined.

(** Two agents, two channels. *)
Lemma resolveChannel_injective_witness :
  "a1" ≠ "broadcast" ∧ "b1" ≠ "broadcast" ∧ "a1" ≠ "b1" ∧
  resolveChannel "a1" ≠ resolveChannel "b1" ∧
  resolveChannel "a1" = "agent:message:a1".
Proof.
  assert (Ha : "a1" ≠ "broadcast") by discriminate.
  assert (Hb : "b1" ≠ "broadcast") by discriminate.
  assert (Hab : "a1" ≠ "b1") by discriminate.
  destruct (resolveChannel_injective "a1" "b1" Ha Hb Hab) as (Hne & Heq & _).
  exact (conj Ha (conj Hb (conj Hab (conj Hne Heq)))).
Defined.

End Runs.

(** * More properties of the broker and of the message handlers *)

Section BrokerFacts.
Context `{Runtime}.

Implicit Types (w : World) (msg : Message) (key data agentID : string).

Local Abbreviation history_key agentID := (messageHistoryPrefix +:+ agentID).

Ltac world_cbn :=
  unfold mret, IO_ret;
  cbn [w_trace w_published w_lists w_strings w_expire w_uuids w_now w_stdout
       set_trace set_published set_lists set_expire set_uuids set_stdout
       fst snd].

(** ** reading *)

(** Reading a history writes nothing: it sends one [LRANGE] and leaves the
    server, the counters and the output as they were, whether it succeeds
    or not; and it fails exactly when that [LRANGE] fails, with the error
    wrapped. *)
Theorem GetMessageHistory_never_writes agentID limit w :
  w_lists (GetMessageHistory agentID limit w).2 = w_lists w ∧
  w_expire (GetMessageHistory agentID limit w).2 = w_expire w ∧
  w_strings (GetMessageHistory agentID limit w).2 = w_strings w ∧
  w_published (GetMessageHistory agentID limit w).2 = w_published w ∧
  w_stdout (GetMessageHistory agentID limit w).2 = w_stdout w ∧
  w_uuids (GetMessageHistory agentID limit w).2 = w_uuids w ∧
  (∃ stop, 0 ≤ stop < messageHistoryMax ∧
     w_trace (GetMessageHistory agentID limit w).2 =
       w_trace w ++ [LRANGE (messageHistoryPrefix +:+ agentID) 0 stop]) ∧
  (redis_fails (length (w_trace w)) = true →
     (GetMessageHistory agentID limit w).1 =
       Err (Errorf "failed to get message history: " redis_Failure)) ∧
  (redis_fails (length (w_trace w)) = false →
     ∃ msgs, (GetMessageHistory agentID limit w).1 = Ok msgs).
Proof.
  rewrite GetMessageHistory_run. world_cbn. split_and!; try done.
  - exists (clamp limit - 1). split; [|done].
    pose proof (clamp_range limit). lia.
  - by intros ->.
  - intros ->. by eexists.
Qed.

(** An agent nothing is stored for has an empty history, not an error. *)
Theorem GetMessageHistory_no_history agentID limit w :
  w_lists w !! (messageHistoryPrefix +:+ agentID) = None →
  redis_fails (length (w_trace w)) = false →
  (GetMessageHistory agentID limit w).1 = Ok [].
Proof.
  intros Hnone Hok. rewrite GetMessageHistory_run. cbn [fst]. rewrite Hok.
  unfold list_at. rewrite Hnone. cbn. by rewrite take_nil.
Qed.

(** A listing is never longer than the limit it is asked with, nor than
    100, nor than what is stored; when every stored entry parses it has
    exactly the smaller of the limit and of the number of entries. *)
Theorem GetMessageHistory_length agentID limit w msgs :
  (GetMessageHistory agentID limit w).1 = Ok msgs →
  (length msgs ≤ 100)%nat ∧
  (0 < limit → (length msgs ≤ Z.to_nat limit)%nat) ∧
  (length msgs ≤ length (list_at (messageHistoryPrefix +:+ agentID) w))%nat ∧
  (0 < limit ≤ 100 →
   Forall (λ raw, is_Some (json_Unmarshal raw))
          (list_at (messageHistoryPrefix +:+ agentID) w) →
   length msgs =
     Nat.min (Z.to_nat limit)
             (length (list_at (messageHistoryPrefix +:+ agentID) w))).
Proof.
  rewrite GetMessageHistory_run. cbn [fst].
  destruct (redis_fails _); [done|]. intros [= <-].
  pose proof (clamp_range limit) as Hc. unfold messageHistoryMax in Hc.
  pose proof (length_omap_le json_Unmarshal
    (reverse (take (Z.to_nat (clamp limit)) (list_at (history_key agentID) w))))
    as Hle.
  rewrite length_reverse, length_take in Hle.
  split_and!; [lia| |lia|].
  - intros Hpos.
    assert (Z.to_nat (clamp limit) ≤ Z.to_nat limit)%nat
      by (unfold clamp, messageHistoryMax; case_bool_decide; lia).
    lia.
  - intros Hlimit Hall.
    assert (Hcl : clamp limit = limit).
    { unfold clamp, messageHistoryMax. rewrite bool_decide_false; [done|lia]. }
    rewrite Hcl.
    assert (Hparse : ∀ l : list string,
      Forall (λ raw, is_Some (json_Unmarshal raw)) l →
      length (omap json_Unmarshal l) = length l).
    { induction 1 as [|raw l [m Hm] _ IH]; [done|]. cbn. rewrite Hm. cbn.
      by rewrite IH. }
    rewrite Hparse, length_reverse, length_take; [done|].
    apply Forall_reverse. by apply Forall_take.
Qed.

(** ** appending *)

(** An append succeeds exactly when the message serializes and the three
    commands [LPUSH], [LTRIM], [EXPIRE] all succeed; the key then expires
    in 24 hours, whatever time to live it had. *)
Theorem storeMessageHistory_nil_iff agentID msg w :
  let t := length (w_trace w) in
  ((storeMessageHistory agentID msg w).1 = None ↔
     is_Some (json_Marshal msg) ∧ redis_fails t = false ∧
     redis_fails (S t) = false ∧ redis_fails (S (S t)) = false) ∧
  ((storeMessageHistory agentID msg w).1 = None →
     w_expire (storeMessageHistory agentID msg w).2
       !! (messageHistoryPrefix +:+ agentID) = Some messageHistoryTTL ∧
     ∀ key, key ≠ messageHistoryPrefix +:+ agentID →
       w_expire (storeMessageHistory agentID msg w).2 !! key =
       w_expire w !! key).
Proof.
  cbn zeta. unfold storeMessageHistory.
  destruct (json_Marshal msg) as [data|].
  2: { split; [|done]. split; [done|]. by intros [[? [=]] _]. }
  rewrite bind_run, LPush_run. cbn zeta.
  destruct (redis_fails (length (w_trace w))); cbn [fst snd].
  { split; [|done]. split; [done|]. by intros (_ & [=] & _). }
  rewrite bind_run, LTrim_run. cbn zeta. world_cbn.
  rewrite length_app, Nat.add_1_r.
  destruct (redis_fails (S (length (w_trace w)))); cbn [fst snd].
  { split; [|done]. split; [done|]. by intros (_ & _ & [=] & _). }
  rewrite bind_run, Expire_run. cbn zeta. world_cbn.
  rewrite !length_app, !Nat.add_1_r.
  destruct (redis_fails (S (S (length (w_trace w))))); cbn [fst snd].
  { split; [|done]. split; [done|]. by intros (_ & _ & _ & [=]). }
  split; [done|]. intros _.
  unfold list_at. world_cbn. rewrite push_then_trim, appended_lookup.
  world_cbn. split; [apply lookup_insert_eq|].
  intros key Hkey. by rewrite lookup_insert_ne.
Qed.

(** What an append leaves behind when one of its commands fails.  The
    error tells the step.  A failed [LPUSH] changes nothing; a failed
    [LTRIM] leaves the new entry pushed on an untrimmed list, which may
    then hold more than 100 entries; a failed [EXPIRE] leaves the list
    pushed and trimmed with its time to live not renewed. *)
Theorem storeMessageHistory_partial_failures agentID msg data w :
  json_Marshal msg = Some data →
  let t := length (w_trace w) in
  let key := messageHistoryPrefix +:+ agentID in
  let r := storeMessageHistory agentID msg w in
  (redis_fails t = true →
     r.1 = Some (Errorf "failed to push message to history: " redis_Failure) ∧
     w_lists r.2 = w_lists w ∧ w_expire r.2 = w_expire w ∧
     w_trace r.2 = w_trace w ++ [LPUSH key data]) ∧
  (redis_fails t = false → redis_fails (S t) = true →
     r.1 = Some (Errorf "failed to trim message history: " redis_Failure) ∧
     list_at key r.2 = data :: list_at key w ∧ w_expire r.2 = w_expire w ∧
     w_trace r.2 =
       w_trace w ++ [LPUSH key data; LTRIM key 0 (messageHistoryMax - 1)]) ∧
  (redis_fails t = false → redis_fails (S t) = false →
   redis_fails (S (S t)) = true →
     r.1 = Some (Errorf "failed to set message history TTL: " redis_Failure) ∧
     list_at key r.2 = take 100 (data :: list_at key w) ∧
     w_expire r.2 = w_expire w).
Proof.
  intros Hm t key r. subst t key r. unfold storeMessageHistory. rewrite Hm.
  rewrite bind_run, LPush_run. cbn zeta.
  destruct (redis_fails (length (w_trace w))); cbn [fst snd].
  { split_and!; [|done..]. intros _. world_cbn. done. }
  rewrite bind_run, LTrim_run. cbn zeta. world_cbn.
  rewrite length_app, Nat.add_1_r.
  destruct (redis_fails (S (length (w_trace w)))); cbn [fst snd].
  { split_and!; [done| |done]. intros _ _. world_cbn. unfold list_at.
    world_cbn. cbn [store_list]. rewrite lookup_insert_eq.
    split_and!; try done. by rewrite <- app_assoc. }
  rewrite bind_run, Expire_run. cbn zeta. world_cbn.
  rewrite !length_app, !Nat.add_1_r.
  destruct (redis_fails (S (S (length (w_trace w))))); cbn [fst snd].
  2: { by split_and!. }
  split_and!; [done..|]. intros _ _ _. world_cbn. unfold list_at. world_cbn.
  rewrite push_then_trim, appended_lookup. done.
Qed.

(** ** sending *)

(** A message that does not serialize is refused before anything is sent:
    no Redis command, nothing published, nothing stored or printed; the
    UUID drawn for it is spent. *)
Theorem SendMessage_marshal_failure fromAgentID req w :
  json_Marshal (newMessage (uuid_String (w_uuids w)) (w_now w) fromAgentID req)
    = None →
  SendMessage fromAgentID req w =
    (Err (Errorf "failed to marshal message: " json_Failure), set_uuids S w).
Proof. intros Hm. rewrite SendMessage_run. cbn zeta. by rewrite Hm. Qed.

Lemma SendMessage_trace_grows fromAgentID req w :
  (length (w_trace w) ≤ length (w_trace (SendMessage fromAgentID req w).2))%nat.
Proof.
  rewrite SendMessage_run. cbn zeta.
  destruct (json_Marshal _) as [data|] eqn:Hm; [|done].
  destruct (redis_fails _).
  - world_cbn. rewrite length_app. lia.
  - eapply recordHistories_frame in Hm as ((cmds & -> & _) & _).
    world_cbn. rewrite !length_app. lia.
Qed.

Lemma SendMessage_healthy_lists fromAgentID req data w :
  json_Marshal (newMessage (uuid_String (w_uuids w)) (w_now w) fromAgentID req)
    = Some data →
  healthy_from (length (w_trace w)) →
  w_lists (SendMessage fromAgentID req w).2 =
    foldl (λ m a, appended (history_key a) data m) (w_lists w)
          (history_targets fromAgentID (req_ToAgent req)).
Proof.
  intros Hm Hh. rewrite SendMessage_run. cbn zeta.
  rewrite Hm, (Hh _ (le_n _)).
  eapply recordHistories_healthy in Hm as [-> _]; [done|].
  world_cbn. intros n Hn. apply Hh. rewrite length_app in Hn. lia.
Qed.

(** With Redis answering, the entry of the message heads every history it
    was appended to. *)
Lemma SendMessage_heads_history fromAgentID req data agentID w :
  json_Marshal (newMessage (uuid_String (w_uuids w)) (w_now w) fromAgentID req)
    = Some data →
  healthy_from (length (w_trace w)) →
  agentID = fromAgentID ∨
    (agentID = req_ToAgent req ∧ req_ToAgent req ≠ "broadcast") →
  ∃ rest,
    list_at (history_key agentID) (SendMessage fromAgentID req w).2 =
      data :: rest ∧
    (list_at (history_key agentID) w = [] →
     fromAgentID ≠ req_ToAgent req → rest = []) ∧
    (fromAgentID = req_ToAgent req → req_ToAgent req ≠ "broadcast" →
     ∃ rest', rest = data :: rest').
Proof.
  intros Hm Hh Hagent.
  pose proof (SendMessage_healthy_lists fromAgentID req data w Hm Hh) as Hlists.
  unfold list_at. rewrite Hlists. clear Hlists. unfold history_targets.
  case_bool_decide as Hb; cbn [foldl].
  - destruct Hagent as [->|[_ ?]]; [|done].
    rewrite appended_lookup. change (Z.to_nat messageHistoryMax) with 100%nat.
    cbn [take default from_option id]. eexists. split_and!; [done| |done].
    intros Hnil _. unfold list_at in Hnil. by rewrite Hnil.
  - destruct (decide (fromAgentID = req_ToAgent req)) as [Heq|Hne].
    + assert (agentID = req_ToAgent req) as -> by (destruct Hagent as [->|[-> _]]; done).
      rewrite <- Heq. rewrite !appended_lookup.
      change (Z.to_nat messageHistoryMax) with 100%nat.
      cbn [take default from_option id]. eexists. split_and!; [done..|].
      intros _ _. by eexists.
    + destruct Hagent as [->|[-> _]].
      * rewrite appended_lookup_ne by (intros Hk%history_key_inj; done).
        rewrite appended_lookup.
        change (Z.to_nat messageHistoryMax) with 100%nat.
        cbn [take default from_option id]. eexists. split_and!; [done| |done].
        intros Hnil _. unfold list_at in Hnil. by rewrite Hnil.
      * rewrite appended_lookup.
        rewrite appended_lookup_ne by (intros Hk%history_key_inj; done).
        change (Z.to_nat messageHistoryMax) with 100%nat.
        cbn [take default from_option id]. eexists. split_and!; [done| |done].
        intros Hnil _. unfold list_at in Hnil. by rewrite Hnil.
Qed.

Lemma read_headed_history agentID limit data rest msg w :
  list_at (history_key agentID) w = data :: rest →
  json_Unmarshal data = Some msg →
  redis_fails (length (w_trace w)) = false →
  (GetMessageHistory agentID limit w).1 =
    Ok (omap json_Unmarshal
          (reverse (take (Z.to_nat (clamp limit) - 1) rest)) ++ [msg]).
Proof.
  intros Hlist Hu Hok. rewrite GetMessageHistory_run. cbn [fst].
  rewrite Hok, Hlist. f_equal.
  pose proof (clamp_range limit) as Hc.
  destruct (Z.to_nat (clamp limit)) as [|k] eqn:Hk; [lia|].
  rewrite firstn_cons, reverse_cons, omap_app. cbn. rewrite Hu.
  by rewrite Nat.sub_0_r.
Qed.

(** Round trip.  With Redis answering and a codec that reads the entry
    back, the history of the sender, and that of the recipient of a direct
    message, listed right after the send with any limit, ends with the
    message sent; it holds nothing else when the history was empty and the
    agent did not write to itself. *)
Theorem SendMessage_then_history fromAgentID req data agentID limit w :
  let msg :=
    newMessage (uuid_String (w_uuids w)) (w_now w) fromAgentID req in
  json_Marshal msg = Some data →
  json_Unmarshal data = Some msg →
  healthy_from (length (w_trace w)) →
  agentID = fromAgentID ∨
    (agentID = req_ToAgent req ∧ req_ToAgent req ≠ "broadcast") →
  ∃ earlier,
    (GetMessageHistory agentID limit (SendMessage fromAgentID req w).2).1 =
      Ok (earlier ++ [msg]) ∧
    (list_at (messageHistoryPrefix +:+ agentID) w = [] →
     fromAgentID ≠ req_ToAgent req → earlier = []).
Proof.
  intros msg Hm Hu Hh Hagent.
  destruct (SendMessage_heads_history fromAgentID req data agentID w Hm Hh Hagent)
    as (rest & Hlist & Hnil & _).
  eexists. split.
  - eapply read_headed_history; [done..|].
    apply Hh, SendMessage_trace_grows.
  - intros Hold Hne. rewrite (Hnil Hold Hne). by rewrite take_nil.
Qed.

(** An agent that writes to itself gets the message twice in its history:
    the sender's append and the recipient's both land on the one list. *)
Theorem SendMessage_to_self_twice fromAgentID req data limit w :
  let msg :=
    newMessage (uuid_String (w_uuids w)) (w_now w) fromAgentID req in
  json_Marshal msg = Some data →
  json_Unmarshal data = Some msg →
  healthy_from (length (w_trace w)) →
  req_ToAgent req = fromAgentID →
  fromAgentID ≠ "broadcast" →
  limit ≤ 0 ∨ 2 ≤ limit →
  ∃ earlier,
    (GetMessageHistory fromAgentID limit (SendMessage fromAgentID req w).2).1 =
      Ok (earlier ++ [msg; msg]).
Proof.
  intros msg Hm Hu Hh Hself Hnb Hlimit.
  destruct (SendMessage_heads_history fromAgentID req data fromAgentID w Hm Hh)
    as (rest & Hlist & _ & Htwice); [by left|].
  destruct Htwice as [rest' ->]; [done | by rewrite Hself|].
  erewrite read_headed_history; [|done..|apply Hh, SendMessage_trace_grows].
  assert (Hc : 2 ≤ clamp limit).
  { unfold clamp, messageHistoryMax. case_bool_decide; lia. }
  destruct (Z.to_nat (clamp limit) - 1)%nat as [|k] eqn:Hk; [lia|].
  rewrite firstn_cons, reverse_cons, omap_app. cbn. rewrite Hu.
  eexists. by rewrite <- app_assoc.
Qed.

Lemma storeMessageHistory_push_failure agentID msg data w :
  json_Marshal msg = Some data →
  redis_fails (length (w_trace w)) = true →
  storeMessageHistory agentID msg w =
    (Some (Errorf "failed to push message to history: " redis_Failure),
     set_trace (λ t, t ++ [LPUSH (history_key agentID) data]) w).
Proof.
  intros Hm Hf. unfold storeMessageHistory. rewrite Hm.
  rewrite bind_run, LPush_run. cbn zeta. by rewrite Hf.
Qed.

(** The pub/sub server answers and the standard server is down: the send
    succeeds, nothing is stored, and each append that was tried, one for a
    broadcast and two otherwise, leaves one warning on the output. *)
Theorem SendMessage_standard_server_down fromAgentID req data w :
  let msg :=
    newMessage (uuid_String (w_uuids w)) (w_now w) fromAgentID req in
  let failure := Errorf "failed to push message to history: " redis_Failure in
  json_Marshal msg = Some data →
  redis_fails (length (w_trace w)) = false →
  down_from (S (length (w_trace w))) →
  (SendMessage fromAgentID req w).1 = Ok msg ∧
  w_lists (SendMessage fromAgentID req w).2 = w_lists w ∧
  w_expire (SendMessage fromAgentID req w).2 = w_expire w ∧
  w_stdout (SendMessage fromAgentID req w).2 =
    w_stdout w ++
    ("Warning: failed to store sender message history: %v" +:+ LF, failure) ::
    (if bool_decide (req_ToAgent req = "broadcast") then []
     else [("Warning: failed to store receiver message history: %v" +:+ LF,
            failure)]).
Proof.
  intros msg failure Hm Hpub Hdown. rewrite SendMessage_run. cbn zeta.
  fold msg. rewrite Hm, Hpub. unfold recordHistories.
  rewrite bind_run, (storeMessageHistory_push_failure _ _ data) by
    (done || (world_cbn; apply Hdown; rewrite length_app; cbn; lia)).
  cbn [fst snd]. rewrite bind_run. unfold fmt_Printf, modify. cbn [fst snd].
  rewrite bind_run, eqb_broadcast.
  case_bool_decide as Hb; cbn [negb]; world_cbn; [done|].
  rewrite bind_run, (storeMessageHistory_push_failure _ _ data) by
    (done || (world_cbn; apply Hdown; rewrite !length_app; cbn; lia)).
  cbn [fst snd]. world_cbn. split_and!; try done.
  by rewrite <- app_assoc.
Qed.

(** ** looking a sender up *)

Lemma AgentRegistry_Get_run agentID w :
  AgentRegistry_Get agentID w =
    (if redis_fails (length (w_trace w))
     then Err (Errorf "failed to get agent: " redis_Failure)
     else match w_strings w !! (agentKeyPrefix +:+ agentID) with
          | None => Err ErrAgentNotFound
          | Some raw =>
            match json_UnmarshalAgent raw with
            | None => Err (Errorf "failed to unmarshal agent: " json_Failure)
            | Some agent => Ok agent
            end
          end,
     set_trace (λ t, t ++ [GET (agentKeyPrefix +:+ agentID)]) w).
Proof.
  unfold AgentRegistry_Get, Get_Bytes. rewrite !bind_run, redis_send_run.
  cbn [fst snd]. destruct (redis_fails _); [done|]. world_cbn.
  destruct (w_strings w !! _) as [raw|]; [|done]. cbn [fst snd].
  by destruct (json_UnmarshalAgent raw).
Qed.

(** [Get] answers "agent not found" exactly when the [GET] succeeds and
    the key is missing, and the agent exactly when the record is there and
    parses; neither a Redis failure nor a record that does not parse is
    ever mistaken for a missing agent by [errors.Is]. *)
Theorem AgentRegistry_Get_classification agentID w :
  let key := agentKeyPrefix +:+ agentID in
  let res := (AgentRegistry_Get agentID w).1 in
  (res = Err ErrAgentNotFound ↔
     redis_fails (length (w_trace w)) = false ∧ w_strings w !! key = None) ∧
  (∀ agent, res = Ok agent ↔
     redis_fails (length (w_trace w)) = false ∧
     ∃ raw, w_strings w !! key = Some raw ∧
            json_UnmarshalAgent raw = Some agent) ∧
  (∀ err, res = Err err →
     errors_Is err ErrAgentNotFound = true → err = ErrAgentNotFound).
Proof.
  cbn zeta. rewrite AgentRegistry_Get_run. cbn [fst].
  destruct (redis_fails _).
  { split_and!.
    - split; [done | by intros [[=] _]].
    - intros agent. split; [done | by intros [[=] _]].
    - by intros err [= <-]. }
  destruct (w_strings w !! _) as [raw|].
  2: { split_and!.
       - done.
       - intros agent. split; [done | by intros [_ (? & [=] & _)]].
       - by intros err [= <-]. }
  destruct (json_UnmarshalAgent raw) as [agent|] eqn:Hparse.
  - split_and!.
    + split; [done | by intros [_ [=]]].
    + intros agent'. split.
      * intros [= <-]. eauto.
      * intros [_ (raw' & [= <-] & Hp)]. congruence.
    + done.
  - split_and!.
    + split; [done | by intros [_ [=]]].
    + intros agent. split; [done|].
      intros [_ (raw' & [= <-] & Hp)]. congruence.
    + by intros err [= <-].
Qed.

(** ** the [Send] handler *)

Lemma SendMessage_Err_frame fromAgentID req w err :
  (SendMessage fromAgentID req w).1 = Err err →
  w_published (SendMessage fromAgentID req w).2 = w_published w ∧
  w_lists (SendMessage fromAgentID req w).2 = w_lists w ∧
  w_expire (SendMessage fromAgentID req w).2 = w_expire w ∧
  w_stdout (SendMessage fromAgentID req w).2 = w_stdout w ∧
  lpushes (w_trace (SendMessage fromAgentID req w).2) = lpushes (w_trace w).
Proof.
  rewrite SendMessage_run. cbn zeta.
  destruct (json_Marshal _) as [data|]; [|done].
  destruct (redis_fails _).
  - intros _. world_cbn. split_and!; try done.
    rewrite lpushes_app. cbn. by rewrite app_nil_r.
  - by rewrite recordHistories_result.
Qed.

(** A request answered with an error has published nothing and stored
    nothing: whatever the reason of the refusal, the pub/sub log, the
    lists, their times to live and the output are as before, and no
    [LPUSH] was sent. *)
Theorem Send_error_publishes_nothing r w text code w' :
  Send r w = (http_Error text code, w') →
  w_published w' = w_published w ∧ w_lists w' = w_lists w ∧
  w_expire w' = w_expire w ∧ w_stdout w' = w_stdout w ∧
  lpushes (w_trace w') = lpushes (w_trace w).
Proof.
  unfold Send. rewrite bind_run, AgentRegistry_Get_run. cbn [fst snd].
  set (w1 := set_trace _ w).
  assert (Hw1 : w_published w1 = w_published w ∧ w_lists w1 = w_lists w ∧
                w_expire w1 = w_expire w ∧ w_stdout w1 = w_stdout w ∧
                lpushes (w_trace w1) = lpushes (w_trace w)).
  { subst w1. world_cbn. split_and!; try done.
    rewrite lpushes_app. cbn. by rewrite app_nil_r. }
  clearbody w1.
  match goal with |- context [match ?g with Ok _ => _ | Err _ => _ end] =>
    destruct g as [agent|err] end.
  2: { destruct (errors_Is err ErrAgentNotFound); by intros [= _ _ <-]. }
  destruct (Body r) as [req|]; [|by intros [= _ _ <-]].
  destruct (String.eqb _ ""); [by intros [= _ _ <-]|].
  rewrite bind_run.
  destruct (SendMessage (URLParam_id r) (withDefaultType req) w1)
    as [[msg|err] w2] eqn:Hsend; cbn [fst snd]; [done|].
  intros [= _ _ <-].
  pose proof (SendMessage_Err_frame (URLParam_id r) (withDefaultType req) w1 err)
    as Hf.
  rewrite Hsend in Hf. cbn [fst snd] in Hf.
  destruct (Hf eq_refl) as (-> & -> & -> & -> & ->). exact Hw1.
Qed.

(** Looking the sender up comes first and decides alone when it fails: a
    sender that is not registered is answered 404, a lookup that fails or
    finds a record that does not parse is answered 500, and in each case
    the handler stops there: the [GET] is all it has done. *)
Theorem Send_sender_lookup_failure r w err :
  (AgentRegistry_Get (URLParam_id r) w).1 = Err err →
  Send r w =
    (if errors_Is err ErrAgentNotFound
     then http_Error (Literal "sender agent not found") StatusNotFound
     else http_Error (Error_of err) StatusInternalServerError,
     set_trace (λ t, t ++ [GET (agentKeyPrefix +:+ URLParam_id r)]) w) ∧
  (w_strings w !! (agentKeyPrefix +:+ URLParam_id r) = None →
   redis_fails (length (w_trace w)) = false →
   (Send r w).1 =
     http_Error (Literal "sender agent not found") StatusNotFound) ∧
  (redis_fails (length (w_trace w)) = true →
   (Send r w).1 =
     http_Error (Error_of (Errorf "failed to get agent: " redis_Failure))
                StatusInternalServerError).
Proof.
  intros Hget. unfold Send. rewrite bind_run.
  rewrite AgentRegistry_Get_run in *. cbn [fst snd] in *. rewrite Hget.
  split_and!.
  - by destruct (errors_Is err ErrAgentNotFound).
  - intros Hnone Hok. rewrite Hok, Hnone in Hget. by injection Hget as <-.
  - intros Hfail. rewrite Hfail in Hget. by injection Hget as <-.
Qed.

(** A registered sender whose request has no decodable body, or names no
    recipient, is answered 400 without the broker being called: no UUID is
    drawn and nothing but the [GET] is sent. *)
Theorem Send_invalid_request r w agent :
  (AgentRegistry_Get (URLParam_id r) w).1 = Ok agent →
  Body r = None ∨ (∃ req, Body r = Some req ∧ req_ToAgent req = "") →
  Send r w =
    (http_Error
       (Literal (match Body r with
                 | None => "invalid request body"
                 | Some _ => "to_agent is required"
                 end)) StatusBadRequest,
     set_trace (λ t, t ++ [GET (agentKeyPrefix +:+ URLParam_id r)]) w).
Proof.
  intros Hget Hbad. unfold Send. rewrite bind_run.
  rewrite AgentRegistry_Get_run in *. cbn [fst snd] in *. rewrite Hget.
  destruct Hbad as [->|(req & -> & Hto)]; [done|]. by rewrite Hto.
Qed.

(** A registered sender with a decoded request that names a recipient is
    answered 202 as soon as the message serializes and the publish
    succeeds, whatever happens to the history; the answer carries the id
    and the time of the message. *)
Theorem Send_accepts r w agent req data :
  let w1 := (AgentRegistry_Get (URLParam_id r) w).2 in
  let msg := newMessage (uuid_String (w_uuids w)) (w_now w) (URLParam_id r)
               (withDefaultType req) in
  (AgentRegistry_Get (URLParam_id r) w).1 = Ok agent →
  Body r = Some req →
  req_ToAgent req ≠ "" →
  json_Marshal msg = Some data →
  redis_fails (S (length (w_trace w))) = false →
  (Send r w).1 =
    http_JSON StatusAccepted
      {| resp_MessageID := uuid_String (w_uuids w);
         resp_Timestamp := w_now w;
         resp_Channel := "agent:message:" +:+ req_ToAgent req |}.
Proof.
  intros w1 msg Hget Hbody Hto Hm Hpub. unfold Send. rewrite bind_run.
  rewrite AgentRegistry_Get_run in *. cbn [fst snd] in *. rewrite Hget, Hbody.
  destruct (String.eqb_spec (req_ToAgent req) ""); [done|].
  rewrite bind_run, SendMessage_run. cbn zeta. world_cbn. fold msg.
  rewrite Hm. rewrite length_app, Nat.add_1_r, Hpub.
  rewrite recordHistories_result. cbn [fst snd].
  by rewrite withDefaultType_ToAgent.
Qed.

(** ** the [List] handler *)

(** The limit a query asks for: 50 unless the parameter spells a positive
    integer. *)
Lemma queryLimit_spec (limitStr : string) :
  queryLimit limitStr =
    match strconv_Atoi limitStr with
    | Some l => if bool_decide (l > 0) then l else 50
    | None => 50
    end.
Proof.
  unfold queryLimit. destruct (String.eqb_spec limitStr "") as [->|]; done.
Qed.

Lemma queryLimit_positive (limitStr : string) : 0 < queryLimit limitStr.
Proof.
  rewrite queryLimit_spec. destruct (strconv_Atoi limitStr); [|lia].
  case_bool_decide; lia.
Qed.

Lemma clamp_queryLimit (limitStr : string) :
  clamp (queryLimit limitStr) = servedLimit limitStr.
Proof.
  rewrite queryLimit_spec. unfold servedLimit, clamp, messageHistoryMax.
  destruct (strconv_Atoi limitStr) as [l|].
  - case_bool_decide; case_bool_decide; lia.
  - by rewrite bool_decide_false by lia.
Qed.

(** For a registered agent [List] reads the history once, asking for 50
    entries when the [limit] parameter is missing, is not a decimal
    integer or is not positive, and for the parameter capped at 100
    otherwise; it answers 200 with the messages and their count, at most
    that many, unless the read fails, which it answers 500. *)
Theorem List_serves_limit r w agent :
  let agentID := list_URLParam_id r in
  let served := servedLimit (Query_limit r) in
  let res := MessageHandler_List r w in
  (AgentRegistry_Get agentID w).1 = Ok agent →
  1 ≤ served ≤ 100 ∧
  w_trace res.2 =
    w_trace w ++ [GET (agentKeyPrefix +:+ agentID);
                  LRANGE (messageHistoryPrefix +:+ agentID) 0 (served - 1)] ∧
  (redis_fails (S (length (w_trace w))) = true →
     res.1 = list_Error
               (Error_of (Errorf "failed to get message history: "
                                 redis_Failure))
               StatusInternalServerError) ∧
  (redis_fails (S (length (w_trace w))) = false →
     ∃ msgs, res.1 = list_JSON StatusOK
                       {| list_Messages := msgs;
                          list_Count := Z.of_nat (length msgs) |} ∧
             Z.of_nat (length msgs) ≤ served ∧
             (GetMessageHistory agentID served
                (AgentRegistry_Get agentID w).2).1 = Ok msgs).
Proof.
  intros agentID served res Hget. subst res. unfold MessageHandler_List.
  fold agentID. rewrite bind_run.
  rewrite AgentRegistry_Get_run in *. cbn [fst snd] in *. rewrite Hget.
  rewrite bind_run, !GetMessageHistory_run. world_cbn.
  rewrite clamp_queryLimit. fold served.
  assert (Hserved : 1 ≤ served ≤ 100).
  { subst served. unfold servedLimit.
    destruct (strconv_Atoi _); [case_bool_decide|]; lia. }
  assert (Hclamp : clamp served = served).
  { unfold clamp, messageHistoryMax. rewrite bool_decide_false; [done|lia]. }
  rewrite Hclamp, length_app, Nat.add_1_r.
  destruct (redis_fails (S (length (w_trace w)))); world_cbn.
  - split_and!; try done; try lia. by rewrite <- app_assoc.
  - split_and!; try done; try lia; [by rewrite <- app_assoc|].
    intros _. eexists. split_and!; [done| |done].
    etransitivity; [apply inj_le, length_omap_le|].
    rewrite length_reverse, length_take. lia.
Qed.

(** For an agent that is not registered [List] answers 404, for a lookup
    that fails 500, and in both cases it does not read the history: the
    [GET] is all it sends. *)
Theorem List_agent_lookup_failure r w err :
  (AgentRegistry_Get (list_URLParam_id r) w).1 = Err err →
  MessageHandler_List r w =
    (if errors_Is err ErrAgentNotFound
     then list_Error (Literal "agent not found") StatusNotFound
     else list_Error (Error_of err) StatusInternalServerError,
     set_trace (λ t, t ++ [GET (agentKeyPrefix +:+ list_URLParam_id r)]) w) ∧
  (w_strings w !! (agentKeyPrefix +:+ list_URLParam_id r) = None →
   redis_fails (length (w_trace w)) = false →
   (MessageHandler_List r w).1 =
     list_Error (Literal "agent not found") StatusNotFound).
Proof.
  intros Hget. unfold MessageHandler_List. rewrite bind_run.
  rewrite AgentRegistry_Get_run in *. cbn [fst snd] in *. rewrite Hget.
  split.
  - by destruct (errors_Is err ErrAgentNotFound).
  - intros Hnone Hok. rewrite Hok, Hnone in Hget. by injection Hget as <-.
Qed.

(** ** sending, then listing *)

Lemma preserves_ret {A B} (field : World → B) (a : A) :
  preserves field (mret a : IO A).
Proof. by intros w. Qed.

Lemma preserves_bind {A B C} (field : World → C) (m : IO A) (f : A → IO B) :
  preserves field m → (∀ a, preserves field (f a)) →
  preserves field (m ≫= f).
Proof. intros Hm Hf w. rewrite bind_run. by rewrite Hf, Hm. Qed.

Lemma redis_send_strings c : preserves w_strings (redis_send c).
Proof. by intros w. Qed.

Lemma storeMessageHistory_strings agentID msg :
  preserves w_strings (storeMessageHistory agentID msg).
Proof.
  unfold storeMessageHistory, LPush, LTrim, Expire, modify.
  destruct (json_Marshal msg) as [data|]; [|apply preserves_ret].
  repeat first
    [ apply preserves_ret
    | apply preserves_bind; [|intros []]
    | apply redis_send_strings
    | by intros w
    | intros w; cbn [snd]; by repeat case_match ].
Qed.

Lemma SendMessage_strings fromAgentID req :
  preserves w_strings (SendMessage fromAgentID req).
Proof.
  unfold SendMessage, uuid_New, time_Now, Publish, fmt_Printf, modify.
  apply preserves_bind; [by intros w|]. intros id.
  apply preserves_bind; [by intros w|]. intros now.
  cbn zeta. destruct (json_Marshal _) as [data|]; [|apply preserves_ret].
  repeat first
    [ apply preserves_ret
    | apply storeMessageHistory_strings
    | apply redis_send_strings
    | apply preserves_bind; [|intros []]
    | match goal with |- preserves _ (if ?b then _ else _) => destruct b end
    | by intros w ].
Qed.

(** A message accepted by [Send] is the last of the sender's history as
    [List] returns it right after, whatever limit is asked for, when Redis
    answers and the codec reads the entry of the message back. *)
Theorem Send_then_List r req limitStr w code body w' :
  let msg := newMessage (uuid_String (w_uuids w)) (w_now w) (URLParam_id r)
               (withDefaultType req) in
  Body r = Some req →
  healthy_from (length (w_trace w)) →
  (∀ data, json_Marshal msg = Some data → json_Unmarshal data = Some msg) →
  Send r w = (http_JSON code body, w') →
  resp_MessageID body = ID msg ∧
  ∃ earlier,
    (MessageHandler_List
       {| list_URLParam_id := URLParam_id r; Query_limit := limitStr |} w').1 =
      list_JSON StatusOK
        {| list_Messages := earlier ++ [msg];
           list_Count := Z.of_nat (length earlier) + 1 |}.
Proof.
  intros msg Hbody Hh Hcodec Hsend.
  assert (Hagent : ∃ agent, (AgentRegistry_Get (URLParam_id r) w).1 = Ok agent).
  { revert Hsend. unfold Send. rewrite bind_run.
    destruct (AgentRegistry_Get (URLParam_id r) w).1 as [agent|err]; [eauto|].
    by destruct (errors_Is err ErrAgentNotFound). }
  destruct Hagent as [agent Hagent].
  apply Send_accepted_inv in Hsend
    as (req' & msg' & Hbody' & _ & Hsend & _ & ->).
  rewrite Hbody in Hbody'. injection Hbody' as <-.
  rewrite AgentRegistry_Get_run in Hsend, Hagent. cbn [fst snd] in Hsend, Hagent.
  rewrite (Hh _ (le_n _)) in Hagent.
  set (w1 := set_trace (λ t, t ++ [GET (agentKeyPrefix +:+ URLParam_id r)]) w)
    in *.
  assert (Hlen1 : length (w_trace w1) = S (length (w_trace w))).
  { subst w1. world_cbn. rewrite length_app. cbn. lia. }
  assert (Hh1 : healthy_from (length (w_trace w1))).
  { intros n Hn. apply Hh. lia. }
  pose proof Hsend as (Hmsg & _ & data & Hm)%SendMessage_Ok_inv.
  change (w_uuids w1) with (w_uuids w) in Hmsg.
  change (w_now w1) with (w_now w) in Hmsg. fold msg in Hmsg. subst msg'.
  split; [done|].
  destruct (SendMessage_heads_history (URLParam_id r) (withDefaultType req)
              data (URLParam_id r) w1 Hm Hh1) as (rest & Hhead & _);
    [by left|].
  pose proof (SendMessage_trace_grows (URLParam_id r) (withDefaultType req) w1)
    as Hgrow.
  pose proof (SendMessage_strings (URLParam_id r) (withDefaultType req) w1)
    as Hstr.
  rewrite Hsend in Hhead, Hgrow, Hstr. cbn [snd] in Hhead, Hgrow, Hstr.
  change (w_strings w1) with (w_strings w) in Hstr.
  unfold MessageHandler_List. cbn [list_URLParam_id Query_limit].
  rewrite bind_run, AgentRegistry_Get_run. cbn [fst snd].
  rewrite Hh by lia. rewrite Hstr, Hagent.
  rewrite bind_run.
  erewrite read_headed_history; [|exact Hhead|by apply Hcodec|].
  2: { world_cbn. apply Hh. rewrite length_app. lia. }
  unfold mret, IO_ret. cbn [fst snd]. eexists. do 2 f_equal.
  rewrite length_app. cbn. lia.
Qed.

(** ** subscriptions *)

Lemma feed_one (ps : PubSub) (channel data : string) :
  feed ps [(channel, data)] =
    if bool_decide (channel ∈ ps_channels ps) then [data] else [].
Proof.
  unfold feed. cbn.
  destruct (decide (channel ∈ ps_channels ps)).
  - by rewrite bool_decide_true.
  - by rewrite bool_decide_false.
Qed.

(** Routing.  A send that publishes publishes once.  The subscription of an
    agent is sent the message exactly when the agent is the recipient and
    the recipient is not ["broadcast"]; the broadcast subscription is sent
    it exactly when the recipient is ["broadcast"].  So the subscription
    [Subscribe "broadcast"], which listens on ["agent:message:broadcast"],
    is never sent anything by [SendMessage]. *)
Theorem SendMessage_routing fromAgentID req data agentID w :
  json_Marshal (newMessage (uuid_String (w_uuids w)) (w_now w) fromAgentID req)
    = Some data →
  redis_fails (length (w_trace w)) = false →
  let sent := published_since w (SendMessage fromAgentID req w).2 in
  sent = [(resolveChannel (req_ToAgent req), data)] ∧
  feed (Subscribe agentID) sent =
    (if bool_decide (agentID = req_ToAgent req ∧ req_ToAgent req ≠ "broadcast")
     then [data] else []) ∧
  feed SubscribeToBroadcast sent =
    (if bool_decide (req_ToAgent req = "broadcast") then [data] else []) ∧
  feed (Subscribe "broadcast") sent = [].
Proof.
  intros Hm Hpub sent.
  assert (Hsent : sent = [(resolveChannel (req_ToAgent req), data)]).
  { subst sent. unfold published_since.
    rewrite (SendMessage_history_published _ _ data) by done.
    by rewrite drop_app_length. }
  rewrite Hsent, !feed_one. unfold Subscribe, SubscribeToBroadcast,
    redis_Subscribe, resolveChannel. cbn [ps_channels].
  rewrite eqb_broadcast.
  split_and!; [done|..].
  all: repeat case_bool_decide; try done; exfalso.
  all: repeat match goal with
       | Hx : _ ∈ [_] |- _ => apply list_elem_of_singleton in Hx
       | Hx : ¬ (_ ∈ [_]) |- _ => rewrite list_elem_of_singleton in Hx
       | Hx : directMessageChannelPrefix +:+ _ =
              directMessageChannelPrefix +:+ _ |- _ =>
           apply append_inj_r in Hx
       end.
  all: try discriminate; try (intuition congruence).
  match goal with Hn : ¬ (_ ∧ _) |- _ => apply Hn; by split end.
Qed.

End BrokerFacts.

(** * The added properties at work *)

Section MoreRuns.
Import Fixture Scenario.

Lemma GetMessageHistory_no_history_witness :
  w_lists world !! ("agent:history:" +:+ "nobody") = None ∧
  @redis_fails runtime (length (w_trace world)) = false ∧
  (@GetMessageHistory runtime "nobody" 10 world).1 = Ok [].
Proof.
  assert (Hn : w_lists world !! (messageHistoryPrefix +:+ "nobody") = None)
    by reflexivity.
  assert (Hok : @redis_fails runtime (length (w_trace world)) = false)
    by reflexivity.
  exact (conj Hn (conj Hok
    (GetMessageHistory_no_history (H:=runtime) "nobody" 10 world Hn Hok))).
Defined.

Lemma GetMessageHistory_length_witness :
  (@GetMessageHistory runtime "a1" 2 three_sent).1 =
    Ok [blank "m2"; blank "m3"] ∧
  (length [blank "m2"; blank "m3"] ≤ Z.to_nat 2)%nat.
Proof.
  assert (Hget : (@GetMessageHistory runtime "a1" 2 three_sent).1 =
                 Ok [blank "m2"; blank "m3"]) by reflexivity.
  refine (conj Hget _).
  apply (GetMessageHistory_length (H:=runtime) "a1" 2 three_sent _ Hget).
  lia.
Defined.

(** The [LTRIM] fails on a history of three: four entries are left. *)
Lemma storeMessageHistory_partial_failures_witness :
  @json_Marshal (failing_at 1) (blank "m4") = Some "m4" ∧
  @redis_fails (failing_at 1) (length (w_trace three_sent)) = false ∧
  @redis_fails (failing_at 1) (S (length (w_trace three_sent))) = true ∧
  (@storeMessageHistory (failing_at 1) "a1" (blank "m4") three_sent).1 =
    Some (Errorf "failed to trim message history: " redis_Failure) ∧
  list_at "agent:history:a1"
    (@storeMessageHistory (failing_at 1) "a1" (blank "m4") three_sent).2 =
    ["m4"; "m3"; "m2"; "m1"].
Proof.
  assert (Hm : @json_Marshal (failing_at 1) (blank "m4") = Some "m4")
    by reflexivity.
  assert (H0 : @redis_fails (failing_at 1) (length (w_trace three_sent)) = false)
    by reflexivity.
  assert (H1 : @redis_fails (failing_at 1) (S (length (w_trace three_sent)))
               = true) by reflexivity.
  destruct (storeMessageHistory_partial_failures (H:=failing_at 1)
              "a1" (blank "m4") "m4" three_sent Hm) as (_ & Htrim & _).
  destruct (Htrim H0 H1) as (Herr & Hlist & _).
  exact (conj Hm (conj H0 (conj H1 (conj Herr Hlist)))).
Defined.

(** [a1] writes to [b1]: the history of [b1] is that one message. *)
Lemma SendMessage_then_history_witness :
  let msg := first_message "b1" "message" in
  let rt := reading msg always in
  @json_Marshal rt msg = Some "id-0" ∧
  @json_Unmarshal rt "id-0" = Some msg ∧
  @healthy_from rt (length (w_trace world)) ∧
  ∃ earlier,
    (@GetMessageHistory rt "b1" 10
       (@SendMessage rt "a1" (request "b1" "message") world).2).1 =
      Ok (earlier ++ [msg]) ∧
    earlier = [].
Proof.
  intros msg rt.
  assert (Hm : @json_Marshal rt msg = Some "id-0") by reflexivity.
  assert (Hu : @json_Unmarshal rt "id-0" = Some msg) by reflexivity.
  assert (Hh : @healthy_from rt (length (w_trace world)))
    by (intros n _; reflexivity).
  refine (conj Hm (conj Hu (conj Hh _))).
  destruct (SendMessage_then_history (H:=rt) "a1" (request "b1" "message")
              "id-0" "b1" 10 world Hm Hu Hh) as (earlier & Hget & Hnil).
  { right. split; [reflexivity | discriminate]. }
  exists earlier. split; [exact Hget|].
  apply Hnil; [reflexivity | discriminate].
Defined.

(** [a1] writes to itself: its history holds the message twice. *)
Lemma SendMessage_to_self_twice_witness :
  let msg := first_message "a1" "message" in
  let rt := reading msg always in
  @json_Marshal rt msg = Some "id-0" ∧
  @json_Unmarshal rt "id-0" = Some msg ∧
  @healthy_from rt (length (w_trace world)) ∧
  ∃ earlier,
    (@GetMessageHistory rt "a1" 10
       (@SendMessage rt "a1" (request "a1" "message") world).2).1 =
      Ok (earlier ++ [msg; msg]).
Proof.
  intros msg rt.
  assert (Hm : @json_Marshal rt msg = Some "id-0") by reflexivity.
  assert (Hu : @json_Unmarshal rt "id-0" = Some msg) by reflexivity.
  assert (Hh : @healthy_from rt (length (w_trace world)))
    by (intros n _; reflexivity).
  refine (conj Hm (conj Hu (conj Hh _))).
  apply (SendMessage_to_self_twice (H:=rt) "a1" (request "a1" "message")
           "id-0" 10 world Hm Hu Hh);
    [reflexivity | discriminate | right; lia].
Defined.

(** The standard server is down: [a1]'s message to [b1] is accepted and
    leaves two warnings. *)
Lemma SendMessage_standard_server_down_witness :
  let req := request "b1" "message" in
  @json_Marshal flaky
    (newMessage (@uuid_String flaky (w_uuids world)) (w_now world) "a1" req)
    = Some "id-0" ∧
  @redis_fails flaky (length (w_trace world)) = false ∧
  @down_from flaky (S (length (w_trace world))) ∧
  (@SendMessage flaky "a1" req world).1 = Ok (first_message "b1" "message") ∧
  length (w_stdout (@SendMessage flaky "a1" req world).2) = 2%nat.
Proof.
  intros req.
  assert (Hm : @json_Marshal flaky
    (newMessage (@uuid_String flaky (w_uuids world)) (w_now world) "a1" req)
    = Some "id-0") by reflexivity.
  assert (Hp : @redis_fails flaky (length (w_trace world)) = false)
    by reflexivity.
  assert (Hd : @down_from flaky (S (length (w_trace world)))).
  { intros n Hn. destruct n as [|n]; [inversion Hn | reflexivity]. }
  destruct (SendMessage_standard_server_down (H:=flaky) "a1" req "id-0" world
              Hm Hp Hd) as (Hres & _ & _ & Hout).
  refine (conj Hm (conj Hp (conj Hd (conj Hres _)))).
  rewrite Hout. reflexivity.
Defined.

(** The pub/sub server is down: the request is answered 500 and nothing
    went out. *)
Lemma Send_error_publishes_nothing_witness :
  let r := send_request "b1" "message" in
  ∃ text,
    (@Send (failing_at 1) r world).1 = http_Error text 500 ∧
    w_published (@Send (failing_at 1) r world).2 = w_published world.
Proof.
  intros r.
  exists (Error_of (Errorf "failed to publish message: " redis_Failure)).
  assert (Hrun : @Send (failing_at 1) r world =
    (http_Error (Error_of (Errorf "failed to publish message: " redis_Failure))
       500, (@Send (failing_at 1) r world).2)).
  { rewrite (surjective_pairing (@Send (failing_at 1) r world)) at 1.
    apply pair_equal_spec. split; [vm_compute; reflexivity | reflexivity]. }
  split; [by rewrite Hrun|].
  exact (proj1 (Send_error_publishes_nothing (H:=failing_at 1) r world _ _ _ Hrun)).
Defined.

(** Nobody is registered under [zz]. *)
Lemma Send_sender_lookup_failure_witness :
  let r := {| URLParam_id := "zz"; Body := Some (request "b1" "message") |} in
  (@AgentRegistry_Get runtime "zz" world).1 = Err ErrAgentNotFound ∧
  (@Send runtime r world).1 =
    http_Error (Literal "sender agent not found") 404.
Proof.
  intros r.
  assert (Hget : (@AgentRegistry_Get runtime (URLParam_id r) world).1 =
                 Err ErrAgentNotFound) by reflexivity.
  refine (conj Hget _).
  destruct (Send_sender_lookup_failure (H:=runtime) r world _ Hget)
    as (_ & Hmissing & _).
  apply Hmissing; reflexivity.
Defined.

(** [a1] is registered and names no recipient. *)
Lemma Send_invalid_request_witness :
  let r := send_request "" "message" in
  (@AgentRegistry_Get runtime "a1" world).1 = Ok (agent "a1") ∧
  (∃ req, Body r = Some req ∧ req_ToAgent req = "") ∧
  (@Send runtime r world).1 =
    http_Error (Literal "to_agent is required") 400.
Proof.
  intros r.
  assert (Hget : (@AgentRegistry_Get runtime (URLParam_id r) world).1 =
                 Ok (agent "a1")) by reflexivity.
  assert (Hbad : ∃ req, Body r = Some req ∧ req_ToAgent req = "")
    by (eexists; split; reflexivity).
  refine (conj Hget (conj Hbad _)).
  rewrite (Send_invalid_request (H:=runtime) r world _ Hget (or_intror Hbad)).
  reflexivity.
Defined.

(** [a1] is registered, the publish succeeds, the standard server is
    down: 202. *)
Lemma Send_accepts_witness :
  let r := send_request "b1" "" in
  (@AgentRegistry_Get flaky_after_publish "a1" world).1 = Ok (agent "a1") ∧
  @redis_fails flaky_after_publish (S (length (w_trace world))) = false ∧
  (@Send flaky_after_publish r world).1 =
    http_JSON 202
      {| resp_MessageID := "id-0"; resp_Timestamp := 1700000000000000000;
         resp_Channel := "agent:message:b1" |}.
Proof.
  intros r.
  assert (Hget : (@AgentRegistry_Get flaky_after_publish (URLParam_id r) world).1
                 = Ok (agent "a1")) by reflexivity.
  assert (Hpub : @redis_fails flaky_after_publish (S (length (w_trace world)))
                 = false) by reflexivity.
  refine (conj Hget (conj Hpub _)).
  apply (Send_accepts (H:=flaky_after_publish) r world (agent "a1")
           (request "b1" "") "id-0" Hget);
    [reflexivity | discriminate | reflexivity | exact Hpub].
Defined.

(** [limit=abc] is served as 50, [limit=1000] as 100. *)
Lemma List_serves_limit_witness :
  let r := {| list_URLParam_id := "a1"; Query_limit := "1000" |} in
  (@AgentRegistry_Get runtime "a1" three_sent).1 = Ok (agent "a1") ∧
  servedLimit "abc" = 50 ∧ servedLimit "" = 50 ∧ servedLimit "-3" = 50 ∧
  servedLimit "7" = 7 ∧ servedLimit "1000" = 100 ∧
  w_trace (@MessageHandler_List runtime r three_sent).2 =
    [GET "agent:a1"; LRANGE "agent:history:a1" 0 99].
Proof.
  intros r.
  assert (Hget : (@AgentRegistry_Get runtime (list_URLParam_id r) three_sent).1
                 = Ok (agent "a1")) by reflexivity.
  refine (conj Hget (conj eq_refl (conj eq_refl (conj eq_refl
            (conj eq_refl (conj eq_refl _)))))).
  destruct (List_serves_limit (H:=runtime) r three_sent _ Hget) as (_ & Htr & _).
  exact Htr.
Defined.

Lemma List_agent_lookup_failure_witness :
  let r := {| list_URLParam_id := "zz"; Query_limit := "" |} in
  (@AgentRegistry_Get runtime "zz" three_sent).1 = Err ErrAgentNotFound ∧
  @MessageHandler_List runtime r three_sent =
    (list_Error (Literal "agent not found") 404,
     set_trace (λ t, t ++ [GET "agent:zz"]) three_sent).
Proof.
  intros r.
  assert (Hget : (@AgentRegistry_Get runtime (list_URLParam_id r) three_sent).1
                 = Err ErrAgentNotFound) by reflexivity.
  refine (conj Hget _).
  exact (proj1 (List_agent_lookup_failure (H:=runtime) r three_sent _ Hget)).
Defined.

(** [a1] sends to [b1] through the handler, then lists its history. *)
Lemma Send_then_List_witness :
  let msg := first_message "b1" "message" in
  let rt := reading msg always in
  let r := send_request "b1" "" in
  ∃ body earlier,
    (@Send rt r world).1 = http_JSON 202 body ∧
    (@MessageHandler_List rt
       {| list_URLParam_id := "a1"; Query_limit := "5" |}
       (@Send rt r world).2).1 =
      list_JSON 200
        {| list_Messages := earlier ++ [msg];
           list_Count := Z.of_nat (length earlier) + 1 |}.
Proof.
  intros msg rt r.
  set (body := {| resp_MessageID := "id-0";
                  resp_Timestamp := 1700000000000000000;
                  resp_Channel := "agent:message:b1" |}).
  assert (Hrun : @Send rt r world = (http_JSON 202 body, (@Send rt r world).2)).
  { rewrite (surjective_pairing (@Send rt r world)) at 1.
    apply pair_equal_spec. split; [vm_compute; reflexivity | reflexivity]. }
  assert (Hh : @healthy_from rt (length (w_trace world)))
    by (intros n _; reflexivity).
  destruct (Send_then_List (H:=rt) r (request "b1" "") "5" world 202 body
              (@Send rt r world).2 eq_refl Hh) as (_ & earlier & Hlist).
  { intros data [= <-]. reflexivity. }
  { exact Hrun. }
  exists body, earlier. split; [by rewrite Hrun | exact Hlist].
Defined.

(** [a1] writes to [b1]: [b1]'s subscription is sent the message, [c1]'s
    and the broadcast one are not. *)
Lemma SendMessage_routing_witness :
  let req := request "b1" "message" in
  let sent := published_since world (@SendMessage runtime "a1" req world).2 in
  @json_Marshal runtime
    (newMessage (@uuid_String runtime (w_uuids world)) (w_now world) "a1" req)
    = Some "id-0" ∧
  @redis_fails runtime (length (w_trace world)) = false ∧
  feed (Subscribe "b1") sent = ["id-0"] ∧
  feed (Subscribe "c1") sent = [] ∧
  feed SubscribeToBroadcast sent = [].
Proof.
  intros req sent.
  assert (Hm : @json_Marshal runtime
    (newMessage (@uuid_String runtime (w_uuids world)) (w_now world) "a1" req)
    = Some "id-0") by reflexivity.
  assert (Hp : @redis_fails runtime (length (w_trace world)) = false)
    by reflexivity.
  destruct (SendMessage_routing (H:=runtime) "a1" req "id-0" "b1" world Hm Hp)
    as (_ & Hb1 & Hbc & _).
  destruct (SendMessage_routing (H:=runtime) "a1" req "id-0" "c1" world Hm Hp)
    as (_ & Hc1 & _).
  exact (conj Hm (conj Hp (conj Hb1 (conj Hc1 Hbc)))).
Defined.

End MoreRuns.

(** * Properties of the registry *)

Section RegistryFacts.
Context `{Runtime} `{RegistryRuntime}.

Implicit Types (s : Store) (w : World) (agent : Agent).

Local Abbreviation agent_key agentID := (agentKeyPrefix +:+ agentID).
Local Abbreviation heartbeat_key agentID := ("agent:heartbeat:" +:+ agentID).

Ltac store_cbn :=
  unfold mret, RIO_ret, IO_ret;
  cbn [st_world st_sets st_cmds set_world set_sets set_cmds
       w_trace w_published w_lists w_strings w_expire w_uuids w_now w_stdout
       set_trace set_published set_lists set_expire set_uuids set_stdout
       set_strings set_now fst snd].

Ltac store_cbn_all :=
  unfold mret, RIO_ret, IO_ret in *;
  cbn [st_world st_sets st_cmds set_world set_sets set_cmds
       w_trace w_published w_lists w_strings w_expire w_uuids w_now w_stdout
       set_trace set_published set_lists set_expire set_uuids set_stdout
       set_strings set_now fst snd] in *.

(** ** running the store monad *)

Lemma rbind_run {A B} (m : RIO A) (f : A → RIO B) s :
  (m ≫= f) s = f (m s).1 (m s).2.
Proof. unfold mbind, RIO_bind. by destruct (m s). Qed.

Lemma lift_run {A} (m : IO A) s :
  lift m s = ((m (st_world s)).1, set_world (λ _, (m (st_world s)).2) s).
Proof. unfold lift. by destruct (m (st_world s)). Qed.

Lemma Set_run key value expiration s :
  Set_ key value expiration s =
    let s1 := set_cmds (λ t, t ++ [SET key value expiration]) s in
    if store_fails (length (st_cmds s)) then (Some redis_Failure, s1)
    else (None,
          set_sets (delete key)
            (set_world (λ w,
               set_expire (if bool_decide (expiration = 0) then delete key
                           else <[key := expiration]>)
                 (set_lists (delete key)
                    (set_strings <[key := value]> w))) s1)).
Proof.
  unfold Set_, store_send. rewrite rbind_run. cbn [fst snd].
  by destruct (store_fails _).
Qed.

Lemma SAdd_run key member s :
  SAdd key member s =
    let s1 := set_cmds (λ t, t ++ [SADD key member]) s in
    if store_fails (length (st_cmds s)) then (Some redis_Failure, s1)
    else (None,
          if bool_decide (member ∈ members_at key s1) then s1
          else set_sets <[key := members_at key s1 ++ [member]]> s1).
Proof.
  unfold SAdd, store_send. rewrite rbind_run. cbn [fst snd].
  by destruct (store_fails _).
Qed.

Lemma SRem_run key member s :
  SRem key member s =
    let s1 := set_cmds (λ t, t ++ [SREM key member]) s in
    if store_fails (length (st_cmds s)) then (Some redis_Failure, s1)
    else (None,
          set_sets
            (store_set key (filter (λ m, m ≠ member) (members_at key s1))) s1).
Proof.
  unfold SRem, store_send. rewrite rbind_run. cbn [fst snd].
  by destruct (store_fails _).
Qed.

Lemma SMembers_run key s :
  SMembers key s =
    (if store_fails (length (st_cmds s)) then Err redis_Failure
     else Ok (members_at key s),
     set_cmds (λ t, t ++ [SMEMBERS key]) s).
Proof.
  unfold SMembers, store_send. rewrite rbind_run. cbn [fst snd].
  by destruct (store_fails _).
Qed.

Lemma Del_run key s :
  Del key s =
    let s1 := set_cmds (λ t, t ++ [DEL key]) s in
    if store_fails (length (st_cmds s)) then (Some redis_Failure, s1)
    else (None,
          set_sets (delete key)
            (set_world (λ w,
               set_expire (delete key)
                 (set_lists (delete key)
                    (set_strings (delete key) w))) s1)).
Proof.
  unfold Del, store_send. rewrite rbind_run. cbn [fst snd].
  by destruct (store_fails _).
Qed.

(** Looking an agent up in the store: the lookup of the broker's world. *)
Lemma lift_Get_run agentID s :
  lift (AgentRegistry_Get agentID) s =
    (if redis_fails (length (w_trace (st_world s)))
     then Err (Errorf "failed to get agent: " redis_Failure)
     else match w_strings (st_world s) !! agent_key agentID with
          | None => Err ErrAgentNotFound
          | Some raw =>
            match json_UnmarshalAgent raw with
            | None => Err (Errorf "failed to unmarshal agent: " json_Failure)
            | Some agent => Ok agent
            end
          end,
     set_world (set_trace (λ t, t ++ [GET (agent_key agentID)])) s).
Proof. rewrite lift_run, AgentRegistry_Get_run. reflexivity. Qed.

Lemma string_length_app (a b : string) :
  String.length (a +:+ b) = (String.length a + String.length b)%nat.
Proof. induction a as [|c a IH]; simpl; [done | by f_equal]. Qed.

(** The heartbeat key of an agent is not its record key. *)
Lemma heartbeat_key_ne (a : string) : heartbeat_key a ≠ agent_key a.
Proof.
  cbn. intros [= Heq]. apply (f_equal String.length) in Heq.
  rewrite !string_length_app in Heq. cbn in Heq. lia.
Qed.

(** ** the commands of the registry, when they succeed *)

Lemma Set_ok key value expiration s :
  store_fails (length (st_cmds s)) = false →
  ∃ s', Set_ key value expiration s = (None, s') ∧
    st_cmds s' = st_cmds s ++ [SET key value expiration] ∧
    st_sets s' = delete key (st_sets s) ∧
    w_strings (st_world s') = <[key := value]> (w_strings (st_world s)) ∧
    w_lists (st_world s') = delete key (w_lists (st_world s)) ∧
    w_expire (st_world s') =
      (if bool_decide (expiration = 0) then delete key
       else <[key := expiration]>) (w_expire (st_world s)) ∧
    same_process (st_world s) (st_world s').
Proof.
  intros Hok. rewrite Set_run. cbn zeta. rewrite Hok. eexists.
  split; [reflexivity|]. store_cbn. by split_and!.
Qed.

Lemma Set_failed key value expiration s :
  store_fails (length (st_cmds s)) = true →
  Set_ key value expiration s =
    (Some redis_Failure,
     set_cmds (λ t, t ++ [SET key value expiration]) s).
Proof. intros Hf. rewrite Set_run. cbn zeta. by rewrite Hf. Qed.

Lemma members_store_set key (l : list string) m :
  default [] (store_set key l m !! key) = l.
Proof.
  destruct l; cbn [store_set].
  - by rewrite lookup_delete_eq.
  - by rewrite lookup_insert_eq.
Qed.

Lemma store_set_ne key key' (l : list string) m :
  key ≠ key' → store_set key l m !! key' = m !! key'.
Proof.
  intros. destruct l; cbn [store_set].
  - by rewrite lookup_delete_ne.
  - by rewrite lookup_insert_ne.
Qed.

Lemma SRem_ok key member s :
  store_fails (length (st_cmds s)) = false →
  ∃ s', SRem key member s = (None, s') ∧
    st_cmds s' = st_cmds s ++ [SREM key member] ∧
    st_world s' = st_world s ∧
    members_at key s' = filter (λ m, m ≠ member) (members_at key s) ∧
    (∀ key', key' ≠ key → st_sets s' !! key' = st_sets s !! key').
Proof.
  intros Hok. rewrite SRem_run. cbn zeta. rewrite Hok. eexists.
  split; [reflexivity|]. unfold members_at. store_cbn. split_and!; try done.
  - apply members_store_set.
  - intros key' Hne. by apply store_set_ne.
Qed.

Lemma SAdd_ok key member s :
  store_fails (length (st_cmds s)) = false →
  ∃ s', SAdd key member s = (None, s') ∧
    st_cmds s' = st_cmds s ++ [SADD key member] ∧
    st_world s' = st_world s ∧
    (∀ m, m ∈ members_at key s' ↔ m = member ∨ m ∈ members_at key s) ∧
    (∀ key', key' ≠ key → st_sets s' !! key' = st_sets s !! key').
Proof.
  intros Hok. rewrite SAdd_run. cbn zeta. rewrite Hok. eexists.
  split; [reflexivity|]. unfold members_at. store_cbn.
  case_bool_decide as Hin; store_cbn.
  - split_and!; try done. intros m. split; [by right|]. by intros [->|].
  - split_and!; try done.
    + intros m. rewrite lookup_insert_eq. cbn. rewrite elem_of_app.
      rewrite list_elem_of_singleton. tauto.
    + intros key' Hne. by rewrite lookup_insert_ne.
Qed.

Lemma Del_ok key s :
  store_fails (length (st_cmds s)) = false →
  ∃ s', Del key s = (None, s') ∧
    st_cmds s' = st_cmds s ++ [DEL key] ∧
    st_sets s' = delete key (st_sets s) ∧
    w_strings (st_world s') = delete key (w_strings (st_world s)) ∧
    w_lists (st_world s') = delete key (w_lists (st_world s)) ∧
    w_expire (st_world s') = delete key (w_expire (st_world s)) ∧
    same_process (st_world s) (st_world s').
Proof.
  intros Hok. rewrite Del_run. cbn zeta. rewrite Hok. eexists.
  split; [reflexivity|]. store_cbn. by split_and!.
Qed.

Lemma agent_key_ne_index (a : string) : agent_key a ≠ agentIndexKey.
Proof. discriminate. Qed.

Lemma agent_key_inj (a b : string) : agent_key a = agent_key b → a = b.
Proof. apply append_inj_r. Qed.

(** ** agents that cannot be looked up *)

(** [Update], [Unregister] and [Heartbeat] look the agent up first and,
    when that fails, return the error of the lookup as it is, having sent
    no command of their own. *)
Lemma registry_lookup_failure agentID req s err :
  (AgentRegistry_Get agentID (st_world s)).1 = Err err →
  let s1 := set_world (set_trace (λ t, t ++ [GET (agent_key agentID)])) s in
  AgentRegistry_Unregister agentID s = (Some err, s1) ∧
  AgentRegistry_Update agentID req s = (Err err, s1) ∧
  AgentRegistry_Heartbeat agentID s = (Some err, s1).
Proof.
  intros Hget. unfold AgentRegistry_Unregister, AgentRegistry_Update,
    AgentRegistry_Heartbeat.
  rewrite !rbind_run, lift_run, AgentRegistry_Get_run in *.
  cbn [fst snd] in *. by rewrite Hget.
Qed.

(** For an agent that is not registered the handlers [Get], [Update],
    [Delete] and [Heartbeat] answer 404 "agent not found" and write
    nothing: the lookup is the only command sent. *)
Theorem AgentHandler_unknown_agent agentID req s :
  w_strings (st_world s) !! (agentKeyPrefix +:+ agentID) = None →
  redis_fails (length (w_trace (st_world s))) = false →
  let s1 :=
    set_world (set_trace (λ t, t ++ [GET (agentKeyPrefix +:+ agentID)])) s in
  let not_found := agent_Error (Literal "agent not found") StatusNotFound in
  AgentHandler_Get agentID s = (not_found, s1) ∧
  AgentHandler_Update agentID (Some req) s = (not_found, s1) ∧
  AgentHandler_Delete agentID s = (not_found, s1) ∧
  AgentHandler_Heartbeat agentID s = (not_found, s1).
Proof.
  intros Hnone Hok s1 not_found.
  assert (Hget : (AgentRegistry_Get agentID (st_world s)).1 =
                 Err ErrAgentNotFound).
  { rewrite AgentRegistry_Get_run. cbn [fst]. by rewrite Hok, Hnone. }
  destruct (registry_lookup_failure agentID req s _ Hget) as (Hu & Hp & Hb).
  unfold AgentHandler_Get, AgentHandler_Update, AgentHandler_Delete,
    AgentHandler_Heartbeat.
  rewrite !rbind_run, Hu, Hp, Hb, lift_Get_run, Hok, Hnone. done.
Qed.

(** ** unregistering *)

Lemma Unregister_ok agentID agent s :
  (AgentRegistry_Get agentID (st_world s)).1 = Ok agent →
  store_healthy_from (length (st_cmds s)) →
  let r := AgentRegistry_Unregister agentID s in
  r.1 = None ∧
  w_trace (st_world r.2) =
    w_trace (st_world s) ++ [GET (agent_key agentID)] ∧
  w_strings (st_world r.2) !! (agentKeyPrefix +:+ agentID) = None ∧
  (agentID ∉ members_at agentIndexKey (snd r)) ∧
  (∀ other, other ≠ agentID →
     (other ∈ members_at agentIndexKey (snd r) ↔
      other ∈ members_at agentIndexKey s) ∧
     w_strings (st_world r.2) !! (agentKeyPrefix +:+ other) =
     w_strings (st_world s) !! (agentKeyPrefix +:+ other)) ∧
  (redis_fails (length (w_trace (st_world r.2))) = false →
   (lift (AgentRegistry_Get agentID) r.2).1 = Err ErrAgentNotFound).
Proof.
  intros Hget Hh r. subst r. unfold AgentRegistry_Unregister.
  rewrite rbind_run, lift_run. cbn [fst snd]. rewrite Hget.
  set (s1 := set_world _ s).
  assert (Hs1 : st_cmds s1 = st_cmds s ∧ st_sets s1 = st_sets s ∧
                w_strings (st_world s1) = w_strings (st_world s)).
  { subst s1. store_cbn. by rewrite AgentRegistry_Get_run. }
  assert (Htr1 : w_trace (st_world s1) =
                 w_trace (st_world s) ++ [GET (agent_key agentID)]).
  { subst s1. store_cbn. by rewrite AgentRegistry_Get_run. }
  destruct Hs1 as (Hc1 & Hsets1 & Hstr1). clearbody s1. rewrite rbind_run.
  destruct (SRem_ok agentIndexKey agentID s1) as (s2 & -> & Hc2 & Hw2 & Hm2 & _).
  { apply Hh. rewrite Hc1. lia. }
  cbn [fst snd]. rewrite rbind_run.
  destruct (Del_ok (agent_key agentID) s2)
    as (s3 & -> & Hc3 & Hsets3 & Hstr3 & _ & _ & Hp3).
  { apply Hh. rewrite Hc2, Hc1, length_app. lia. }
  store_cbn.
  assert (Hmem : ∀ other, other ∈ members_at agentIndexKey s3 ↔
                          other ∈ members_at agentIndexKey s ∧ other ≠ agentID).
  { intros other. unfold members_at at 1. rewrite Hsets3.
    rewrite lookup_delete_ne by apply agent_key_ne_index.
    fold (members_at agentIndexKey s2). rewrite Hm2.
    rewrite list_elem_of_filter. unfold members_at. rewrite Hsets1. tauto. }
  assert (Hstr : w_strings (st_world s3) =
                 delete (agent_key agentID) (w_strings (st_world s)))
    by (by rewrite Hstr3, Hw2, Hstr1).
  split_and!.
  - done.
  - destruct Hp3 as (-> & _). by rewrite Hw2.
  - by rewrite Hstr, lookup_delete_eq.
  - rewrite Hmem. tauto.
  - intros other Hne. split.
    + rewrite Hmem. tauto.
    + rewrite Hstr. by rewrite lookup_delete_ne by (intros ?%agent_key_inj; done).
  - intros Hok. rewrite lift_Get_run. cbn [fst]. rewrite Hok, Hstr.
    by rewrite lookup_delete_eq.
Qed.

(** Unregistering a registered agent, with the store answering: the record
    is deleted and the id leaves the index, so that the agent is not found
    afterwards; the other agents keep their record and their place in the
    index. *)
Theorem Unregister_removes agentID agent s :
  (AgentRegistry_Get agentID (st_world s)).1 = Ok agent →
  store_healthy_from (length (st_cmds s)) →
  let r := AgentRegistry_Unregister agentID s in
  r.1 = None ∧
  w_strings (st_world r.2) !! (agentKeyPrefix +:+ agentID) = None ∧
  (agentID ∉ members_at agentIndexKey (snd r)) ∧
  (∀ other, other ≠ agentID →
     (other ∈ members_at agentIndexKey (snd r) ↔
      other ∈ members_at agentIndexKey s) ∧
     w_strings (st_world r.2) !! (agentKeyPrefix +:+ other) =
     w_strings (st_world s) !! (agentKeyPrefix +:+ other)) ∧
  (redis_fails (length (w_trace (st_world r.2))) = false →
   (lift (AgentRegistry_Get agentID) r.2).1 = Err ErrAgentNotFound).
Proof.
  intros Hget Hh.
  destruct (Unregister_ok agentID agent s Hget Hh) as (? & _ & ? & ? & ? & ?).
  by split_and!.
Qed.

(** A failed [DEL] leaves the agent half unregistered: out of the index,
    which the [SREM] before it has updated, with its record still stored,
    so that [Get] still finds it while [Unregister] reports an error. *)
Theorem Unregister_delete_failure agentID agent s :
  (AgentRegistry_Get agentID (st_world s)).1 = Ok agent →
  store_fails (length (st_cmds s)) = false →
  store_fails (S (length (st_cmds s))) = true →
  let r := AgentRegistry_Unregister agentID s in
  r.1 = Some (Errorf "failed to delete agent: " redis_Failure) ∧
  (agentID ∉ members_at agentIndexKey (snd r)) ∧
  w_strings (st_world r.2) = w_strings (st_world s) ∧
  (redis_fails (length (w_trace (st_world r.2))) = false →
   (lift (AgentRegistry_Get agentID) r.2).1 = Ok agent).
Proof.
  intros Hget Hsrem Hdel r. subst r. unfold AgentRegistry_Unregister.
  rewrite rbind_run, lift_run. cbn [fst snd]. rewrite Hget.
  pose proof Hget as Hget'. rewrite AgentRegistry_Get_run in Hget'.
  cbn [fst] in Hget'.
  set (s1 := set_world _ s).
  assert (Hs1 : st_cmds s1 = st_cmds s ∧ st_sets s1 = st_sets s ∧
                w_strings (st_world s1) = w_strings (st_world s)).
  { subst s1. store_cbn. by rewrite AgentRegistry_Get_run. }
  destruct Hs1 as (Hc1 & Hsets1 & Hstr1). clearbody s1. rewrite rbind_run.
  destruct (SRem_ok agentIndexKey agentID s1) as (s2 & -> & Hc2 & Hw2 & Hm2 & _).
  { by rewrite Hc1. }
  cbn [fst snd]. rewrite rbind_run, Del_run. cbn zeta.
  rewrite Hc2, Hc1, length_app, Nat.add_1_r, Hdel. store_cbn.
  split_and!.
  - done.
  - change (members_at agentIndexKey (set_cmds ?f s2))
      with (members_at agentIndexKey s2).
    rewrite Hm2, list_elem_of_filter. tauto.
  - by rewrite Hw2.
  - intros Hok. rewrite lift_Get_run. cbn [fst]. store_cbn.
    rewrite Hok, Hw2, Hstr1.
    destruct (redis_fails (length (w_trace (st_world s)))); [done|].
    exact Hget'.
Qed.

(** ** heartbeats *)

Lemma registry_Now_run s :
  registry_Now s = (w_now (st_world s), set_world (set_now clock_next) s).
Proof. reflexivity. Qed.

Lemma updateHeartbeat_ok agentID agent data updated s :
  let t0 := w_now (st_world s) in
  let t1 := clock_next t0 in
  store_healthy_from (length (st_cmds s)) →
  redis_fails (length (w_trace (st_world s))) = false →
  w_strings (st_world s) !! agent_key agentID = Some data →
  json_UnmarshalAgent data = Some agent →
  json_MarshalAgent (with_LastSeen agent t1) = Some updated →
  ∃ s', updateHeartbeat agentID s = (None, s') ∧
    w_strings (st_world s') =
      <[agent_key agentID := updated]>
        (<[heartbeat_key agentID := pretty (Unix t0)]>
           (w_strings (st_world s))) ∧
    w_expire (st_world s') =
      delete (agent_key agentID)
        (<[heartbeat_key agentID := agentHeartbeatTTL]>
           (w_expire (st_world s))) ∧
    st_sets s' =
      delete (agent_key agentID) (delete (heartbeat_key agentID) (st_sets s)) ∧
    st_cmds s' =
      st_cmds s ++ [SET (heartbeat_key agentID) (pretty (Unix t0))
                        agentHeartbeatTTL;
                    SET (agent_key agentID) updated 0] ∧
    w_trace (st_world s') =
      w_trace (st_world s) ++ [GET (agent_key agentID)] ∧
    w_now (st_world s') = clock_next t1 ∧
    w_uuids (st_world s') = w_uuids (st_world s).
Proof.
  intros t0 t1 Hh Hok Hdata Hparse Hm. unfold updateHeartbeat.
  rewrite rbind_run, (registry_Now_run s). cbn [fst snd]. fold t0.
  set (s1 := set_world (set_now clock_next) s).
  rewrite rbind_run.
  destruct (Set_ok (heartbeat_key agentID) (pretty (Unix t0))
              agentHeartbeatTTL s1)
    as (s2 & -> & Hc2 & Hsets2 & Hstr2 & _ & Hexp2 & Htr2 & Hu2 & Hnow2 & _).
  { apply Hh. subst s1. store_cbn. lia. }
  cbn [fst snd]. rewrite rbind_run, lift_run. unfold Get_Bytes.
  rewrite bind_run, redis_send_run. cbn [fst snd].
  rewrite Htr2. subst s1. store_cbn_all. rewrite Hok. cbn [fst snd].
  store_cbn. rewrite Hstr2.
  rewrite lookup_insert_ne by apply heartbeat_key_ne. rewrite Hdata.
  cbn [fst snd]. rewrite Hparse.
  rewrite rbind_run, registry_Now_run. cbn [fst snd]. store_cbn.
  rewrite Hnow2. fold t0 t1. rewrite Hm.
  set (s3 := set_world _ _).
  rewrite rbind_run.
  destruct (Set_ok (agent_key agentID) updated 0 s3)
    as (s4 & -> & Hc4 & Hsets4 & Hstr4 & _ & Hexp4 & Htr4 & Hu4 & Hnow4 & _).
  { apply Hh. subst s3. store_cbn. rewrite Hc2, length_app. lia. }
  cbn [fst snd]. eexists. split; [reflexivity|].
  subst s3. store_cbn_all.
  rewrite bool_decide_true in Hexp4 by done.
  rewrite bool_decide_false in Hexp2 by (unfold agentHeartbeatTTL; lia).
  split_and!.
  - by rewrite Hstr4, Hstr2.
  - by rewrite Hexp4, Hexp2.
  - by rewrite Hsets4, Hsets2.
  - by rewrite Hc4, Hc2, <- app_assoc.
  - by rewrite Htr4, Htr2.
  - by rewrite Hnow4, Hnow2.
  - by rewrite Hu4, Hu2.
Qed.

Lemma Get_Ok_inv agentID w agent :
  (AgentRegistry_Get agentID w).1 = Ok agent →
  redis_fails (length (w_trace w)) = false ∧
  ∃ raw, w_strings w !! agent_key agentID = Some raw ∧
         json_UnmarshalAgent raw = Some agent.
Proof.
  rewrite AgentRegistry_Get_run. cbn [fst].
  destruct (redis_fails _); [done|].
  destruct (w_strings w !! _) as [raw|]; [|done].
  destruct (json_UnmarshalAgent raw) as [a|] eqn:Hp; [|done].
  intros [= <-]. eauto.
Qed.

Lemma Get_found agentID raw agent s :
  redis_fails (length (w_trace (st_world s))) = false →
  w_strings (st_world s) !! agent_key agentID = Some raw →
  json_UnmarshalAgent raw = Some agent →
  (lift (AgentRegistry_Get agentID) s).1 = Ok agent.
Proof.
  intros Hok Hraw Hp. rewrite lift_Get_run. cbn [fst].
  by rewrite Hok, Hraw, Hp.
Qed.

Lemma Heartbeat_ok agentID agent updated s :
  let t0 := w_now (st_world s) in
  let t1 := clock_next t0 in
  let hb := "agent:heartbeat:" +:+ agentID in
  let key := agentKeyPrefix +:+ agentID in
  (AgentRegistry_Get agentID (st_world s)).1 = Ok agent →
  redis_fails (S (length (w_trace (st_world s)))) = false →
  store_healthy_from (length (st_cmds s)) →
  json_MarshalAgent (with_LastSeen agent t1) = Some updated →
  let r := AgentRegistry_Heartbeat agentID s in
  r.1 = None ∧
  length (w_trace (st_world r.2)) = S (S (length (w_trace (st_world s)))) ∧
  w_strings (st_world r.2) !! hb = Some (pretty (Unix t0)) ∧
  w_expire (st_world r.2) !! hb = Some agentHeartbeatTTL ∧
  w_strings (st_world r.2) !! key = Some updated ∧
  w_expire (st_world r.2) !! key = None ∧
  (json_UnmarshalAgent updated = Some (with_LastSeen agent t1) →
   redis_fails (length (w_trace (st_world r.2))) = false →
   (lift (AgentRegistry_Get agentID) r.2).1 = Ok (with_LastSeen agent t1)).
Proof.
  intros t0 t1 hb key Hget Hok2 Hh Hm r. subst r.
  pose proof Hget as (Hok & raw & Hraw & Hparse)%Get_Ok_inv.
  unfold AgentRegistry_Heartbeat.
  rewrite rbind_run, lift_run. cbn [fst snd]. rewrite Hget.
  rewrite AgentRegistry_Get_run. cbn [snd].
  set (s1 := set_world _ s).
  destruct (updateHeartbeat_ok agentID agent raw updated s1)
    as (s2 & -> & Hstr & Hexp & _ & _ & Htr & _); subst s1; store_cbn;
    try done.
  { by rewrite length_app, Nat.add_1_r. }
  cbn [fst snd]. rewrite Hstr, Hexp. fold hb key t0.
  split_and!.
  - done.
  - rewrite Htr. store_cbn. rewrite !length_app. cbn. lia.
  - rewrite lookup_insert_ne by (symmetry; apply heartbeat_key_ne).
    by rewrite lookup_insert_eq.
  - rewrite lookup_delete_ne by (symmetry; apply heartbeat_key_ne).
    by rewrite lookup_insert_eq.
  - by rewrite lookup_insert_eq.
  - by rewrite lookup_delete_eq.
  - intros Hu Hok3. eapply Get_found; [done| |done].
    rewrite Hstr. by rewrite lookup_insert_eq.
Qed.

(** A heartbeat of a registered agent, with Redis answering: the heartbeat
    key holds the time of the heartbeat in seconds and expires in five
    minutes; the record of the agent is rewritten with [LastSeen] set to
    the next reading of the clock and nothing else changed, and it does
    not expire. *)
Theorem Heartbeat_renews agentID agent updated s :
  let t0 := w_now (st_world s) in
  let t1 := clock_next t0 in
  let hb := "agent:heartbeat:" +:+ agentID in
  let key := agentKeyPrefix +:+ agentID in
  (AgentRegistry_Get agentID (st_world s)).1 = Ok agent →
  redis_fails (S (length (w_trace (st_world s)))) = false →
  store_healthy_from (length (st_cmds s)) →
  json_MarshalAgent (with_LastSeen agent t1) = Some updated →
  let r := AgentRegistry_Heartbeat agentID s in
  r.1 = None ∧
  w_strings (st_world r.2) !! hb = Some (pretty (Unix t0)) ∧
  w_expire (st_world r.2) !! hb = Some agentHeartbeatTTL ∧
  w_strings (st_world r.2) !! key = Some updated ∧
  w_expire (st_world r.2) !! key = None ∧
  (json_UnmarshalAgent updated = Some (with_LastSeen agent t1) →
   redis_fails (length (w_trace (st_world r.2))) = false →
   (lift (AgentRegistry_Get agentID) r.2).1 = Ok (with_LastSeen agent t1)).
Proof.
  intros t0 t1 hb key Hget Hok2 Hh Hm.
  destruct (Heartbeat_ok agentID agent updated s Hget Hok2 Hh Hm)
    as (? & _ & ? & ? & ? & ? & ?).
  by split_and!.
Qed.

(** The heartbeat key of an agent is the record key of the id
    ["heartbeat:" + id]: once an agent has had a heartbeat, fetching that
    id does not answer 404 but 500, the time stored under the key failing
    to parse as an agent. *)
Theorem heartbeat_key_shadows_record agentID agent updated s :
  let t0 := w_now (st_world s) in
  let r := AgentRegistry_Heartbeat agentID s in
  (AgentRegistry_Get agentID (st_world s)).1 = Ok agent →
  redis_fails (S (length (w_trace (st_world s)))) = false →
  redis_fails (S (S (length (w_trace (st_world s))))) = false →
  store_healthy_from (length (st_cmds s)) →
  json_MarshalAgent (with_LastSeen agent (clock_next t0)) = Some updated →
  json_UnmarshalAgent (pretty (Unix t0)) = None →
  agentKeyPrefix +:+ ("heartbeat:" +:+ agentID) =
    "agent:heartbeat:" +:+ agentID ∧
  (AgentHandler_Get ("heartbeat:" +:+ agentID) r.2).1 =
    agent_Error (Error_of (Errorf "failed to unmarshal agent: " json_Failure))
                StatusInternalServerError.
Proof.
  intros t0 r Hget Hok2 Hok3 Hh Hm Hparse. subst r.
  destruct (Heartbeat_ok agentID agent updated s Hget Hok2 Hh Hm)
    as (_ & Htr & Hhb & _).
  split; [done|].
  unfold AgentHandler_Get. rewrite rbind_run, lift_Get_run. cbn [fst].
  rewrite Htr, Hok3.
  change (agent_key ("heartbeat:" +:+ agentID)) with (heartbeat_key agentID).
  rewrite Hhb. fold t0. by rewrite Hparse.
Qed.

(** ** registering *)

Lemma heartbeat_key_ne_index (a : string) : heartbeat_key a ≠ agentIndexKey.
Proof. discriminate. Qed.

(** The beginning of [Register]: the id, the time and the first [SET]. *)
Lemma Register_run req s :
  let agentID := uuid_String (w_uuids (st_world s)) in
  let agent := newAgent agentID (w_now (st_world s)) req in
  let s0 := set_world (set_now clock_next)
              (set_world (λ _, set_uuids S (st_world s)) s) in
  AgentRegistry_Register req s =
    match json_MarshalAgent agent with
    | None => (Err (Errorf "failed to marshal agent: " json_Failure), s0)
    | Some data =>
      let r1 := Set_ (agent_key agentID) data 0 s0 in
      match r1.1 with
      | Some err => (Err (Errorf "failed to store agent: " err), r1.2)
      | None =>
        let r2 := SAdd agentIndexKey agentID r1.2 in
        match r2.1 with
        | Some err => (Err (Errorf "failed to add agent to index: " err), r2.2)
        | None =>
          let r3 := updateHeartbeat agentID r2.2 in
          match r3.1 with
          | Some err => (Err err, r3.2)
          | None => (Ok agent, r3.2)
          end
        end
      end
    end.
Proof.
  cbn zeta. unfold AgentRegistry_Register.
  rewrite rbind_run, lift_run. unfold uuid_New at 1 2. cbn [fst snd].
  rewrite rbind_run, registry_Now_run. cbn [fst snd]. store_cbn.
  destruct (json_MarshalAgent _) as [data|]; [|done].
  rewrite rbind_run. destruct (Set_ _ _ _ _).1; [done|].
  rewrite rbind_run. destruct (SAdd _ _ _).1; [done|].
  rewrite rbind_run. by destruct (updateHeartbeat _ _).1.
Qed.

Lemma Register_ok req data0 data2 s :
  let w := st_world s in
  let agentID := uuid_String (w_uuids w) in
  let t0 := w_now w in
  let t2 := clock_next (clock_next t0) in
  let agent := newAgent agentID t0 req in
  store_healthy_from (length (st_cmds s)) →
  healthy_from (length (w_trace w)) →
  json_MarshalAgent agent = Some data0 →
  json_UnmarshalAgent data0 = Some agent →
  json_MarshalAgent (with_LastSeen agent t2) = Some data2 →
  json_UnmarshalAgent data2 = Some (with_LastSeen agent t2) →
  let r := AgentRegistry_Register req s in
  r.1 = Ok agent ∧
  length (w_trace (st_world r.2)) = S (length (w_trace w)) ∧
  agent_Status agent = "online" ∧
  agentID ∈ members_at agentIndexKey (snd r) ∧
  (lift (AgentRegistry_Get agentID) r.2).1 = Ok (with_LastSeen agent t2) ∧
  w_strings (st_world r.2) !! ("agent:heartbeat:" +:+ agentID) =
    Some (pretty (Unix (clock_next t0))) ∧
  w_expire (st_world r.2) !! ("agent:heartbeat:" +:+ agentID) =
    Some agentHeartbeatTTL ∧
  w_uuids (st_world r.2) = S (w_uuids w).
Proof.
  intros w agentID t0 t2 agent Hsh Hh Hm0 Hu0 Hm2 Hu2 r. subst r.
  rewrite Register_run. cbn zeta. fold w agentID t0 agent. rewrite Hm0.
  set (s0 := set_world (set_now clock_next) _).
  destruct (Set_ok (agent_key agentID) data0 0 s0)
    as (s1 & -> & Hc1 & Hsets1 & Hstr1 & _ & _ & Htr1 & Huu1 & Hnow1 & _).
  { apply Hsh. subst s0. store_cbn. lia. }
  cbn [fst snd].
  destruct (SAdd_ok agentIndexKey agentID s1)
    as (s2 & -> & Hc2 & Hw2 & Hmem2 & _).
  { apply Hsh. rewrite Hc1. subst s0. store_cbn. rewrite length_app. lia. }
  cbn [fst snd].
  destruct (updateHeartbeat_ok agentID agent data0 data2 s2)
    as (s3 & -> & Hstr3 & Hexp3 & Hsets3 & _ & Htr3 & _ & Huu3).
  { intros n Hn. apply Hsh. rewrite Hc2, Hc1 in Hn. subst s0.
    revert Hn. store_cbn. rewrite !length_app. lia. }
  { rewrite Hw2, Htr1. subst s0. store_cbn. apply Hh. lia. }
  { rewrite Hw2, Hstr1. by rewrite lookup_insert_eq. }
  { done. }
  { rewrite Hw2, Hnow1. subst s0. store_cbn. exact Hm2. }
  cbn [fst snd]. split_and!.
  - done.
  - rewrite Htr3, Hw2, Htr1. subst s0. store_cbn.
    by rewrite length_app, Nat.add_1_r.
  - done.
  - unfold members_at. rewrite Hsets3.
    rewrite !lookup_delete_ne
      by (apply agent_key_ne_index || apply heartbeat_key_ne_index).
    apply Hmem2. by left.
  - eapply Get_found; [|by rewrite Hstr3, lookup_insert_eq|done].
    apply Hh. rewrite Htr3, Hw2, Htr1. subst s0. store_cbn.
    rewrite length_app. lia.
  - rewrite Hstr3.
    rewrite lookup_insert_ne by (symmetry; apply heartbeat_key_ne).
    rewrite lookup_insert_eq. rewrite Hw2, Hnow1. by subst s0.
  - rewrite Hexp3.
    rewrite lookup_delete_ne by (symmetry; apply heartbeat_key_ne).
    by rewrite lookup_insert_eq.
  - rewrite Huu3, Hw2, Huu1. by subst s0.
Qed.

(** Registering, with Redis answering and a codec that reads the two
    records written back: [Register] returns the new agent, online, with
    the next UUID for id and the time of the call for [CreatedAt] and
    [LastSeen]; the id is in the index; the heartbeat key is set for five
    minutes; and [Get] then returns the agent with the [LastSeen] of the
    heartbeat, which is a later reading of the clock than the one in the
    agent returned. *)
Theorem Register_then_Get req data0 data2 s :
  let w := st_world s in
  let agentID := uuid_String (w_uuids w) in
  let t0 := w_now w in
  let t2 := clock_next (clock_next t0) in
  let agent := newAgent agentID t0 req in
  store_healthy_from (length (st_cmds s)) →
  healthy_from (length (w_trace w)) →
  json_MarshalAgent agent = Some data0 →
  json_UnmarshalAgent data0 = Some agent →
  json_MarshalAgent (with_LastSeen agent t2) = Some data2 →
  json_UnmarshalAgent data2 = Some (with_LastSeen agent t2) →
  let r := AgentRegistry_Register req s in
  r.1 = Ok agent ∧
  agent_Status agent = "online" ∧
  agentID ∈ members_at agentIndexKey (snd r) ∧
  (lift (AgentRegistry_Get agentID) r.2).1 = Ok (with_LastSeen agent t2) ∧
  w_strings (st_world r.2) !! ("agent:heartbeat:" +:+ agentID) =
    Some (pretty (Unix (clock_next t0))) ∧
  w_expire (st_world r.2) !! ("agent:heartbeat:" +:+ agentID) =
    Some agentHeartbeatTTL ∧
  w_uuids (st_world r.2) = S (w_uuids w).
Proof.
  intros w agentID t0 t2 agent Hsh Hh Hm0 Hu0 Hm2 Hu2.
  destruct (Register_ok req data0 data2 s Hsh Hh Hm0 Hu0 Hm2 Hu2)
    as (? & _ & ? & ? & ? & ? & ? & ?).
  by split_and!.
Qed.

(** A failed [SADD] leaves the agent stored and not indexed: [Register]
    reports the error, the record is there for [Get] to find, and the
    index is as before. *)
Theorem Register_index_failure req data s :
  let w := st_world s in
  let agentID := uuid_String (w_uuids w) in
  let agent := newAgent agentID (w_now w) req in
  json_MarshalAgent agent = Some data →
  store_fails (length (st_cmds s)) = false →
  store_fails (S (length (st_cmds s))) = true →
  let r := AgentRegistry_Register req s in
  r.1 = Err (Errorf "failed to add agent to index: " redis_Failure) ∧
  w_strings (st_world r.2) !! (agentKeyPrefix +:+ agentID) = Some data ∧
  members_at agentIndexKey r.2 = members_at agentIndexKey s ∧
  (json_UnmarshalAgent data = Some agent →
   redis_fails (length (w_trace (st_world r.2))) = false →
   (lift (AgentRegistry_Get agentID) r.2).1 = Ok agent).
Proof.
  intros w agentID agent Hm Hset Hsadd r. subst r.
  rewrite Register_run. cbn zeta. fold w agentID agent. rewrite Hm.
  set (s0 := set_world (set_now clock_next) _).
  destruct (Set_ok (agent_key agentID) data 0 s0)
    as (s1 & -> & Hc1 & Hsets1 & Hstr1 & _).
  { subst s0. by store_cbn. }
  cbn [fst snd]. rewrite SAdd_run. cbn zeta.
  rewrite Hc1. subst s0. store_cbn. rewrite length_app, Nat.add_1_r, Hsadd.
  cbn [fst snd]. store_cbn.
  change (members_at agentIndexKey (set_cmds ?f s1))
    with (members_at agentIndexKey s1).
  split_and!.
  - done.
  - by rewrite Hstr1, lookup_insert_eq.
  - unfold members_at. rewrite Hsets1. store_cbn.
    by rewrite lookup_delete_ne by apply agent_key_ne_index.
  - intros Hu Hok. eapply Get_found; [done| |done]. store_cbn.
    by rewrite Hstr1, lookup_insert_eq.
Qed.

(** ** updating *)

(** An update never changes the id, the creation time nor the last-seen
    time of an agent, and an empty field of the request leaves the stored
    value: a name, type, endpoint or status cannot be reset to the empty
    string through [Update], nor the capabilities to none; only the
    metadata can be emptied, by a map that is empty but not nil. *)
Lemma applyUpdate_keeps agent req :
  let updated := applyUpdate agent req in
  agent_ID updated = agent_ID agent ∧
  agent_CreatedAt updated = agent_CreatedAt agent ∧
  agent_LastSeen updated = agent_LastSeen agent ∧
  (agent_Name agent ≠ "" → agent_Name updated ≠ "") ∧
  (agent_Type agent ≠ "" → agent_Type updated ≠ "") ∧
  (agent_Endpoint agent ≠ "" → agent_Endpoint updated ≠ "") ∧
  (agent_Status agent ≠ "" → agent_Status updated ≠ "") ∧
  (agent_Capabilities agent ≠ [] → agent_Capabilities updated ≠ []) ∧
  (upd_Metadata req = Some ∅ → agent_Metadata updated = ∅).
Proof.
  cbn zeta. unfold applyUpdate. cbn.
  split_and!; try done.
  - destruct (String.eqb_spec (upd_Name req) ""); cbn; done.
  - destruct (String.eqb_spec (upd_Type req) ""); cbn; done.
  - destruct (String.eqb_spec (upd_Endpoint req) ""); cbn; done.
  - destruct (String.eqb_spec (upd_Status req) ""); cbn; done.
  - case_bool_decide as Hlen; [|done].
    intros _ Hnil. rewrite Hnil in Hlen. cbn in Hlen. lia.
  - by intros ->.
Qed.

(** Updating a registered agent: [Update] returns the stored agent with
    the non-empty fields of the request written over it and stores its
    serialization, which [Get] reads back; what an update cannot change
    is kept (see [applyUpdate_keeps]).  When the [SET] fails the record
    is as before. *)
Theorem Update_result agentID req agent data s :
  let updated := applyUpdate agent req in
  (AgentRegistry_Get agentID (st_world s)).1 = Ok agent →
  json_MarshalAgent updated = Some data →
  let r := AgentRegistry_Update agentID req s in
  (store_fails (length (st_cmds s)) = false →
     r.1 = Ok updated ∧
     w_strings (st_world r.2) !! (agentKeyPrefix +:+ agentID) = Some data ∧
     (json_UnmarshalAgent data = Some updated →
      redis_fails (length (w_trace (st_world r.2))) = false →
      (lift (AgentRegistry_Get agentID) r.2).1 = Ok updated)) ∧
  (store_fails (length (st_cmds s)) = true →
     r.1 = Err (Errorf "failed to update agent: " redis_Failure) ∧
     w_strings (st_world r.2) = w_strings (st_world s)) ∧
  agent_ID updated = agent_ID agent ∧
  agent_CreatedAt updated = agent_CreatedAt agent ∧
  agent_LastSeen updated = agent_LastSeen agent ∧
  (agent_Name agent ≠ "" → agent_Name updated ≠ "") ∧
  (agent_Type agent ≠ "" → agent_Type updated ≠ "") ∧
  (agent_Endpoint agent ≠ "" → agent_Endpoint updated ≠ "") ∧
  (agent_Status agent ≠ "" → agent_Status updated ≠ "") ∧
  (agent_Capabilities agent ≠ [] → agent_Capabilities updated ≠ []).
Proof.
  intros updated Hget Hm r. subst r.
  destruct (applyUpdate_keeps agent req)
    as (Hid & Hc & Hl & Hn & Ht & He & Hs & Hcap & _).
  split_and!; try done.
  - intros Hok. unfold AgentRegistry_Update.
    rewrite rbind_run, lift_run. cbn [fst snd]. rewrite Hget.
    fold updated. rewrite Hm. rewrite rbind_run.
    destruct (Set_ok (agent_key agentID) data 0
                (set_world (λ _, (AgentRegistry_Get agentID (st_world s)).2) s))
      as (s1 & -> & _ & _ & Hstr1 & _); [by store_cbn|].
    store_cbn. split_and!; [done| |].
    + by rewrite Hstr1, lookup_insert_eq.
    + intros Hu Hok'. eapply Get_found; [done| |done].
      by rewrite Hstr1, lookup_insert_eq.
  - intros Hfail. unfold AgentRegistry_Update.
    rewrite rbind_run, lift_run. cbn [fst snd]. rewrite Hget.
    fold updated. rewrite Hm. rewrite rbind_run, Set_failed by by store_cbn.
    cbn [fst snd]. store_cbn. by rewrite AgentRegistry_Get_run.
Qed.

(** ** listing *)

Lemma getEach_spec (agentIDs : list string) (agents : list Agent) s :
  let r := getEach agentIDs agents s in
  st_sets r.2 = st_sets s ∧ st_cmds r.2 = st_cmds s ∧
  w_strings (st_world r.2) = w_strings (st_world s) ∧
  w_lists (st_world r.2) = w_lists (st_world s) ∧
  length (w_trace (st_world r.2)) =
    (length (w_trace (st_world s)) + length agentIDs)%nat ∧
  (∃ found, r.1 = agents ++ found ∧
     (∀ a, a ∈ found →
        ∃ agentID raw, agentID ∈ agentIDs ∧
          w_strings (st_world s) !! agent_key agentID = Some raw ∧
          json_UnmarshalAgent raw = Some a)) ∧
  (healthy_from (length (w_trace (st_world s))) →
   r.1 = agents ++
         omap (λ agentID, w_strings (st_world s) !! agent_key agentID
                          ≫= json_UnmarshalAgent) agentIDs).
Proof.
  revert agents s. induction agentIDs as [|agentID rest IH]; intros agents s.
  { cbn. split_and!; try done.
    - exists []. split; [by rewrite app_nil_r|].
      intros a Ha. by apply elem_of_nil in Ha.
    - intros _. by rewrite app_nil_r. }
  cbn zeta. cbn [getEach]. rewrite rbind_run, lift_Get_run. cbn [fst snd].
  set (s1 := set_world _ s).
  assert (Hs1 : st_sets s1 = st_sets s ∧ st_cmds s1 = st_cmds s ∧
                w_strings (st_world s1) = w_strings (st_world s) ∧
                w_lists (st_world s1) = w_lists (st_world s) ∧
                length (w_trace (st_world s1)) =
                  S (length (w_trace (st_world s)))).
  { subst s1. store_cbn. rewrite length_app, Nat.add_1_r. done. }
  destruct Hs1 as (Hsets1 & Hc1 & Hstr1 & Hl1 & Htr1). clearbody s1.
  set (res := if redis_fails _ then _ else _).
  assert (Hres : match res with
                 | Ok a => ∃ raw,
                     w_strings (st_world s) !! agent_key agentID = Some raw ∧
                     json_UnmarshalAgent raw = Some a
                 | Err _ => True
                 end).
  { subst res. destruct (redis_fails _); [done|].
    destruct (w_strings _ !! _) as [raw|]; [|done].
    destruct (json_UnmarshalAgent raw) eqn:?; [eauto|done]. }
  assert (Hhealthy : healthy_from (length (w_trace (st_world s))) →
    (w_strings (st_world s) !! agent_key agentID ≫= json_UnmarshalAgent) =
      match res with Ok a => Some a | Err _ => None end).
  { intros Hh. subst res. rewrite (Hh _ (le_n _)).
    destruct (w_strings _ !! _) as [raw|]; [|done]. cbn.
    by destruct (json_UnmarshalAgent raw). }
  clearbody res.
  destruct res as [a|err].
  - destruct (IH (agents ++ [a]) s1)
      as (Hsets & Hc & Hstr & Hl & Htr & (found & Hf & Hfound) & Hh).
    cbn zeta in *. split_and!; try congruence.
    + rewrite Htr, Htr1. cbn. lia.
    + exists (a :: found). split; [by rewrite Hf, <- app_assoc|].
      intros a' [->|Hin]%elem_of_cons.
      * destruct Hres as (raw & ? & ?). exists agentID, raw.
        split_and!; [apply elem_of_cons; by left|done..].
      * destruct (Hfound a' Hin) as (id & raw & ? & ? & ?).
        exists id, raw. rewrite <- Hstr1.
        split_and!; [apply elem_of_cons; by right|done..].
    + intros Hhs. rewrite Hh by (intros n Hn; apply Hhs; lia).
      cbn [omap list_omap]. rewrite (Hhealthy Hhs), Hstr1.
      by rewrite <- app_assoc.
  - destruct (IH agents s1)
      as (Hsets & Hc & Hstr & Hl & Htr & (found & Hf & Hfound) & Hh).
    cbn zeta in *. split_and!; try congruence.
    + rewrite Htr, Htr1. cbn. lia.
    + exists found. split; [done|].
      intros a' Hin. destruct (Hfound a' Hin) as (id & raw & ? & ? & ?).
      exists id, raw. rewrite <- Hstr1.
      split_and!; [apply elem_of_cons; by right|done..].
    + intros Hhs. rewrite Hh by (intros n Hn; apply Hhs; lia).
      cbn [omap list_omap]. by rewrite (Hhealthy Hhs), Hstr1.
Qed.

(** [List] fails only when the [SMEMBERS] fails.  Otherwise it returns, in
    the order [SMEMBERS] gave the ids, agents whose id is in the index and
    whose record is stored and parses, skipping the ids it cannot get;
    when the lookups all succeed these are all such agents.  It changes no
    key. *)
Theorem List_returns_retrievable s :
  let r := AgentRegistry_List s in
  let stored agentID :=
    w_strings (st_world s) !! (agentKeyPrefix +:+ agentID)
    ≫= json_UnmarshalAgent in
  (store_fails (length (st_cmds s)) = true →
     r.1 = Err (Errorf "failed to get agent index: " redis_Failure)) ∧
  (store_fails (length (st_cmds s)) = false →
     ∃ agents, r.1 = Ok agents ∧
       (∀ a, a ∈ agents →
          ∃ agentID, agentID ∈ members_at agentIndexKey s ∧
                     stored agentID = Some a) ∧
       (healthy_from (length (w_trace (st_world s))) →
        agents = omap stored (members_at agentIndexKey s))) ∧
  st_sets r.2 = st_sets s ∧
  w_strings (st_world r.2) = w_strings (st_world s) ∧
  w_lists (st_world r.2) = w_lists (st_world s).
Proof.
  cbn zeta. unfold AgentRegistry_List. rewrite rbind_run, SMembers_run.
  cbn [fst snd]. destruct (store_fails _); [by split_and!|].
  change (members_at agentIndexKey (set_cmds ?f s))
    with (members_at agentIndexKey s).
  case_bool_decide as Hlen.
  { apply nil_length_inv in Hlen. split_and!; try done.
    intros _. exists []. rewrite Hlen. split_and!; try done.
    intros a Ha. by apply elem_of_nil in Ha. }
  rewrite rbind_run.
  destruct (getEach_spec (members_at agentIndexKey s) []
              (set_cmds (λ t, t ++ [SMEMBERS agentIndexKey]) s))
    as (Hsets & _ & Hstr & Hl & _ & (found & Hf & Hfound) & Hh).
  cbn zeta in *. store_cbn_all. split_and!; try done.
  intros _. eexists. split_and!; [done| |].
  - intros a Ha. rewrite Hf in Ha. cbn in Ha.
    destruct (Hfound a Ha) as (id & raw & Hin & Hraw & Hp).
    exists id. split; [done|]. rewrite Hraw. done.
  - intros Hhs. by rewrite Hh.
Qed.

(** ** the agent handlers *)

(** A registration whose body does not decode, or which lacks a name or a
    type, is answered 400 and touches nothing: no UUID is drawn, the clock
    is not read, no command is sent. *)
Theorem AgentHandler_Register_validation body s :
  body = None ∨
    (∃ req, body = Some req ∧ (reg_Name req = "" ∨ reg_Type req = "")) →
  AgentHandler_Register body s =
    (agent_Error
       (Literal (match body with
                 | None => "invalid request body"
                 | Some _ => "name and type are required"
                 end)) StatusBadRequest, s).
Proof.
  intros [->|(req & -> & Hempty)]; [done|]. unfold AgentHandler_Register.
  destruct Hempty as [->| ->]; [done|].
  by destruct (String.eqb (reg_Name req) "").
Qed.

(** Through the handlers, with Redis answering and a codec that reads the
    records back: a registration with a name and a type is answered 201
    with the new id and the status "online", and the agent can then be
    fetched, 200, with the fields of the request. *)
Theorem AgentHandler_Register_then_Get req data0 data2 s :
  let w := st_world s in
  let agentID := uuid_String (w_uuids w) in
  let t0 := w_now w in
  let t2 := clock_next (clock_next t0) in
  let agent := newAgent agentID t0 req in
  reg_Name req ≠ "" → reg_Type req ≠ "" →
  store_healthy_from (length (st_cmds s)) →
  healthy_from (length (w_trace w)) →
  json_MarshalAgent agent = Some data0 →
  json_UnmarshalAgent data0 = Some agent →
  json_MarshalAgent (with_LastSeen agent t2) = Some data2 →
  json_UnmarshalAgent data2 = Some (with_LastSeen agent t2) →
  let r := AgentHandler_Register (Some req) s in
  r.1 = agent_Registered StatusCreated
          {| regresp_ID := agentID; regresp_Status := "online" |} ∧
  (AgentHandler_Get agentID r.2).1 =
    agent_JSON StatusOK (with_LastSeen agent t2).
Proof.
  intros w agentID t0 t2 agent Hname Htype Hsh Hh Hm0 Hu0 Hm2 Hu2 r. subst r.
  destruct (Register_ok req data0 data2 s Hsh Hh Hm0 Hu0 Hm2 Hu2)
    as (Hres & _ & _ & _ & Hget & _).
  unfold AgentHandler_Register.
  destruct (String.eqb_spec (reg_Name req) ""); [done|].
  destruct (String.eqb_spec (reg_Type req) ""); [done|]. cbn [orb].
  rewrite rbind_run. fold w agentID t0 agent in Hres, Hget.
  destruct (AgentRegistry_Register req s) as [res s'].
  cbn [fst snd] in *. subst res. store_cbn. split; [done|].
  unfold AgentHandler_Get. rewrite rbind_run, Hget. done.
Qed.

(** Through the handlers, with Redis answering: deleting a registered
    agent is answered 204, and fetching it afterwards 404. *)
Theorem AgentHandler_Delete_then_Get agentID agent s :
  (AgentRegistry_Get agentID (st_world s)).1 = Ok agent →
  store_healthy_from (length (st_cmds s)) →
  redis_fails (S (length (w_trace (st_world s)))) = false →
  let r := AgentHandler_Delete agentID s in
  r.1 = agent_Empty StatusNoContent ∧
  (AgentHandler_Get agentID r.2).1 =
    agent_Error (Literal "agent not found") StatusNotFound.
Proof.
  intros Hget Hsh Hok r. subst r.
  destruct (Unregister_ok agentID agent s Hget Hsh)
    as (Hres & Htr & _ & _ & _ & Hgone).
  unfold AgentHandler_Delete. rewrite rbind_run.
  destruct (AgentRegistry_Unregister agentID s) as [res s'].
  cbn [fst snd] in *. subst res. store_cbn. split; [done|].
  unfold AgentHandler_Get. rewrite rbind_run, Hgone; [done|].
  by rewrite Htr, length_app, Nat.add_1_r.
Qed.

End RegistryFacts.

(** * The properties of the registry at work *)

Section RegistryRuns.
Import Fixture Office.

Local Abbreviation rt := (codec records never).
Local Abbreviation ck := (clerk never).

Lemma AgentHandler_unknown_agent_witness :
  w_strings (st_world office) !! ("agent:" +:+ "zz") = None ∧
  @redis_fails rt (length (w_trace (st_world office))) = false ∧
  (@AgentHandler_Delete rt ck "zz" office).1 =
    agent_Error (Literal "agent not found") 404.
Proof.
  assert (Hn : w_strings (st_world office) !! (agentKeyPrefix +:+ "zz") = None)
    by reflexivity.
  assert (Hok : @redis_fails rt (length (w_trace (st_world office))) = false)
    by reflexivity.
  refine (conj Hn (conj Hok _)).
  destruct (AgentHandler_unknown_agent (H:=rt) (H0:=ck) "zz" renamed office Hn Hok)
    as (_ & _ & Hdel & _).
  by rewrite Hdel.
Defined.

Lemma Unregister_removes_witness :
  (@AgentRegistry_Get rt "a1" (st_world office)).1 = Ok a1 ∧
  @store_healthy_from ck (length (st_cmds office)) ∧
  (@AgentRegistry_Unregister rt ck "a1" office).1 = None ∧
  ("a1" ∉ members_at agentIndexKey
            (@AgentRegistry_Unregister rt ck "a1" office).2).
Proof.
  assert (Hget : (@AgentRegistry_Get rt "a1" (st_world office)).1 = Ok a1)
    by reflexivity.
  assert (Hh : @store_healthy_from ck (length (st_cmds office)))
    by (intros n _; reflexivity).
  destruct (Unregister_removes (H:=rt) (H0:=ck) "a1" a1 office Hget Hh)
    as (Hres & _ & Hout & _).
  exact (conj Hget (conj Hh (conj Hres Hout))).
Defined.

Lemma Unregister_delete_failure_witness :
  (@AgentRegistry_Get rt "a1" (st_world office)).1 = Ok a1 ∧
  @store_fails (clerk (only 1)) (length (st_cmds office)) = false ∧
  @store_fails (clerk (only 1)) (S (length (st_cmds office))) = true ∧
  (@AgentRegistry_Unregister rt (clerk (only 1)) "a1" office).1 =
    Some (Errorf "failed to delete agent: " redis_Failure) ∧
  w_strings (st_world (@AgentRegistry_Unregister rt (clerk (only 1)) "a1"
                         office).2) = w_strings world.
Proof.
  assert (Hget : (@AgentRegistry_Get rt "a1" (st_world office)).1 = Ok a1)
    by reflexivity.
  assert (H0 : @store_fails (clerk (only 1)) (length (st_cmds office)) = false)
    by reflexivity.
  assert (H1 : @store_fails (clerk (only 1)) (S (length (st_cmds office)))
               = true) by reflexivity.
  destruct (Unregister_delete_failure (H:=rt) (H0:=clerk (only 1))
              "a1" a1 office Hget H0 H1) as (Hres & _ & Hstr & _).
  exact (conj Hget (conj H0 (conj H1 (conj Hres Hstr)))).
Defined.

Lemma Heartbeat_renews_witness :
  (@AgentRegistry_Get rt "a1" (st_world office)).1 = Ok a1 ∧
  @redis_fails rt (S (length (w_trace (st_world office)))) = false ∧
  @store_healthy_from ck (length (st_cmds office)) ∧
  @json_MarshalAgent ck a1_seen = Some "a1@1700000001000000000" ∧
  (@AgentRegistry_Heartbeat rt ck "a1" office).1 = None ∧
  w_strings (st_world (@AgentRegistry_Heartbeat rt ck "a1" office).2)
    !! "agent:heartbeat:a1" = Some "1700000000".
Proof.
  assert (Hget : (@AgentRegistry_Get rt "a1" (st_world office)).1 = Ok a1)
    by reflexivity.
  assert (Hok : @redis_fails rt (S (length (w_trace (st_world office)))) = false)
    by reflexivity.
  assert (Hh : @store_healthy_from ck (length (st_cmds office)))
    by (intros n _; reflexivity).
  assert (Hm : @json_MarshalAgent ck a1_seen = Some "a1@1700000001000000000")
    by (vm_compute; reflexivity).
  destruct (Heartbeat_renews (H:=rt) (H0:=ck) "a1" a1
              "a1@1700000001000000000" office Hget Hok Hh Hm)
    as (Hres & Hhb & _).
  refine (conj Hget (conj Hok (conj Hh (conj Hm (conj Hres _))))).
  etransitivity; [exact Hhb|]. vm_compute. reflexivity.
Defined.

Lemma heartbeat_key_shadows_record_witness :
  (@AgentRegistry_Get rt "a1" (st_world office)).1 = Ok a1 ∧
  @json_UnmarshalAgent rt "1700000000" = None ∧
  (@AgentHandler_Get rt "heartbeat:a1"
     (@AgentRegistry_Heartbeat rt ck "a1" office).2).1 =
    agent_Error (Error_of (Errorf "failed to unmarshal agent: " json_Failure))
                500.
Proof.
  assert (Hget : (@AgentRegistry_Get rt "a1" (st_world office)).1 = Ok a1)
    by reflexivity.
  assert (Hh : @store_healthy_from ck (length (st_cmds office)))
    by (intros n _; reflexivity).
  assert (Hm : @json_MarshalAgent ck
                 (with_LastSeen a1 (@clock_next ck (w_now (st_world office))))
               = Some "a1@1700000001000000000") by (vm_compute; reflexivity).
  assert (Hp : @json_UnmarshalAgent rt (pretty (Unix (w_now (st_world office))))
               = None) by (vm_compute; reflexivity).
  refine (conj Hget (conj Hp _)).
  exact (proj2 (heartbeat_key_shadows_record (H:=rt) (H0:=ck) "a1" a1
                  "a1@1700000001000000000" office Hget eq_refl eq_refl Hh Hm Hp)).
Defined.

Lemma Register_then_Get_witness :
  @store_healthy_from ck (length (st_cmds office)) ∧
  @healthy_from rt (length (w_trace (st_world office))) ∧
  @json_MarshalAgent ck hired = Some "id-0@1700000000000000000" ∧
  @json_UnmarshalAgent rt "id-0@1700000000000000000" = Some hired ∧
  @json_MarshalAgent ck hired_seen = Some "id-0@1700000002000000000" ∧
  @json_UnmarshalAgent rt "id-0@1700000002000000000" = Some hired_seen ∧
  (@AgentRegistry_Register rt ck worker office).1 = Ok hired ∧
  (lift (@AgentRegistry_Get rt "id-0")
     (@AgentRegistry_Register rt ck worker office).2).1 = Ok hired_seen.
Proof.
  assert (Hsh : @store_healthy_from ck (length (st_cmds office)))
    by (intros n _; reflexivity).
  assert (Hh : @healthy_from rt (length (w_trace (st_world office))))
    by (intros n _; reflexivity).
  assert (Hm0 : @json_MarshalAgent ck hired = Some "id-0@1700000000000000000")
    by (vm_compute; reflexivity).
  assert (Hu0 : @json_UnmarshalAgent rt "id-0@1700000000000000000" = Some hired)
    by (vm_compute; reflexivity).
  assert (Hm2 : @json_MarshalAgent ck hired_seen
                = Some "id-0@1700000002000000000") by (vm_compute; reflexivity).
  assert (Hu2 : @json_UnmarshalAgent rt "id-0@1700000002000000000"
                = Some hired_seen) by (vm_compute; reflexivity).
  destruct (Register_then_Get (H:=rt) (H0:=ck) worker
              "id-0@1700000000000000000" "id-0@1700000002000000000" office
              Hsh Hh Hm0 Hu0 Hm2 Hu2) as (Hres & _ & _ & Hget & _).
  exact (conj Hsh (conj Hh (conj Hm0 (conj Hu0 (conj Hm2 (conj Hu2
           (conj Hres Hget))))))).
Defined.

Lemma Register_index_failure_witness :
  @json_MarshalAgent (clerk (only 1)) hired = Some "id-0@1700000000000000000" ∧
  @store_fails (clerk (only 1)) (length (st_cmds office)) = false ∧
  @store_fails (clerk (only 1)) (S (length (st_cmds office))) = true ∧
  (@AgentRegistry_Register rt (clerk (only 1)) worker office).1 =
    Err (Errorf "failed to add agent to index: " redis_Failure) ∧
  members_at agentIndexKey
    (@AgentRegistry_Register rt (clerk (only 1)) worker office).2 = ["a1"].
Proof.
  assert (Hm : @json_MarshalAgent (clerk (only 1)) hired
               = Some "id-0@1700000000000000000") by (vm_compute; reflexivity).
  assert (H0 : @store_fails (clerk (only 1)) (length (st_cmds office)) = false)
    by reflexivity.
  assert (H1 : @store_fails (clerk (only 1)) (S (length (st_cmds office)))
               = true) by reflexivity.
  destruct (Register_index_failure (H:=rt) (H0:=clerk (only 1)) worker
              "id-0@1700000000000000000" office Hm H0 H1)
    as (Hres & _ & Hidx & _).
  exact (conj Hm (conj H0 (conj H1 (conj Hres Hidx)))).
Defined.

Lemma Update_result_witness :
  (@AgentRegistry_Get rt "a1" (st_world office)).1 = Ok a1 ∧
  @json_MarshalAgent ck (applyUpdate a1 renamed) = Some "a1@0" ∧
  @store_fails ck (length (st_cmds office)) = false ∧
  (@AgentRegistry_Update rt ck "a1" renamed office).1 =
    Ok (applyUpdate a1 renamed) ∧
  agent_Name (applyUpdate a1 renamed) = "clerk" ∧
  agent_Type (applyUpdate a1 renamed) = "test".
Proof.
  assert (Hget : (@AgentRegistry_Get rt "a1" (st_world office)).1 = Ok a1)
    by reflexivity.
  assert (Hm : @json_MarshalAgent ck (applyUpdate a1 renamed) = Some "a1@0")
    by (vm_compute; reflexivity).
  assert (Hok : @store_fails ck (length (st_cmds office)) = false)
    by reflexivity.
  destruct (Update_result (H:=rt) (H0:=ck) "a1" renamed a1 "a1@0" office
              Hget Hm) as (Hset & _).
  destruct (Hset Hok) as (Hres & _).
  exact (conj Hget (conj Hm (conj Hok (conj Hres (conj eq_refl eq_refl))))).
Defined.

(** The index of [office] lists [a1]. *)
Lemma List_returns_retrievable_witness :
  @store_fails ck (length (st_cmds office)) = false ∧
  ∃ agents, (@AgentRegistry_List rt ck office).1 = Ok agents ∧ agents = [a1].
Proof.
  assert (Hok : @store_fails ck (length (st_cmds office)) = false)
    by reflexivity.
  split; [exact Hok|].
  destruct (List_returns_retrievable (H:=rt) (H0:=ck) office)
    as (_ & Hlist & _).
  destruct (Hlist Hok) as (agents & Hres & _ & Hall).
  exists agents. split; [exact Hres|].
  rewrite Hall by (intros n _; reflexivity). reflexivity.
Defined.

Lemma AgentHandler_Register_validation_witness :
  let nameless :=
    {| reg_Name := ""; reg_Type := "test"; reg_Capabilities := [];
       reg_Endpoint := ""; reg_Metadata := ∅ |} in
  (Some nameless = None ∨
   ∃ req, Some nameless = Some req ∧ (reg_Name req = "" ∨ reg_Type req = "")) ∧
  @AgentHandler_Register rt ck (Some nameless) office =
    (agent_Error (Literal "name and type are required") 400, office).
Proof.
  intros nameless.
  assert (Hbad : Some nameless = None ∨
    ∃ req, Some nameless = Some req ∧ (reg_Name req = "" ∨ reg_Type req = "")).
  { right. exists nameless. split; [reflexivity | left; reflexivity]. }
  exact (conj Hbad
    (AgentHandler_Register_validation (H:=rt) (H0:=ck) (Some nameless) office
       Hbad)).
Defined.

Lemma AgentHandler_Register_then_Get_witness :
  reg_Name worker ≠ "" ∧ reg_Type worker ≠ "" ∧
  (@AgentHandler_Register rt ck (Some worker) office).1 =
    agent_Registered 201 {| regresp_ID := "id-0"; regresp_Status := "online" |} ∧
  (@AgentHandler_Get rt "id-0"
     (@AgentHandler_Register rt ck (Some worker) office).2).1 =
    agent_JSON 200 hired_seen.
Proof.
  assert (Hn : reg_Name worker ≠ "") by discriminate.
  assert (Ht : reg_Type worker ≠ "") by discriminate.
  assert (Hsh : @store_healthy_from ck (length (st_cmds office)))
    by (intros n _; reflexivity).
  assert (Hh : @healthy_from rt (length (w_trace (st_world office))))
    by (intros n _; reflexivity).
  assert (Hm0 : @json_MarshalAgent ck hired = Some "id-0@1700000000000000000")
    by (vm_compute; reflexivity).
  assert (Hu0 : @json_UnmarshalAgent rt "id-0@1700000000000000000" = Some hired)
    by (vm_compute; reflexivity).
  assert (Hm2 : @json_MarshalAgent ck hired_seen
                = Some "id-0@1700000002000000000") by (vm_compute; reflexivity).
  assert (Hu2 : @json_UnmarshalAgent rt "id-0@1700000002000000000"
                = Some hired_seen) by (vm_compute; reflexivity).
  exact (conj Hn (conj Ht
    (AgentHandler_Register_then_Get (H:=rt) (H0:=ck) worker
       "id-0@1700000000000000000" "id-0@1700000002000000000" office
       Hn Ht Hsh Hh Hm0 Hu0 Hm2 Hu2))).
Defined.

Lemma AgentHandler_Delete_then_Get_witness :
  (@AgentRegistry_Get rt "a1" (st_world office)).1 = Ok a1 ∧
  @store_healthy_from ck (length (st_cmds office)) ∧
  @redis_fails rt (S (length (w_trace (st_world office)))) = false ∧
  (@AgentHandler_Delete rt ck "a1" office).1 = agent_Empty 204 ∧
  (@AgentHandler_Get rt "a1" (@AgentHandler_Delete rt ck "a1" office).2).1 =
    agent_Error (Literal "agent not found") 404.
Proof.
  assert (Hget : (@AgentRegistry_Get rt "a1" (st_world office)).1 = Ok a1)
    by reflexivity.
  assert (Hh : @store_healthy_from ck (length (st_cmds office)))
    by (intros n _; reflexivity).
  assert (Hok : @redis_fails rt (S (length (w_trace (st_world office)))) = false)
    by reflexivity.
  exact (conj Hget (conj Hh (conj Hok
    (AgentHandler_Delete_then_Get (H:=rt) (H0:=ck) "a1" a1 office Hget Hh Hok)))).
Defined.

End RegistryRuns.
